(** * Silly Sums (game.js): a shallow embedding and its verified properties

    The development follows the source file top to bottom: the number
    model of the JavaScript runtime, the global variables and the parts of
    the page the script writes, a state-and-exception monad in which every
    function of game.js is transcribed, the event loop (clicks and timer
    callbacks), and then the theorems.

    Number model.  JavaScript numbers are IEEE doubles.  Variables that only
    ever hold integers (counters, operands, timer values, timestamps in ms)
    are [Z]: double arithmetic is exact on integers below 2^53.  Values that
    come out of a division are [number]: an exact rational, or NaN or an
    infinity when the divisor is zero.  Signed zeros and the rounding of
    non-representable quotients are not modelled. *)

From Stdlib Require Import ZArith QArith Qcanon Qround DecimalString DecimalZ.
From Stdlib Require Import Ascii Permutation Sorted.
From stdpp Require Import base tactics option list strings gmap numbers sorting.

Local Open Scope Z_scope.

(* stdpp's solvers clear hypotheses by name; the notice is of no interest. *)
#[local] Set Warnings "-clear-no-such-hyp".

(** ** Numbers *)

Inductive number :=
| NaN
| Infinity (neg : bool)
| Fin (q : Qc).

Global Instance number_eq_dec : EqDecision number.
Proof. solve_decision. Defined.

Definition of_Z (z : Z) : number := Fin (Qc_of_Z z).

Definition Qc_neg (q : Qc) : bool := bool_decide (q < 0)%Qc.
Definition Qc_zero (q : Qc) : bool := bool_decide (q = 0%Qc).

(** [x + y] *)
Definition js_add (x y : number) : number :=
  match x, y with
  | NaN, _ | _, NaN => NaN
  | Infinity a, Infinity b => if bool_decide (a = b) then Infinity a else NaN
  | Infinity a, Fin _ | Fin _, Infinity a => Infinity a
  | Fin p, Fin q => Fin (p + q)%Qc
  end.

(** [-x] *)
Definition js_neg (x : number) : number :=
  match x with
  | NaN => NaN
  | Infinity a => Infinity (negb a)
  | Fin p => Fin (- p)%Qc
  end.

(** [x - y] *)
Definition js_sub (x y : number) : number := js_add x (js_neg y).

(** [x * y] *)
Definition js_mul (x y : number) : number :=
  match x, y with
  | NaN, _ | _, NaN => NaN
  | Infinity a, Infinity b => Infinity (xorb a b)
  | Infinity a, Fin q | Fin q, Infinity a =>
      if Qc_zero q then NaN else Infinity (xorb a (Qc_neg q))
  | Fin p, Fin q => Fin (p * q)%Qc
  end.

(** [x / y]; a zero divisor is the positive zero. *)
Definition js_div (x y : number) : number :=
  match x, y with
  | NaN, _ | _, NaN => NaN
  | Infinity _, Infinity _ => NaN
  | Infinity a, Fin q => Infinity (xorb a (Qc_neg q))
  | Fin _, Infinity _ => Fin 0%Qc
  | Fin p, Fin q =>
      if Qc_zero q then
        (if Qc_zero p then NaN else Infinity (Qc_neg p))
      else Fin (p / q)%Qc
  end.

(** [x === y] on numbers: NaN is not equal to itself. *)
Definition strict_eq (x y : number) : bool :=
  match x, y with
  | NaN, _ | _, NaN => false
  | _, _ => bool_decide (x = y)
  end.

(** SameValueZero, the comparison of [Array.prototype.includes]. *)
Definition includes (l : list number) (x : number) : bool :=
  bool_decide (x ∈ l).

(** The integer-valued results of [Math.round]. *)
Inductive rounded :=
| RNaN
| RInfinity (neg : bool)
| RInt (z : Z).

Global Instance rounded_eq_dec : EqDecision rounded.
Proof. solve_decision. Defined.

(** [Math.round]: the nearest integer, ties towards +Infinity. *)
Definition Math_round_Qc (q : Qc) : Z := Qfloor (q + Q2Qc (1 # 2))%Qc.

Definition Math_round (x : number) : rounded :=
  match x with
  | NaN => RNaN
  | Infinity a => RInfinity a
  | Fin q => RInt (Math_round_Qc q)
  end.

(** [Math.floor] of a finite value. *)
Definition Math_floor (q : Qc) : Z := Qfloor q.

(** Decimal rendering of an integer, as template literals and [toString]
    print it. *)
Definition show_Z (z : Z) : string := NilZero.string_of_int (Z.to_int z).

Definition show_rounded (r : rounded) : string :=
  match r with
  | RNaN => "NaN"
  | RInfinity false => "Infinity"
  | RInfinity true => "-Infinity"
  | RInt z => show_Z z
  end.

Example show_Z_neg : show_Z (-42) = "-42".
Proof. reflexivity. Qed.

Example round_half_up : Math_round (js_div (of_Z 5) (of_Z 2)) = RInt 3.
Proof. reflexivity. Qed.

Example round_neg_half : Math_round (js_div (of_Z (-5)) (of_Z 2)) = RInt (-2).
Proof. reflexivity. Qed.

Example zero_by_zero : js_div (of_Z 0) (of_Z 0) = NaN.
Proof. reflexivity. Qed.

(** ** Data of the game *)

Inductive Operation := addition | subtraction | multiplication | division.
Inductive Difficulty := easy | medium | hard.

Global Instance Operation_eq_dec : EqDecision Operation.
Proof. solve_decision. Defined.
Global Instance Difficulty_eq_dec : EqDecision Difficulty.
Proof. solve_decision. Defined.

Record Range := { range_min : Z; range_max : Z }.

(** [difficultyRanges] *)
Definition difficultyRanges (d : Difficulty) : Range :=
  match d with
  | easy => {| range_min := 1; range_max := 10 |}
  | medium => {| range_min := 10; range_max := 25 |}
  | hard => {| range_min := 25; range_max := 100 |}
  end.

(** The [achievements] object.  The accuracy entry is declared without an
    [awarded] property, so reading it yields [undefined]: [None] here. *)
Record StreakAchievement := {
  streak_id : string;
  streak_name : string;
  streak_requirement : Z;
  streak_description : string;
  streak_awarded : bool
}.

Record AccuracyRequirement := { accuracy : Z; questions : Z }.

Record AccuracyAchievement := {
  accuracy_id : string;
  accuracy_name : string;
  accuracy_requirement : AccuracyRequirement;
  accuracy_description : string;
  accuracy_awarded : option bool
}.

Record Achievements := {
  streaks : list StreakAchievement;
  accuracies : list AccuracyAchievement
}.

Definition sharpShooter : AccuracyAchievement :=
  {| accuracy_id := "accuracy100_15"; accuracy_name := "Sharp Shooter!";
     accuracy_requirement := {| accuracy := 100; questions := 15 |};
     accuracy_description := "100% accuracy over 15 questions";
     accuracy_awarded := None |}.

Definition initialAchievements : Achievements :=
  {| streaks :=
       [ {| streak_id := "streak5"; streak_name := "High Five!"; streak_requirement := 5;
            streak_description := "Get a streak of 5 correct answers";
            streak_awarded := false |};
         {| streak_id := "streak10"; streak_name := "Perfect Ten!"; streak_requirement := 10;
            streak_description := "Get a streak of 10 correct answers";
            streak_awarded := false |};
         {| streak_id := "streak15"; streak_name := "Unstoppable!"; streak_requirement := 15;
            streak_description := "Get a streak of 15 correct answers";
            streak_awarded := false |};
         {| streak_id := "streak20"; streak_name := "Math Master!"; streak_requirement := 20;
            streak_description := "Get a streak of 20 correct answers";
            streak_awarded := false |} ];
     accuracies := [ sharpShooter ] |}.

(** An entry of the persisted leaderboard. *)
Module Entry.
Record t := { name : string; score : Z }.
End Entry.

Global Instance Entry_eq_dec : EqDecision Entry.t.
Proof. solve_decision. Defined.

(** ** The page

    Only what the script writes and a claim can observe is kept: the problem
    line, the option buttons with the arguments their [onclick] closure
    captured, the three statistics, the announcement banner, the achievement
    notifications appended to the body, the rows of the leaderboard page and
    the address the window was sent to.  Style classes, sound, the confetti
    particles, the two clock read-outs, the countdown digits and the
    multiplayer score labels are write-only decoration and are left out. *)

Record ProblemText := { shown_num1 : Z; shown_symbol : string; shown_num2 : Z }.

Record OptionButton := {
  button_option : number;    (* textContent, and first argument of checkAnswer *)
  button_correct : number;   (* second argument of checkAnswer *)
  button_disabled : bool     (* pointer-events: none *)
}.

Inductive Announcement :=
| GreatEffort (playerName : option string) (finalScore : Z)
| PlayerOneDone
| PlayerWins (player : Z) (winner loser : Z)
| Tie (p1 p2 : Z).

Record Notification := { note_name : string; note_description : string }.

Inductive Row :=
| EntryRow (rank : Z) (name : string) (score : Z)
| EmptyRow (rank : Z).

(** ** Timers: the callbacks that [setInterval] and [setTimeout] register.
    The two half-second cosmetic timeouts of [showFeedback] and
    [awardAchievement] only flip a style class and are left out. *)

Inductive Callback :=
| TimerTick                 (* toggleTimer: the one-second interval *)
| TimerEndHide              (* showTimerEndMessage: after 3000 ms *)
| PlayerTurnTick            (* startPlayerTurn: the one-second interval *)
| CountdownHide (i : nat)   (* showNumber: after 1000 ms; [i] is the closure's counter *)
| CountdownShow (i : nat)   (* showNumber again, after a further 500 ms *)
| TurnEndHide               (* handleTurnEnd: after 8000 ms *)
| TurnEndCountdown          (* handleTurnEnd: after a further 500 ms *)
| WinnerCleanup.            (* announceWinner: after 3000 ms *)

Record Timer := { timer_id : positive; timer_repeats : bool; timer_callback : Callback }.

Global Instance Callback_eq_dec : EqDecision Callback.
Proof. solve_decision. Defined.

(** ** The global variables of the script *)

Record Globals := {
  currentOperation : Operation;
  currentDifficulty : Difficulty;
  score : Z;
  streak : Z;
  totalAttempts : Z;
  timerActive : bool;
  timeRemaining : Z;
  timerInterval : option positive;
  isMultiplayer : bool;
  currentPlayer : Z;
  p1Score : Z;
  p2Score : Z;
  totalTime : Qc;
  questionsStartTime : Z;
  isMultiplayerRound : bool;
  multiplayerTimer : Z;
  multiplayerInterval : option positive;
  isMusicPlaying : bool
}.

Definition set_currentOperation (v : Operation) (g : Globals) : Globals :=
  {| currentOperation := v; currentDifficulty := currentDifficulty g; score := score g;
     streak := streak g; totalAttempts := totalAttempts g; timerActive := timerActive g;
     timeRemaining := timeRemaining g; timerInterval := timerInterval g; isMultiplayer :=
     isMultiplayer g; currentPlayer := currentPlayer g; p1Score := p1Score g; p2Score :=
     p2Score g; totalTime := totalTime g; questionsStartTime := questionsStartTime g;
     isMultiplayerRound := isMultiplayerRound g; multiplayerTimer := multiplayerTimer g;
     multiplayerInterval := multiplayerInterval g; isMusicPlaying := isMusicPlaying g |}.
Definition set_currentDifficulty (v : Difficulty) (g : Globals) : Globals :=
  {| currentOperation := currentOperation g; currentDifficulty := v; score := score g;
     streak := streak g; totalAttempts := totalAttempts g; timerActive := timerActive g;
     timeRemaining := timeRemaining g; timerInterval := timerInterval g; isMultiplayer :=
     isMultiplayer g; currentPlayer := currentPlayer g; p1Score := p1Score g; p2Score :=
     p2Score g; totalTime := totalTime g; questionsStartTime := questionsStartTime g;
     isMultiplayerRound := isMultiplayerRound g; multiplayerTimer := multiplayerTimer g;
     multiplayerInterval := multiplayerInterval g; isMusicPlaying := isMusicPlaying g |}.
Definition set_score (v : Z) (g : Globals) : Globals :=
  {| currentOperation := currentOperation g; currentDifficulty := currentDifficulty g; score
     := v; streak := streak g; totalAttempts := totalAttempts g; timerActive := timerActive
     g; timeRemaining := timeRemaining g; timerInterval := timerInterval g; isMultiplayer :=
     isMultiplayer g; currentPlayer := currentPlayer g; p1Score := p1Score g; p2Score :=
     p2Score g; totalTime := totalTime g; questionsStartTime := questionsStartTime g;
     isMultiplayerRound := isMultiplayerRound g; multiplayerTimer := multiplayerTimer g;
     multiplayerInterval := multiplayerInterval g; isMusicPlaying := isMusicPlaying g |}.
Definition set_streak (v : Z) (g : Globals) : Globals :=
  {| currentOperation := currentOperation g; currentDifficulty := currentDifficulty g; score
     := score g; streak := v; totalAttempts := totalAttempts g; timerActive := timerActive
     g; timeRemaining := timeRemaining g; timerInterval := timerInterval g; isMultiplayer :=
     isMultiplayer g; currentPlayer := currentPlayer g; p1Score := p1Score g; p2Score :=
     p2Score g; totalTime := totalTime g; questionsStartTime := questionsStartTime g;
     isMultiplayerRound := isMultiplayerRound g; multiplayerTimer := multiplayerTimer g;
     multiplayerInterval := multiplayerInterval g; isMusicPlaying := isMusicPlaying g |}.
Definition set_totalAttempts (v : Z) (g : Globals) : Globals :=
  {| currentOperation := currentOperation g; currentDifficulty := currentDifficulty g; score
     := score g; streak := streak g; totalAttempts := v; timerActive := timerActive g;
     timeRemaining := timeRemaining g; timerInterval := timerInterval g; isMultiplayer :=
     isMultiplayer g; currentPlayer := currentPlayer g; p1Score := p1Score g; p2Score :=
     p2Score g; totalTime := totalTime g; questionsStartTime := questionsStartTime g;
     isMultiplayerRound := isMultiplayerRound g; multiplayerTimer := multiplayerTimer g;
     multiplayerInterval := multiplayerInterval g; isMusicPlaying := isMusicPlaying g |}.
Definition set_timerActive (v : bool) (g : Globals) : Globals :=
  {| currentOperation := currentOperation g; currentDifficulty := currentDifficulty g; score
     := score g; streak := streak g; totalAttempts := totalAttempts g; timerActive := v;
     timeRemaining := timeRemaining g; timerInterval := timerInterval g; isMultiplayer :=
     isMultiplayer g; currentPlayer := currentPlayer g; p1Score := p1Score g; p2Score :=
     p2Score g; totalTime := totalTime g; questionsStartTime := questionsStartTime g;
     isMultiplayerRound := isMultiplayerRound g; multiplayerTimer := multiplayerTimer g;
     multiplayerInterval := multiplayerInterval g; isMusicPlaying := isMusicPlaying g |}.
Definition set_timeRemaining (v : Z) (g : Globals) : Globals :=
  {| currentOperation := currentOperation g; currentDifficulty := currentDifficulty g; score
     := score g; streak := streak g; totalAttempts := totalAttempts g; timerActive :=
     timerActive g; timeRemaining := v; timerInterval := timerInterval g; isMultiplayer :=
     isMultiplayer g; currentPlayer := currentPlayer g; p1Score := p1Score g; p2Score :=
     p2Score g; totalTime := totalTime g; questionsStartTime := questionsStartTime g;
     isMultiplayerRound := isMultiplayerRound g; multiplayerTimer := multiplayerTimer g;
     multiplayerInterval := multiplayerInterval g; isMusicPlaying := isMusicPlaying g |}.
Definition set_timerInterval (v : option positive) (g : Globals) : Globals :=
  {| currentOperation := currentOperation g; currentDifficulty := currentDifficulty g; score
     := score g; streak := streak g; totalAttempts := totalAttempts g; timerActive :=
     timerActive g; timeRemaining := timeRemaining g; timerInterval := v; isMultiplayer :=
     isMultiplayer g; currentPlayer := currentPlayer g; p1Score := p1Score g; p2Score :=
     p2Score g; totalTime := totalTime g; questionsStartTime := questionsStartTime g;
     isMultiplayerRound := isMultiplayerRound g; multiplayerTimer := multiplayerTimer g;
     multiplayerInterval := multiplayerInterval g; isMusicPlaying := isMusicPlaying g |}.
Definition set_isMultiplayer (v : bool) (g : Globals) : Globals :=
  {| currentOperation := currentOperation g; currentDifficulty := currentDifficulty g; score
     := score g; streak := streak g; totalAttempts := totalAttempts g; timerActive :=
     timerActive g; timeRemaining := timeRemaining g; timerInterval := timerInterval g;
     isMultiplayer := v; currentPlayer := currentPlayer g; p1Score := p1Score g; p2Score :=
     p2Score g; totalTime := totalTime g; questionsStartTime := questionsStartTime g;
     isMultiplayerRound := isMultiplayerRound g; multiplayerTimer := multiplayerTimer g;
     multiplayerInterval := multiplayerInterval g; isMusicPlaying := isMusicPlaying g |}.
Definition set_currentPlayer (v : Z) (g : Globals) : Globals :=
  {| currentOperation := currentOperation g; currentDifficulty := currentDifficulty g; score
     := score g; streak := streak g; totalAttempts := totalAttempts g; timerActive :=
     timerActive g; timeRemaining := timeRemaining g; timerInterval := timerInterval g;
     isMultiplayer := isMultiplayer g; currentPlayer := v; p1Score := p1Score g; p2Score :=
     p2Score g; totalTime := totalTime g; questionsStartTime := questionsStartTime g;
     isMultiplayerRound := isMultiplayerRound g; multiplayerTimer := multiplayerTimer g;
     multiplayerInterval := multiplayerInterval g; isMusicPlaying := isMusicPlaying g |}.
Definition set_p1Score (v : Z) (g : Globals) : Globals :=
  {| currentOperation := currentOperation g; currentDifficulty := currentDifficulty g; score
     := score g; streak := streak g; totalAttempts := totalAttempts g; timerActive :=
     timerActive g; timeRemaining := timeRemaining g; timerInterval := timerInterval g;
     isMultiplayer := isMultiplayer g; currentPlayer := currentPlayer g; p1Score := v;
     p2Score := p2Score g; totalTime := totalTime g; questionsStartTime :=
     questionsStartTime g; isMultiplayerRound := isMultiplayerRound g; multiplayerTimer :=
     multiplayerTimer g; multiplayerInterval := multiplayerInterval g; isMusicPlaying :=
     isMusicPlaying g |}.
Definition set_p2Score (v : Z) (g : Globals) : Globals :=
  {| currentOperation := currentOperation g; currentDifficulty := currentDifficulty g; score
     := score g; streak := streak g; totalAttempts := totalAttempts g; timerActive :=
     timerActive g; timeRemaining := timeRemaining g; timerInterval := timerInterval g;
     isMultiplayer := isMultiplayer g; currentPlayer := currentPlayer g; p1Score := p1Score
     g; p2Score := v; totalTime := totalTime g; questionsStartTime := questionsStartTime g;
     isMultiplayerRound := isMultiplayerRound g; multiplayerTimer := multiplayerTimer g;
     multiplayerInterval := multiplayerInterval g; isMusicPlaying := isMusicPlaying g |}.
Definition set_totalTime (v : Qc) (g : Globals) : Globals :=
  {| currentOperation := currentOperation g; currentDifficulty := currentDifficulty g; score
     := score g; streak := streak g; totalAttempts := totalAttempts g; timerActive :=
     timerActive g; timeRemaining := timeRemaining g; timerInterval := timerInterval g;
     isMultiplayer := isMultiplayer g; currentPlayer := currentPlayer g; p1Score := p1Score
     g; p2Score := p2Score g; totalTime := v; questionsStartTime := questionsStartTime g;
     isMultiplayerRound := isMultiplayerRound g; multiplayerTimer := multiplayerTimer g;
     multiplayerInterval := multiplayerInterval g; isMusicPlaying := isMusicPlaying g |}.
Definition set_questionsStartTime (v : Z) (g : Globals) : Globals :=
  {| currentOperation := currentOperation g; currentDifficulty := currentDifficulty g; score
     := score g; streak := streak g; totalAttempts := totalAttempts g; timerActive :=
     timerActive g; timeRemaining := timeRemaining g; timerInterval := timerInterval g;
     isMultiplayer := isMultiplayer g; currentPlayer := currentPlayer g; p1Score := p1Score
     g; p2Score := p2Score g; totalTime := totalTime g; questionsStartTime := v;
     isMultiplayerRound := isMultiplayerRound g; multiplayerTimer := multiplayerTimer g;
     multiplayerInterval := multiplayerInterval g; isMusicPlaying := isMusicPlaying g |}.
Definition set_isMultiplayerRound (v : bool) (g : Globals) : Globals :=
  {| currentOperation := currentOperation g; currentDifficulty := currentDifficulty g; score
     := score g; streak := streak g; totalAttempts := totalAttempts g; timerActive :=
     timerActive g; timeRemaining := timeRemaining g; timerInterval := timerInterval g;
     isMultiplayer := isMultiplayer g; currentPlayer := currentPlayer g; p1Score := p1Score
     g; p2Score := p2Score g; totalTime := totalTime g; questionsStartTime :=
     questionsStartTime g; isMultiplayerRound := v; multiplayerTimer := multiplayerTimer g;
     multiplayerInterval := multiplayerInterval g; isMusicPlaying := isMusicPlaying g |}.
Definition set_multiplayerTimer (v : Z) (g : Globals) : Globals :=
  {| currentOperation := currentOperation g; currentDifficulty := currentDifficulty g; score
     := score g; streak := streak g; totalAttempts := totalAttempts g; timerActive :=
     timerActive g; timeRemaining := timeRemaining g; timerInterval := timerInterval g;
     isMultiplayer := isMultiplayer g; currentPlayer := currentPlayer g; p1Score := p1Score
     g; p2Score := p2Score g; totalTime := totalTime g; questionsStartTime :=
     questionsStartTime g; isMultiplayerRound := isMultiplayerRound g; multiplayerTimer :=
     v; multiplayerInterval := multiplayerInterval g; isMusicPlaying := isMusicPlaying g |}.
Definition set_multiplayerInterval (v : option positive) (g : Globals) : Globals :=
  {| currentOperation := currentOperation g; currentDifficulty := currentDifficulty g; score
     := score g; streak := streak g; totalAttempts := totalAttempts g; timerActive :=
     timerActive g; timeRemaining := timeRemaining g; timerInterval := timerInterval g;
     isMultiplayer := isMultiplayer g; currentPlayer := currentPlayer g; p1Score := p1Score
     g; p2Score := p2Score g; totalTime := totalTime g; questionsStartTime :=
     questionsStartTime g; isMultiplayerRound := isMultiplayerRound g; multiplayerTimer :=
     multiplayerTimer g; multiplayerInterval := v; isMusicPlaying := isMusicPlaying g |}.
Definition set_isMusicPlaying (v : bool) (g : Globals) : Globals :=
  {| currentOperation := currentOperation g; currentDifficulty := currentDifficulty g; score
     := score g; streak := streak g; totalAttempts := totalAttempts g; timerActive :=
     timerActive g; timeRemaining := timeRemaining g; timerInterval := timerInterval g;
     isMultiplayer := isMultiplayer g; currentPlayer := currentPlayer g; p1Score := p1Score
     g; p2Score := p2Score g; totalTime := totalTime g; questionsStartTime :=
     questionsStartTime g; isMultiplayerRound := isMultiplayerRound g; multiplayerTimer :=
     multiplayerTimer g; multiplayerInterval := multiplayerInterval g; isMusicPlaying := v
     |}.

(** ** The page elements the script writes *)

Record Dom := {
  problem : option ProblemText;
  options : list OptionButton;
  scoreText : string;
  streakText : string;
  accuracyText : string;
  winnerAnnouncement : option Announcement;
  announcementShown : bool;
  notifications : list Notification;
  leaderboardEntries : option (list Row);
  location : option string
}.

Definition set_problem (v : option ProblemText) (d : Dom) : Dom :=
  {| problem := v; options := options d; scoreText := scoreText d; streakText := streakText
     d; accuracyText := accuracyText d; winnerAnnouncement := winnerAnnouncement d;
     announcementShown := announcementShown d; notifications := notifications d;
     leaderboardEntries := leaderboardEntries d; location := location d |}.
Definition set_options (v : list OptionButton) (d : Dom) : Dom :=
  {| problem := problem d; options := v; scoreText := scoreText d; streakText := streakText
     d; accuracyText := accuracyText d; winnerAnnouncement := winnerAnnouncement d;
     announcementShown := announcementShown d; notifications := notifications d;
     leaderboardEntries := leaderboardEntries d; location := location d |}.
Definition set_scoreText (v : string) (d : Dom) : Dom :=
  {| problem := problem d; options := options d; scoreText := v; streakText := streakText d;
     accuracyText := accuracyText d; winnerAnnouncement := winnerAnnouncement d;
     announcementShown := announcementShown d; notifications := notifications d;
     leaderboardEntries := leaderboardEntries d; location := location d |}.
Definition set_streakText (v : string) (d : Dom) : Dom :=
  {| problem := problem d; options := options d; scoreText := scoreText d; streakText := v;
     accuracyText := accuracyText d; winnerAnnouncement := winnerAnnouncement d;
     announcementShown := announcementShown d; notifications := notifications d;
     leaderboardEntries := leaderboardEntries d; location := location d |}.
Definition set_accuracyText (v : string) (d : Dom) : Dom :=
  {| problem := problem d; options := options d; scoreText := scoreText d; streakText :=
     streakText d; accuracyText := v; winnerAnnouncement := winnerAnnouncement d;
     announcementShown := announcementShown d; notifications := notifications d;
     leaderboardEntries := leaderboardEntries d; location := location d |}.
Definition set_winnerAnnouncement (v : option Announcement) (d : Dom) : Dom :=
  {| problem := problem d; options := options d; scoreText := scoreText d; streakText :=
     streakText d; accuracyText := accuracyText d; winnerAnnouncement := v;
     announcementShown := announcementShown d; notifications := notifications d;
     leaderboardEntries := leaderboardEntries d; location := location d |}.
Definition set_announcementShown (v : bool) (d : Dom) : Dom :=
  {| problem := problem d; options := options d; scoreText := scoreText d; streakText :=
     streakText d; accuracyText := accuracyText d; winnerAnnouncement := winnerAnnouncement
     d; announcementShown := v; notifications := notifications d; leaderboardEntries :=
     leaderboardEntries d; location := location d |}.
Definition set_notifications (v : list Notification) (d : Dom) : Dom :=
  {| problem := problem d; options := options d; scoreText := scoreText d; streakText :=
     streakText d; accuracyText := accuracyText d; winnerAnnouncement := winnerAnnouncement
     d; announcementShown := announcementShown d; notifications := v; leaderboardEntries :=
     leaderboardEntries d; location := location d |}.
Definition set_leaderboardEntries (v : option (list Row)) (d : Dom) : Dom :=
  {| problem := problem d; options := options d; scoreText := scoreText d; streakText :=
     streakText d; accuracyText := accuracyText d; winnerAnnouncement := winnerAnnouncement
     d; announcementShown := announcementShown d; notifications := notifications d;
     leaderboardEntries := v; location := location d |}.
Definition set_location (v : option string) (d : Dom) : Dom :=
  {| problem := problem d; options := options d; scoreText := scoreText d; streakText :=
     streakText d; accuracyText := accuracyText d; winnerAnnouncement := winnerAnnouncement
     d; announcementShown := announcementShown d; notifications := notifications d;
     leaderboardEntries := leaderboardEntries d; location := v |}.

(** ** The whole state: variables, page, the achievements object, and the
    runtime (storage, the timer table, and the two oracles that answer
    [Math.random()] and [Date.now()]: the n-th call returns the n-th
    element). *)

Record State := {
  vars : Globals;
  document : Dom;
  achievements : Achievements;
  localStorage : gmap string string;
  pending : list Timer;
  nextTimerId : positive;
  random : nat -> Qc;
  randomCalls : nat;
  clock : nat -> Z;
  clockCalls : nat
}.

Definition set_vars (v : Globals) (st : State) : State :=
  {| vars := v; document := document st; achievements := achievements st; localStorage :=
     localStorage st; pending := pending st; nextTimerId := nextTimerId st; random := random
     st; randomCalls := randomCalls st; clock := clock st; clockCalls := clockCalls st |}.
Definition set_document (v : Dom) (st : State) : State :=
  {| vars := vars st; document := v; achievements := achievements st; localStorage :=
     localStorage st; pending := pending st; nextTimerId := nextTimerId st; random := random
     st; randomCalls := randomCalls st; clock := clock st; clockCalls := clockCalls st |}.
Definition set_localStorage (v : gmap string string) (st : State) : State :=
  {| vars := vars st; document := document st; achievements := achievements st; localStorage
     := v; pending := pending st; nextTimerId := nextTimerId st; random := random st;
     randomCalls := randomCalls st; clock := clock st; clockCalls := clockCalls st |}.
Definition set_pending (v : list Timer) (st : State) : State :=
  {| vars := vars st; document := document st; achievements := achievements st; localStorage
     := localStorage st; pending := v; nextTimerId := nextTimerId st; random := random st;
     randomCalls := randomCalls st; clock := clock st; clockCalls := clockCalls st |}.
Definition set_nextTimerId (v : positive) (st : State) : State :=
  {| vars := vars st; document := document st; achievements := achievements st; localStorage
     := localStorage st; pending := pending st; nextTimerId := v; random := random st;
     randomCalls := randomCalls st; clock := clock st; clockCalls := clockCalls st |}.
Definition set_randomCalls (v : nat) (st : State) : State :=
  {| vars := vars st; document := document st; achievements := achievements st; localStorage
     := localStorage st; pending := pending st; nextTimerId := nextTimerId st; random :=
     random st; randomCalls := v; clock := clock st; clockCalls := clockCalls st |}.
Definition set_clockCalls (v : nat) (st : State) : State :=
  {| vars := vars st; document := document st; achievements := achievements st; localStorage
     := localStorage st; pending := pending st; nextTimerId := nextTimerId st; random :=
     random st; randomCalls := randomCalls st; clock := clock st; clockCalls := v |}.

(** ** What the JavaScript engine contributes

    Two library calls have behaviour the script does not determine:
    [JSON.parse]/[JSON.stringify] on the leaderboard value, and
    [options.sort(() => Math.random() - 0.5)], whose comparator is not
    consistent, so that the order produced and the number of comparisons
    made are the engine's choice.  They are the methods of a class; the laws
    are those every engine satisfies.

    [JSON_parse s = None] stands for [JSON.parse(s)] throwing a SyntaxError.
    The model covers leaderboard values that are either malformed or an
    array of [{name, score}] objects with integer scores, which is what the
    script itself writes. *)

Class Engine := {
  JSON_parse : string -> option (list Entry.t);
  JSON_stringify : list Entry.t -> string;
  (* the shuffled array and the number of [Math.random()] calls made, given
     the oracle and the number of calls made so far *)
  sort_random : list number -> (nat -> Qc) -> nat -> list number * nat;
  JSON_parse_stringify : forall l, JSON_parse (JSON_stringify l) = Some l;
  JSON_parse_empty : JSON_parse "[]" = Some [];
  JSON_stringify_nonempty : forall l, JSON_stringify l <> "";
  sort_random_Permutation : forall l rnd n, (sort_random l rnd n).1 ≡ₚ l
}.

(** ** The monad: state, exceptions, and a step budget for the one
    unbounded loop of the script *)

Inductive Exn := SyntaxError.

Inductive result (A : Type) :=
| Ok (a : A) (st : State)
| Throw (e : Exn) (st : State)
| Timeout.

Arguments Ok {A} a st.
Arguments Throw {A} e st.
Arguments Timeout {A}.

Definition M (A : Type) : Type := State -> result A.

Global Instance M_ret : MRet M := fun A a st => Ok a st.

Global Instance M_bind : MBind M := fun A B f m st =>
  match m st with
  | Ok a st' => f a st'
  | Throw e st' => Throw e st'
  | Timeout => Timeout
  end.

Definition gets {A} (f : State -> A) : M A := fun st => Ok (f st) st.
Definition modify (f : State -> State) : M unit := fun st => Ok tt (f st).
Definition throw {A} (e : Exn) : M A := fun st => Throw e st.
Definition timeout {A} : M A := fun _ => Timeout.

(** Reading and assigning a global variable, writing a page element. *)
Definition var {A} (f : Globals -> A) : M A := gets (fun st => f (vars st)).
Definition assign (f : Globals -> Globals) : M unit :=
  modify (fun st => set_vars (f (vars st)) st).
Definition render (f : Dom -> Dom) : M unit :=
  modify (fun st => set_document (f (document st)) st).

(** [array.forEach(f)] *)
Fixpoint forEach {A} (l : list A) (f : A -> M unit) : M unit :=
  match l with
  | [] => mret tt
  | a :: l' => f a ;; forEach l' f
  end.

(** *** Runtime services *)

Definition Math_random : M Qc := fun st =>
  Ok (random st (randomCalls st)) (set_randomCalls (S (randomCalls st)) st).

Definition Date_now : M Z := fun st =>
  Ok (clock st (clockCalls st)) (set_clockCalls (S (clockCalls st)) st).

Definition getItem (key : string) : M (option string) :=
  gets (fun st => localStorage st !! key).

Definition setItem (key value : string) : M unit :=
  modify (fun st => set_localStorage (<[key := value]> (localStorage st)) st).

(** [s || fallback] for a string that may be [null]: the empty string is
    falsy too. *)
Definition or_else (s : option string) (fallback : string) : string :=
  match s with
  | Some v => if decide (v = "") then fallback else v
  | None => fallback
  end.

Definition register (repeats : bool) (cb : Callback) : M positive := fun st =>
  let id := nextTimerId st in
  Ok id (set_nextTimerId (Pos.succ id)
           (set_pending (pending st ++
              [{| timer_id := id; timer_repeats := repeats; timer_callback := cb |}]) st)).

Definition setInterval (cb : Callback) : M positive := register true cb.
Definition setTimeout (cb : Callback) : M positive := register false cb.

Definition cancel (id : positive) (l : list Timer) : list Timer :=
  filter (fun t => timer_id t <> id) l.

(** [clearInterval(h)]; [h] is [None] while the variable is [undefined].
    Timer handles are positive integers, hence truthy. *)
Definition clearInterval (h : option positive) : M unit :=
  match h with
  | Some id => modify (fun st => set_pending (cancel id (pending st)) st)
  | None => mret tt
  end.

(** ** The functions of game.js *)

Section Game.
Context {engine : Engine}.

(** [disableOptions(disable)] *)
Definition disableOptions (disable : bool) : M unit :=
  render (fun d =>
    set_options
      (map (fun b => {| button_option := button_option b; button_correct := button_correct b;
                        button_disabled := disable |}) (options d)) d).

(** The two constants computed by [updateReportData]. *)
Definition accuracyPercentage (g : Globals) : rounded :=
  if decide (totalAttempts g > 0)
  then Math_round (js_mul (js_div (of_Z (score g)) (of_Z (totalAttempts g))) (of_Z 100))
  else RInt 0.

Definition avgTime (g : Globals) : rounded :=
  if decide (totalAttempts g > 0)
  then Math_round (js_div (Fin (totalTime g)) (of_Z (totalAttempts g)))
  else RInt 0.

(** [updateReportData()] *)
Definition updateReportData : M unit :=
  g ← var id;
  setItem "accuracy" (show_rounded (accuracyPercentage g) +:+ "%") ;;
  setItem "questionsSolved" (show_Z (totalAttempts g)) ;;
  setItem "avgTime" (show_rounded (avgTime g) +:+ "s").

(** [generateNumber()] *)
Definition generateNumber : M Z :=
  range ← var (fun g => difficultyRanges (currentDifficulty g));
  r ← Math_random;
  mret (Math_floor (r * Qc_of_Z (range_max range - range_min range + 1))%Qc
        + range_min range).

(** [getOperationSymbol()] *)
Definition getOperationSymbol (op : Operation) : string :=
  match op with
  | addition => "+"
  | subtraction => "-"
  | multiplication => "×"
  | division => "÷"
  end.

(** [calculateAnswer(num1, num2)] *)
Definition calculateAnswer (op : Operation) (num1 num2 : Z) : number :=
  match op with
  | addition => of_Z (num1 + num2)
  | subtraction => of_Z (num1 - num2)
  | multiplication => of_Z (num1 * num2)
  | division => js_div (of_Z num1) (of_Z num2)
  end.

(** The [while (options.length < 4)] loop of [generateOptions]; each turn
    of the loop costs one unit of [fuel]. *)
Fixpoint generateOptions_loop (fuel : nat) (correctAnswer : number) (options : list number)
  : M (list number) :=
  if decide (length options < 4)%nat then
    match fuel with
    | O => timeout
    | S fuel' =>
        r ← Math_random;
        let offset := Math_floor (r * Qc_of_Z 5)%Qc + 1 in
        s ← Math_random;
        let newOption :=
          if decide (s < Q2Qc (1 # 2))%Qc
          then js_add correctAnswer (of_Z offset)
          else js_sub correctAnswer (of_Z offset) in
        generateOptions_loop fuel' correctAnswer
          (if includes options newOption then options else options ++ [newOption])
    end
  else mret options.

(** The button [generateOptions] creates for one option: its label, and
    [onclick = () => checkAnswer(option, correctAnswer)]. *)
Definition optionButton (correctAnswer option : number) : OptionButton :=
  {| button_option := option; button_correct := correctAnswer; button_disabled := false |}.

(** [options.sort(() => Math.random() - 0.5)] *)
Definition shuffleOptions (options : list number) : M (list number) := fun st =>
  let '(shuffled, calls) := sort_random options (random st) (randomCalls st) in
  Ok shuffled (set_randomCalls (randomCalls st + calls)%nat st).

(** [generateOptions(correctAnswer)] *)
Definition generateOptions (fuel : nat) (correctAnswer : number) : M unit :=
  options ← generateOptions_loop fuel correctAnswer [correctAnswer];
  shuffled ← shuffleOptions options;
  render (set_options (map (optionButton correctAnswer) shuffled)).

(** [generateNewProblem()] *)
Definition generateNewProblem (fuel : nat) : M unit :=
  num1 ← generateNumber;
  num2 ← generateNumber;
  op ← var currentOperation;
  let '(num1, symbol, answer) :=
    if decide (op = division)
    then (num1 * num2, "÷", js_div (of_Z (num1 * num2)) (of_Z num2))
    else (num1, getOperationSymbol op, calculateAnswer op num1 num2) in
  render (set_problem
    (Some {| shown_num1 := num1; shown_symbol := symbol; shown_num2 := num2 |})) ;;
  generateOptions fuel answer ;;
  now ← Date_now;
  assign (set_questionsStartTime now).

(** [setOperation(operation)] *)
Definition setOperation (fuel : nat) (operation : Operation) : M unit :=
  assign (set_currentOperation operation) ;;
  generateNewProblem fuel.

(** [setDifficulty(difficulty)] *)
Definition setDifficulty (fuel : nat) (difficulty : Difficulty) : M unit :=
  assign (set_currentDifficulty difficulty) ;;
  generateNewProblem fuel.

(** The percentage [updateStats] prints: the same expression as in
    [updateReportData], without the guard. *)
Definition shownAccuracy (g : Globals) : rounded :=
  Math_round (js_mul (js_div (of_Z (score g)) (of_Z (totalAttempts g))) (of_Z 100)).

(** [updateStats()] *)
Definition updateStats : M unit :=
  g ← var id;
  render (set_scoreText (show_Z (score g))) ;;
  render (set_streakText (show_Z (streak g))) ;;
  render (set_accuracyText (show_rounded (shownAccuracy g) +:+ "%")).

(** [awardAchievement(achievement)]: reads the name and the description,
    appends the notification; it assigns nothing. *)
Definition awardAchievement (name description : string) : M unit :=
  render (fun d =>
    set_notifications
      (notifications d ++ [{| note_name := name; note_description := description |}]) d).

(** [!achievement.awarded] *)
Definition not_awarded (awarded : option bool) : bool :=
  match awarded with
  | Some true => false
  | _ => true
  end.

(** [checkAchievements()] *)
Definition checkAchievements : M unit :=
  table ← gets achievements;
  forEach (streaks table) (fun achievement =>
    streak ← var streak;
    if decide (streak = streak_requirement achievement)
    then awardAchievement (streak_name achievement) (streak_description achievement)
    else mret tt) ;;
  forEach (accuracies table) (fun achievement =>
    g ← var id;
    if not_awarded (accuracy_awarded achievement)
       && bool_decide (totalAttempts g = questions (accuracy_requirement achievement))
       && strict_eq (js_mul (js_div (of_Z (score g)) (of_Z (totalAttempts g))) (of_Z 100))
                    (of_Z (accuracy (accuracy_requirement achievement)))
    then awardAchievement (accuracy_name achievement) (accuracy_description achievement)
    else mret tt).

(** [checkAnswer(selected, correct)]; the sounds and [showFeedback] only
    decorate the page. *)
Definition checkAnswer (fuel : nat) (selected correct : number) : M unit :=
  let isCorrect := strict_eq selected correct in
  assign (fun g => set_totalAttempts (totalAttempts g + 1) g) ;;
  now ← Date_now;
  start ← var questionsStartTime;
  let timeForQuestion := (Qc_of_Z (now - start) / Qc_of_Z 1000)%Qc in
  assign (fun g => set_totalTime (totalTime g + timeForQuestion)%Qc g) ;;
  (if isCorrect then
     assign (fun g => set_score (score g + 1) g) ;;
     assign (fun g => set_streak (streak g + 1) g) ;;
     inRound ← var isMultiplayerRound;
     if (inRound : bool) then
       player ← var currentPlayer;
       if decide (player = 1)
       then assign (fun g => set_p1Score (p1Score g + 1) g)
       else assign (fun g => set_p2Score (p2Score g + 1) g)
     else mret tt
   else
     assign (set_streak 0)) ;;
  updateStats ;;
  checkAchievements ;;
  updateReportData ;;
  generateNewProblem fuel.

(** [leaderboard.sort((a, b) => b.score - a.score)].  The comparator is
    consistent, so the result is the one stable descending arrangement:
    each element in turn goes behind every element that must not follow
    it. *)
Fixpoint insert_entry (e : Entry.t) (sorted : list Entry.t) : list Entry.t :=
  match sorted with
  | [] => [e]
  | x :: rest =>
      if decide (Entry.score e <= Entry.score x)
      then x :: insert_entry e rest
      else e :: x :: rest
  end.

Definition sort_by_score (l : list Entry.t) : list Entry.t :=
  foldl (fun sorted e => insert_entry e sorted) [] l.

(** [JSON.parse(localStorage.getItem('leaderboard') || '[]')] *)
Definition loadLeaderboard : M (list Entry.t) :=
  stored ← getItem "leaderboard";
  match JSON_parse (or_else stored "[]") with
  | Some leaderboard => mret leaderboard
  | None => throw SyntaxError
  end.

(** [updateLeaderboard(playerName, score)]; [playerName] is [None] for
    [null]. *)
Definition updateLeaderboard (playerName : option string) (score : Z) : M unit :=
  current ← getItem "currentPlayer";
  let playerName :=
    match playerName with
    | Some n => if decide (n = "") then or_else current "Anonymous" else n
    | None => or_else current "Anonymous"
    end in
  leaderboard ← loadLeaderboard;
  let leaderboard := leaderboard ++ [{| Entry.name := playerName; Entry.score := score |}] in
  let leaderboard := sort_by_score leaderboard in
  let leaderboard := take 5 leaderboard in
  setItem "leaderboard" (JSON_stringify leaderboard).

(** The [while (container.children.length < 5)] loop: it runs once for each
    missing row. *)
Fixpoint fillEmptySlots (missing : nat) (rows : list Row) : list Row :=
  match missing with
  | O => rows
  | S missing' => fillEmptySlots missing' (rows ++ [EmptyRow (Z.of_nat (length rows) + 1)])
  end.

Definition leaderboardRows (leaderboard : list Entry.t) : list Row :=
  let rows := imap (fun index entry =>
                EntryRow (Z.of_nat index + 1) (Entry.name entry) (Entry.score entry))
              leaderboard in
  fillEmptySlots (5 - length rows) rows.

(** [displayLeaderboard()]: the stored value is parsed before the container
    is looked up. *)
Definition displayLeaderboard : M unit :=
  leaderboard ← loadLeaderboard;
  container ← gets (fun st => leaderboardEntries (document st));
  match container with
  | None => mret tt
  | Some _ => render (set_leaderboardEntries (Some (leaderboardRows leaderboard)))
  end.

(** The leaderboard part of the first [DOMContentLoaded] listener; here
    the value is parsed only when the container exists.  (The start-page
    part of that listener reads a text input and is not modelled.) *)
Definition leaderboardPageLoaded : M unit :=
  container ← gets (fun st => leaderboardEntries (document st));
  match container with
  | None => mret tt
  | Some _ =>
      leaderboard ← loadLeaderboard;
      render (set_leaderboardEntries (Some (leaderboardRows leaderboard)))
  end.

(** [resetGame()]; [updateMultiplayerScores()] only rewrites two labels. *)
Definition resetGame (fuel : nat) : M unit :=
  assign (set_score 0) ;;
  assign (set_streak 0) ;;
  assign (set_totalAttempts 0) ;;
  assign (set_p1Score 0) ;;
  assign (set_p2Score 0) ;;
  assign (set_currentPlayer 1) ;;
  assign (set_totalTime 0%Qc) ;;
  assign (set_isMultiplayerRound false) ;;
  h ← var multiplayerInterval;
  clearInterval h ;;
  updateStats ;;
  updateReportData ;;
  generateNewProblem fuel.

(** [showTimerEndMessage()] *)
Definition showTimerEndMessage : M unit :=
  playerName ← getItem "currentPlayer";
  score ← var score;
  updateLeaderboard playerName score ;;
  render (set_winnerAnnouncement (Some (GreatEffort playerName score))) ;;
  render (set_announcementShown true) ;;
  setTimeout TimerEndHide ;;
  mret tt.

(** [toggleTimer()] *)
Definition toggleTimer : M unit :=
  assign (fun g => set_timerActive (negb (timerActive g)) g) ;;
  active ← var timerActive;
  if (active : bool) then
    assign (set_score 0) ;;
    assign (set_timeRemaining 30) ;;
    id ← setInterval TimerTick;
    assign (set_timerInterval (Some id))
  else
    h ← var timerInterval;
    clearInterval h.

(** The callback [toggleTimer] hands to [setInterval]. *)
Definition timerTick (fuel : nat) : M unit :=
  assign (fun g => set_timeRemaining (timeRemaining g - 1) g) ;;
  remaining ← var timeRemaining;
  if decide (remaining <= 0) then
    h ← var timerInterval;
    clearInterval h ;;
    showTimerEndMessage ;;
    resetGame fuel
  else mret tt.

(** The callback of [showTimerEndMessage]: the banner goes and the window
    is sent to the leaderboard page, which ends this page and its timers. *)
Definition timerEndHide : M unit :=
  render (set_announcementShown false) ;;
  render (set_location (Some "leaderboard.html")) ;;
  modify (set_pending []).

(** [startPlayerTurn()] *)
Definition startPlayerTurn : M unit :=
  assign (set_multiplayerTimer 15) ;;
  assign (set_isMultiplayerRound true) ;;
  id ← setInterval PlayerTurnTick;
  assign (set_multiplayerInterval (Some id)).

(** [showNumber()], the inner function of [showCountdown]; [i] is the
    counter of the enclosing call, [callback] is always
    [() => startPlayerTurn()]. *)
Definition showNumber (i : nat) : M unit :=
  if decide (i < 4)%nat then
    setTimeout (CountdownHide (S i)) ;;
    mret tt
  else
    disableOptions false ;;
    startPlayerTurn.

(** [showCountdown(callback)] *)
Definition showCountdown : M unit :=
  disableOptions true ;;
  showNumber 0.

(** [startMultiplayerRound()] *)
Definition startMultiplayerRound (fuel : nat) : M unit :=
  resetGame fuel ;;
  assign (set_currentPlayer 1) ;;
  assign (set_p1Score 0) ;;
  assign (set_p2Score 0) ;;
  showCountdown.

(** [toggleMultiplayer()] *)
Definition toggleMultiplayer (fuel : nat) : M unit :=
  assign (fun g => set_isMultiplayer (negb (isMultiplayer g)) g) ;;
  multi ← var isMultiplayer;
  if (multi : bool) then
    startMultiplayerRound fuel
  else
    h ← var multiplayerInterval;
    clearInterval h ;;
    resetGame fuel.

(** [confetti.start()]: [createParticles()] calls [Math.random()] eight
    times for each of the 150 particles.  The particles are decoration; the
    draws they use up are not, since the next problem is made from the draws
    that follow. *)
Definition confetti_start : M unit :=
  modify (fun st => set_randomCalls (randomCalls st + 150 * 8) st).

(** [announceWinner()] *)
Definition announceWinner : M unit :=
  g ← var id;
  let message :=
    if decide (p1Score g > p2Score g) then PlayerWins 1 (p1Score g) (p2Score g)
    else if decide (p2Score g > p1Score g) then PlayerWins 2 (p2Score g) (p1Score g)
    else Tie (p1Score g) (p2Score g) in
  render (set_winnerAnnouncement (Some message)) ;;
  render (set_announcementShown true) ;;
  (if decide (p1Score g <> p2Score g) then confetti_start else mret tt) ;;
  setTimeout WinnerCleanup ;;
  mret tt.

(** The callback of [announceWinner]. *)
Definition winnerCleanup (fuel : nat) : M unit :=
  render (set_announcementShown false) ;;
  assign (set_isMultiplayer false) ;;
  resetGame fuel.

(** [handleTurnEnd()] *)
Definition handleTurnEnd : M unit :=
  player ← var currentPlayer;
  if decide (player = 1) then
    assign (set_currentPlayer 2) ;;
    render (set_winnerAnnouncement (Some PlayerOneDone)) ;;
    render (set_announcementShown true) ;;
    disableOptions true ;;
    setTimeout TurnEndHide ;;
    mret tt
  else announceWinner.

(** The callback [startPlayerTurn] hands to [setInterval]. *)
Definition playerTurnTick : M unit :=
  assign (fun g => set_multiplayerTimer (multiplayerTimer g - 1) g) ;;
  remaining ← var multiplayerTimer;
  if decide (remaining <= 0) then
    h ← var multiplayerInterval;
    clearInterval h ;;
    handleTurnEnd
  else mret tt.

(** [toggleMusic()] *)
Definition toggleMusic : M unit :=
  assign (fun g => set_isMusicPlaying (negb (isMusicPlaying g)) g).

(** ** The event loop *)

Definition runCallback (fuel : nat) (cb : Callback) : M unit :=
  match cb with
  | TimerTick => timerTick fuel
  | TimerEndHide => timerEndHide
  | PlayerTurnTick => playerTurnTick
  | CountdownHide i => setTimeout (CountdownShow i) ;; mret tt
  | CountdownShow i => showNumber i
  | TurnEndHide =>
      render (set_announcementShown false) ;;
      setTimeout TurnEndCountdown ;;
      mret tt
  | TurnEndCountdown => showCountdown
  | WinnerCleanup => winnerCleanup fuel
  end.

Inductive Event :=
| ClickOption (index : nat)
| ClickOperation (operation : Operation)
| ClickDifficulty (difficulty : Difficulty)
| ClickTimer
| ClickMultiplayer
| ClickMusic
| TimerFires (id : positive)
| ContentLoaded        (* the first DOMContentLoaded listener *)
| ContentLoaded'.      (* the second one: displayLeaderboard() *)

(** A pending timer fires: a timeout leaves the table first, an interval
    stays. *)
Definition fire (fuel : nat) (id : positive) : M unit :=
  timers ← gets pending;
  match find (fun t => bool_decide (timer_id t = id)) timers with
  | None => mret tt
  | Some t =>
      (if timer_repeats t then mret tt
       else modify (fun st => set_pending (cancel id (pending st)) st)) ;;
      runCallback fuel (timer_callback t)
  end.

(** An option button is clicked; a disabled button does not react. *)
Definition clickOption (fuel : nat) (index : nat) : M unit :=
  buttons ← gets (fun st => options (document st));
  match buttons !! index with
  | Some b =>
      if button_disabled b then mret tt
      else checkAnswer fuel (button_option b) (button_correct b)
  | None => mret tt
  end.

(** One turn of the event loop.  Once the window has been sent elsewhere
    the page is gone and nothing reaches it. *)
Definition handle (fuel : nat) (ev : Event) : M unit :=
  gone ← gets (fun st => location (document st));
  match gone with
  | Some _ => mret tt
  | None =>
      match ev with
      | ClickOption index => clickOption fuel index
      | ClickOperation operation => setOperation fuel operation
      | ClickDifficulty difficulty => setDifficulty fuel difficulty
      | ClickTimer => toggleTimer
      | ClickMultiplayer => toggleMultiplayer fuel
      | ClickMusic => toggleMusic
      | TimerFires id => fire fuel id
      | ContentLoaded => leaderboardPageLoaded
      | ContentLoaded' => displayLeaderboard
      end
  end.

(** An uncaught exception ends the listener that raised it, not the page:
    the event loop goes on from the state the listener left. *)
Definition after (r : result unit) : option State :=
  match r with
  | Ok _ st | Throw _ st => Some st
  | Timeout => None
  end.

Fixpoint run (fuel : nat) (evs : list Event) (st : State) : option State :=
  match evs with
  | [] => Some st
  | ev :: evs' =>
      match after (handle fuel ev st) with
      | Some st' => run fuel evs' st'
      | None => None
      end
  end.

End Game.

(** ** A reference engine

    A concrete engine to run the script on concrete inputs: the JSON
    fragment the script writes (an array of [{"name":...,"score":...}]
    objects, no white space, quote and backslash escaped), and an insertion
    sort that asks the comparator [() => Math.random() - 0.5] where each
    element goes. *)

Module Reference.

Definition quote : ascii := ascii_of_nat 34.
Definition backslash : ascii := ascii_of_nat 92.

Definition is_digit (c : ascii) : bool :=
  let n := nat_of_ascii c in (48 <=? n)%nat && (n <=? 57)%nat.

(** Printers take the text that follows as a second argument. *)
Fixpoint put_chars (s : string) (k : string) : string :=
  match s with
  | EmptyString => k
  | String c s' =>
      if bool_decide (c = quote) || bool_decide (c = backslash)
      then String backslash (String c (put_chars s' k))
      else String c (put_chars s' k)
  end.

Definition put_string (s : string) (k : string) : string :=
  String quote (put_chars s (String quote k)).

Definition name_key : string := String "{" (String quote ("name" +:+ String quote ":")).
Definition score_key : string := String "," (String quote ("score" +:+ String quote ":")).

Definition put_entry (e : Entry.t) (k : string) : string :=
  name_key +:+ put_string (Entry.name e) (score_key +:+ show_Z (Entry.score e) +:+ String "}" k).

Fixpoint put_entries (l : list Entry.t) : string :=
  match l with
  | [] => "]"
  | [e] => put_entry e "]"
  | e :: l' => put_entry e (String "," (put_entries l'))
  end.

Definition stringify (l : list Entry.t) : string := String "[" (put_entries l).

(** Readers return the value and the text that follows. *)
Fixpoint strip (prefix s : string) : option string :=
  match prefix, s with
  | EmptyString, _ => Some s
  | String c p', String d s' => if bool_decide (c = d) then strip p' s' else None
  | String _ _, EmptyString => None
  end.

Fixpoint get_chars (s : string) : option (string * string) :=
  match s with
  | EmptyString => None
  | String c s' =>
      if bool_decide (c = quote) then Some (EmptyString, s')
      else if bool_decide (c = backslash) then
        match s' with
        | String d s'' =>
            if bool_decide (d = quote) || bool_decide (d = backslash)
            then '(x, k) ← get_chars s''; Some (String d x, k)
            else None
        | EmptyString => None
        end
      else '(x, k) ← get_chars s'; Some (String c x, k)
  end.

Definition get_string (s : string) : option (string * string) :=
  match s with
  | String c s' => if bool_decide (c = quote) then get_chars s' else None
  | EmptyString => None
  end.

Fixpoint span_digits (s : string) : string * string :=
  match s with
  | String c s' =>
      if is_digit c then let '(x, k) := span_digits s' in (String c x, k)
      else (EmptyString, s)
  | EmptyString => (EmptyString, EmptyString)
  end.

Definition get_number (s : string) : option (Z * string) :=
  let '(x, k) :=
    match s with
    | String "-" s' => let '(x, k) := span_digits s' in (String "-" x, k)
    | _ => span_digits s
    end in
  d ← NilZero.int_of_string x;
  if decide (show_Z (Z.of_int d) = x) then Some (Z.of_int d, k) else None.

Definition get_entry (s : string) : option (Entry.t * string) :=
  s ← strip name_key s;
  '(n, s) ← get_string s;
  s ← strip score_key s;
  '(z, s) ← get_number s;
  s ← strip "}" s;
  Some ({| Entry.name := n; Entry.score := z |}, s).

Fixpoint get_entries (fuel : nat) (s : string) : option (list Entry.t) :=
  match fuel with
  | O => None
  | S fuel' =>
      '(e, k) ← get_entry s;
      match k with
      | String "]" EmptyString => Some [e]
      | String "," k' => l ← get_entries fuel' k'; Some (e :: l)
      | _ => None
      end
  end.

Definition parse (s : string) : option (list Entry.t) :=
  match s with
  | String "[" (String "]" EmptyString) => Some []
  | String "[" k => get_entries (String.length k) k
  | _ => None
  end.

(** The comparator says "first argument first" when its draw is below one
    half. *)
Fixpoint shuffle_insert (x : number) (l : list number) (rnd : nat -> Qc) (n : nat)
  : list number * nat :=
  match l with
  | [] => ([x], O)
  | y :: l' =>
      if decide (rnd n - Q2Qc (1 # 2) < 0)%Qc then (x :: y :: l', 1%nat)
      else let '(r, calls) := shuffle_insert x l' rnd (S n) in (y :: r, S calls)
  end.

Fixpoint shuffle (l : list number) (rnd : nat -> Qc) (n : nat) : list number * nat :=
  match l with
  | [] => ([], O)
  | x :: l' =>
      let '(r, calls) := shuffle l' rnd n in
      let '(r', calls') := shuffle_insert x r rnd (n + calls) in
      (r', (calls + calls')%nat)
  end.

Definition bo : Entry.t := {| Entry.name := "Bo"; Entry.score := 90 |}.
Definition cy : Entry.t := {| Entry.name := "Cy"; Entry.score := -3 |}.

Example parse_stringify_two : parse (stringify [bo; cy]) = Some [bo; cy].
Proof. reflexivity. Qed.

Example parse_rejects : parse "[{oops" = None.
Proof. reflexivity. Qed.

End Reference.

(** * Properties *)

(** ** The reference engine satisfies the laws *)

Module ReferenceFacts.
Import Reference.

Lemma strip_append (p s : string) : strip p (p +:+ s) = Some s.
Proof.
  induction p as [|c p IH]; simpl; [done|].
  by rewrite bool_decide_eq_true_2.
Qed.

Lemma get_put_chars (s k : string) : get_chars (put_chars s (String quote k)) = Some (s, k).
Proof.
  induction s as [|c s IH]; simpl.
  - reflexivity.
  - destruct (bool_decide (c = quote)) eqn:Hq; simpl.
    + rewrite Hq. simpl. by rewrite IH.
    + destruct (bool_decide (c = backslash)) eqn:Hb; simpl.
      * rewrite Hq, Hb. simpl. by rewrite IH.
      * rewrite Hq, Hb. by rewrite IH.
Qed.

Lemma get_put_string (s k : string) : get_string (put_string s k) = Some (s, k).
Proof.
  unfold get_string, put_string. rewrite bool_decide_eq_true_2 by done.
  apply get_put_chars.
Qed.

Lemma span_digits_uint (d : Decimal.uint) (c : ascii) (k : string) :
  is_digit c = false ->
  span_digits (NilEmpty.string_of_uint d +:+ String c k)
  = (NilEmpty.string_of_uint d, String c k).
Proof.
  intros Hc. induction d; simpl; rewrite ?IHd; try done.
  by rewrite Hc.
Qed.

Lemma span_digits_nat (d : Decimal.uint) (c : ascii) (k : string) :
  is_digit c = false ->
  span_digits (NilZero.string_of_uint d +:+ String c k)
  = (NilZero.string_of_uint d, String c k).
Proof.
  intros Hc. destruct d; try apply (span_digits_uint _ _ _ Hc).
  simpl. by rewrite Hc.
Qed.

Lemma get_number_show (z : Z) (c : ascii) (k : string) :
  is_digit c = false ->
  get_number (show_Z z +:+ String c k) = Some (z, String c k).
Proof.
  intros Hc.
  assert (Hgo : forall x : string,
    NilZero.int_of_string x = Some (Z.to_int z) -> x = show_Z z ->
    (d ← NilZero.int_of_string x;
     if decide (show_Z (Z.of_int d) = x) then Some (Z.of_int d, String c k) else None)
    = Some (z, String c k)).
  { intros x -> ->. simpl. rewrite DecimalZ.of_to. by rewrite decide_True. }
  assert (Hisi : NilZero.int_of_string (show_Z z) = Some (Z.to_int z)).
  { unfold show_Z. apply NilZero.isi; destruct z; simpl; try done;
      intros [= H]; by apply DecimalPos.Unsigned.to_uint_nonnil in H. }
  unfold get_number, show_Z in *. destruct z as [|p|p]; simpl Z.to_int in *.
  - simpl. rewrite Hc. by apply Hgo.
  - simpl NilZero.string_of_int in *.
    assert (Hspan := span_digits_nat (Pos.to_uint p) c k Hc).
    destruct (NilZero.string_of_uint (Pos.to_uint p)) as [|a s] eqn:Hs.
    { exfalso. destruct (Pos.to_uint p); discriminate. }
    simpl in Hspan |- *.
    destruct (ascii_dec a "-") as [->|Hne].
    { exfalso. clear -Hs. destruct (Pos.to_uint p); simpl in Hs; discriminate. }
    assert (Hm : forall (T : Type) (u v : T),
      match a with "-"%char => u | _ => v end = v).
    { intros T u v. destruct a as [[|] [|] [|] [|] [|] [|] [|] [|]]; try done. }
    rewrite Hm. simpl. rewrite Hspan. by apply Hgo.
  - simpl NilZero.string_of_int in *. simpl.
    rewrite (span_digits_nat (Pos.to_uint p) c k Hc). by apply Hgo.
Qed.

Lemma get_put_entry (e : Entry.t) (k : string) : get_entry (put_entry e k) = Some (e, k).
Proof.
  unfold get_entry, put_entry. rewrite strip_append. cbn [mbind option_bind].
  rewrite get_put_string. cbn [mbind option_bind].
  rewrite strip_append. cbn [mbind option_bind].
  rewrite get_number_show by done. cbn [mbind option_bind].
  change (String "}" k) with ("}" +:+ k). rewrite strip_append.
  by destruct e.
Qed.

Lemma length_append (s t : string) :
  String.length (s +:+ t) = (String.length s + String.length t)%nat.
Proof. induction s as [|c s IH]; simpl; [done|]. by rewrite IH. Qed.

Lemma put_chars_length (s k : string) :
  (String.length k <= String.length (put_chars s k))%nat.
Proof.
  induction s as [|c s IH]; simpl; [lia|].
  destruct (_ || _); simpl; lia.
Qed.

Lemma put_entry_length (e : Entry.t) (k : string) :
  (String.length k < String.length (put_entry e k))%nat.
Proof.
  unfold put_entry, put_string. rewrite length_append.
  cbn [String.length].
  match goal with |- context [put_chars ?s ?r] =>
    pose proof (put_chars_length s r) as H end.
  cbn [String.length] in H. rewrite !length_append in H.
  cbn [String.length] in H. lia.
Qed.

Lemma put_entries_length (l : list Entry.t) :
  (length l <= String.length (put_entries l))%nat.
Proof.
  induction l as [|e [|e' l] IH]; simpl in *; [lia| |].
  - pose proof (put_entry_length e "]"). simpl in *. lia.
  - pose proof (put_entry_length e (String "," (put_entries (e' :: l)))).
    simpl in *. lia.
Qed.

Lemma get_put_entries (l : list Entry.t) (fuel : nat) :
  l <> [] -> (length l <= fuel)%nat -> get_entries fuel (put_entries l) = Some l.
Proof.
  revert fuel. induction l as [|e [|e' l] IH]; intros fuel Hne Hlen; [done| |].
  - destruct fuel; simpl in *; [lia|]. by rewrite get_put_entry.
  - destruct fuel; [simpl in *; lia|].
    change (put_entries (e :: e' :: l))
      with (put_entry e (String "," (put_entries (e' :: l)))).
    simpl get_entries. rewrite get_put_entry. simpl.
    rewrite IH; [done|done|simpl in *; lia].
Qed.

Lemma parse_stringify (l : list Entry.t) : parse (stringify l) = Some l.
Proof.
  destruct l as [|e l]; [done|].
  unfold stringify, parse.
  assert (H : exists k, put_entries (e :: l) = String "{" k).
  { destruct l; simpl; eauto. }
  destruct H as [k Hk]. rewrite Hk. rewrite <- Hk.
  apply get_put_entries; [done|apply put_entries_length].
Qed.

Lemma stringify_nonempty (l : list Entry.t) : stringify l <> "".
Proof. unfold stringify. discriminate. Qed.

Lemma shuffle_insert_Permutation x l rnd n : (shuffle_insert x l rnd n).1 ≡ₚ x :: l.
Proof.
  revert n. induction l as [|y l IH]; intros n; simpl; [done|].
  destruct (decide _); simpl; [done|].
  specialize (IH (S n)). destruct (shuffle_insert x l rnd (S n)) as [r calls].
  simpl in *. rewrite IH. apply Permutation_swap.
Qed.

Lemma shuffle_Permutation l rnd n : (shuffle l rnd n).1 ≡ₚ l.
Proof.
  induction l as [|x l IH]; simpl; [done|].
  destruct (shuffle l rnd n) as [r calls]. simpl in IH.
  pose proof (shuffle_insert_Permutation x r rnd (n + calls)) as H.
  destruct (shuffle_insert x r rnd (n + calls)) as [r' calls']. simpl in *.
  by rewrite H, IH.
Qed.

End ReferenceFacts.

Global Instance reference : Engine := {|
  JSON_parse := Reference.parse;
  JSON_stringify := Reference.stringify;
  sort_random := Reference.shuffle;
  JSON_parse_stringify := ReferenceFacts.parse_stringify;
  JSON_parse_empty := eq_refl;
  JSON_stringify_nonempty := ReferenceFacts.stringify_nonempty;
  sort_random_Permutation := ReferenceFacts.shuffle_Permutation
|}.

(** ** Concrete inputs

    An oracle for [Math.random()] that cycles through 0, 1/5, 2/5, 3/5, 4/5,
    a clock that advances one second per reading, and the state of the page
    when the script starts (before its last line, [generateNewProblem()],
    has run).  [questionsStartTime] is declared without a value and is
    assigned by that last line, before any button exists; 0 stands for the
    missing value. *)

Definition cycle5 (n : nat) : Qc := Q2Qc (Z.of_nat (n mod 5) # 5).

Definition seconds (n : nat) : Z := 1000 * Z.of_nat n.

Definition initialVars : Globals :=
  {| currentOperation := addition; currentDifficulty := easy;
     score := 0; streak := 0; totalAttempts := 0;
     timerActive := false; timeRemaining := 30; timerInterval := None;
     isMultiplayer := false; currentPlayer := 1; p1Score := 0; p2Score := 0;
     totalTime := 0%Qc; questionsStartTime := 0;
     isMultiplayerRound := false; multiplayerTimer := 15; multiplayerInterval := None;
     isMusicPlaying := false |}.

Definition gamePage : Dom :=
  {| problem := None; options := []; scoreText := "0"; streakText := "0";
     accuracyText := "0%"; winnerAnnouncement := None; announcementShown := false;
     notifications := []; leaderboardEntries := None; location := None |}.

Definition loaded (storage : gmap string string) (rnd : nat -> Qc) (time : nat -> Z) : State :=
  {| vars := initialVars; document := gamePage; achievements := initialAchievements;
     localStorage := storage; pending := []; nextTimerId := 1%positive;
     random := rnd; randomCalls := O; clock := time; clockCalls := O |}.

(** The state a player first sees: the script has been evaluated. *)
Definition started (storage : gmap string string) : option State :=
  after (generateNewProblem 10 (loaded storage cycle5 seconds)).

(** The index of a button that carries the correct answer. *)
Definition correctIndex (st : State) : nat :=
  default O (fst <$> list_find (fun b => button_option b = button_correct b)
                               (options (document st))).

(** The player gives [n] correct answers in a row. *)
Fixpoint answerCorrectly (n : nat) (st : State) : option State :=
  match n with
  | O => Some st
  | S n' =>
      st' ← run 10 [ClickOption (correctIndex st)] st;
      answerCorrectly n' st'
  end.

(** ** The option loop *)

Section Options.
Context {engine : Engine}.

(** The candidate the loop computes on its [k]-th turn when it was entered
    after [n] calls of [Math.random()]. *)
Definition candidate (rnd : nat -> Qc) (n : nat) (c : number) (k : nat) : number :=
  let offset := Math_floor (rnd (n + 2 * k)%nat * Qc_of_Z 5)%Qc + 1 in
  if decide (rnd (n + 2 * k + 1)%nat < Q2Qc (1 # 2))%Qc
  then js_add c (of_Z offset)
  else js_sub c (of_Z offset).

(** [options.includes(x) || options.push(x)] *)
Definition push_new (options : list number) (x : number) : list number :=
  if includes options x then options else options ++ [x].

(** One turn of the loop, unfolded. *)
Lemma generateOptions_loop_turn fuel c options st :
  (length options < 4)%nat ->
  generateOptions_loop (S fuel) c options st
  = generateOptions_loop fuel c
      (push_new options (candidate (random st) (randomCalls st) c 0))
      (set_randomCalls (S (S (randomCalls st))) st).
Proof.
  intros Hlen. unfold candidate, push_new. simpl.
  rewrite decide_True by done.
  replace (randomCalls st + 0)%nat with (randomCalls st) by lia.
  replace (randomCalls st + 1)%nat with (S (randomCalls st)) by lia.
  reflexivity.
Qed.

Lemma generateOptions_loop_done fuel c options st :
  (4 <= length options)%nat ->
  generateOptions_loop fuel c options st = Ok options st.
Proof.
  intros Hlen. destruct fuel; simpl; rewrite decide_False by lia; reflexivity.
Qed.


Lemma candidate_shift rnd n c k :
  candidate rnd (S (S n)) c k = candidate rnd n c (S k).
Proof.
  unfold candidate.
  replace (S (S n) + 2 * k)%nat with (n + 2 * S k)%nat by lia.
  replace (n + 2 * S k + 1)%nat with (S (S n) + 2 * k + 1)%nat by lia.
  reflexivity.
Qed.



Lemma push_new_NoDup options x : NoDup options -> NoDup (push_new options x).
Proof.
  intros Hnd. unfold push_new, includes. case_bool_decide as Hin; [done|].
  rewrite list.NoDup_app. split_and!; [done| |apply NoDup_singleton].
  intros y Hy Hy'. apply list_elem_of_singleton in Hy'. by subst.
Qed.

Lemma push_new_length options x :
  (length options <= length (push_new options x) <= S (length options))%nat.
Proof.
  unfold push_new. destruct (includes options x); rewrite ?length_app; simpl; lia.
Qed.





(** What the loop returns: four distinct values, the correct answer among
    them, and nothing changed but the count of draws. *)
Lemma generateOptions_loop_Ok fuel c options st r st' :
  generateOptions_loop fuel c options st = Ok r st' ->
  NoDup options -> (length options <= 4)%nat -> c ∈ options ->
  NoDup r /\ length r = 4%nat /\ c ∈ r
  /\ st' = set_randomCalls (randomCalls st') st
  /\ (randomCalls st <= randomCalls st')%nat.
Proof.
  revert options st. induction fuel as [|fuel IH]; intros options st Hok Hnd Hlen Hc.
  - simpl in Hok. destruct (decide (length options < 4)%nat); [done|].
    injection Hok as <- <-. split_and!; [done|lia|done|by destruct st|done].
  - destruct (decide (length options < 4)%nat) as [Hlt|Hge].
    + rewrite generateOptions_loop_turn in Hok by done.
      apply IH in Hok as (? & ? & ? & Hst & Hcalls).
      * split_and!; [done|done|done| |simpl in Hcalls; lia].
        rewrite Hst. by destruct st.
      * by apply push_new_NoDup.
      * pose proof (push_new_length options (candidate (random st) (randomCalls st) c 0)). lia.
      * unfold push_new. destruct (includes _ _); [done|]. apply elem_of_app. by left.
    + rewrite generateOptions_loop_done in Hok by lia.
      injection Hok as <- <-. split_and!; [done|lia|done|by destruct st|done].
Qed.

Lemma generateOptions_loop_no_throw fuel c options st e st' :
  generateOptions_loop fuel c options st <> Throw e st'.
Proof.
  revert options st. induction fuel as [|fuel IH]; intros options st.
  - simpl. by destruct (decide _).
  - destruct (decide (length options < 4)%nat) as [Hlt|Hge].
    + rewrite generateOptions_loop_turn by done. apply IH.
    + rewrite generateOptions_loop_done by lia. done.
Qed.


(** What [generateOptions] leaves behind. *)
Lemma generateOptions_Ok fuel c st st' :
  generateOptions fuel c st = Ok tt st' ->
  exists shuffled calls,
    st' = set_document (set_options (map (optionButton c) shuffled) (document st))
            (set_randomCalls calls st)
    /\ (randomCalls st <= calls)%nat
    /\ NoDup shuffled /\ length shuffled = 4%nat /\ c ∈ shuffled.
Proof.
  unfold generateOptions, mbind, M_bind, shuffleOptions, render, modify.
  destruct (generateOptions_loop fuel c [c] st) as [r st1| |] eqn:Hloop; [|done..].
  apply generateOptions_loop_Ok in Hloop as (Hnd & Hlen & Hc & Hst & Hcalls);
    [|apply NoDup_singleton|simpl; lia|by apply list_elem_of_singleton].
  pose proof (sort_random_Permutation r (random st1) (randomCalls st1)) as Hperm.
  destruct (sort_random r (random st1) (randomCalls st1)) as [shuffled calls].
  simpl in Hperm. intros [= <-].
  exists shuffled, (randomCalls st1 + calls)%nat. split_and!.
  - rewrite Hst. by destruct st.
  - lia.
  - by rewrite Hperm.
  - by rewrite Hperm.
  - by rewrite Hperm.
Qed.

Lemma generateOptions_no_throw fuel c st e st' :
  generateOptions fuel c st <> Throw e st'.
Proof.
  unfold generateOptions, mbind, M_bind, shuffleOptions, render, modify.
  pose proof (generateOptions_loop_no_throw fuel c [c] st) as Hloop.
  destruct (generateOptions_loop fuel c [c] st) as [r st1|e1 st1|]; [|by destruct (Hloop e1 st1)|done].
  by destruct (sort_random r (random st1) (randomCalls st1)).
Qed.





(** C7: whenever [generateOptions(c)] returns, the page shows exactly four
    option buttons, their values are pairwise distinct, one of them is [c],
    and every button will submit [c] as the correct answer. *)
Theorem generateOptions_four_distinct (fuel : nat) (c : number) (st st' : State) :
  generateOptions fuel c st = Ok tt st' ->
  let shown := button_option <$> options (document st') in
  length shown = 4%nat /\ NoDup shown /\ c ∈ shown
  /\ Forall (fun b => button_correct b = c) (options (document st')).
Proof.
  intros Hok. apply generateOptions_Ok in Hok
    as (shuffled & calls & -> & _ & Hnd & Hlen & Hc).
  simpl. rewrite <- list_fmap_compose.
  assert (Hid : (button_option ∘ optionButton c) <$> shuffled = shuffled).
  { clear. induction shuffled as [|x l IH]; [done|]. by rewrite fmap_cons, IH. }
  rewrite Hid. split_and!; [done..|].
  apply Forall_fmap, Forall_forall. done.
Qed.

End Options.

(** ** Generating a problem *)

Section Problems.
Context {engine : Engine}.

(** The number [generateNumber()] makes of the [k]-th coming draw. *)
Definition drawn (st : State) (k : nat) : Z :=
  let range := difficultyRanges (currentDifficulty (vars st)) in
  Math_floor (random st (randomCalls st + k)%nat
              * Qc_of_Z (range_max range - range_min range + 1))%Qc
  + range_min range.

(** The problem line and the answer [generateNewProblem()] computes. *)
Definition nextProblem (st : State) : ProblemText * number :=
  let num1 := drawn st 0 in
  let num2 := drawn st 1 in
  let op := currentOperation (vars st) in
  if decide (op = division)
  then ({| shown_num1 := num1 * num2; shown_symbol := "÷"; shown_num2 := num2 |},
        js_div (of_Z (num1 * num2)) (of_Z num2))
  else ({| shown_num1 := num1; shown_symbol := getOperationSymbol op; shown_num2 := num2 |},
        calculateAnswer op num1 num2).

(** The state in which [generateNewProblem()] calls [generateOptions]. *)
Definition problemShown (st : State) : State :=
  set_document (set_problem (Some (nextProblem st).1) (document st))
    (set_randomCalls (S (S (randomCalls st))) st).

(** The last two statements of [generateNewProblem()]. *)
Definition stamp (st : State) : State :=
  set_vars (set_questionsStartTime (clock st (clockCalls st)) (vars st))
    (set_clockCalls (S (clockCalls st)) st).

Lemma generateNewProblem_unfold fuel st :
  generateNewProblem fuel st
  = match generateOptions fuel (nextProblem st).2 (problemShown st) with
    | Ok _ st' => Ok tt (stamp st')
    | Throw e st' => Throw e st'
    | Timeout => Timeout
    end.
Proof.
  unfold generateNewProblem, problemShown, nextProblem, drawn, stamp.
  unfold mbind, M_bind, generateNumber, var, gets, Math_random, render, modify,
    Date_now, assign, mret, M_ret. simpl.
  rewrite Nat.add_0_r, Nat.add_1_r.
  destruct (decide (currentOperation (vars st) = division)); simpl;
    destruct (generateOptions fuel _ _); reflexivity.
Qed.

(** The state [generateNewProblem()] returns in, given the order the engine
    put the options in and the number of draws made in all. *)
Definition problemReady (st : State) (shuffled : list number) (calls : nat) : State :=
  {| vars := set_questionsStartTime (clock st (clockCalls st)) (vars st);
     document :=
       set_options (map (optionButton (nextProblem st).2) shuffled)
         (set_problem (Some (nextProblem st).1) (document st));
     achievements := achievements st; localStorage := localStorage st;
     pending := pending st; nextTimerId := nextTimerId st;
     random := random st; randomCalls := calls;
     clock := clock st; clockCalls := S (clockCalls st) |}.

Lemma generateNewProblem_Ok fuel st st' :
  generateNewProblem fuel st = Ok tt st' ->
  exists shuffled calls,
    st' = problemReady st shuffled calls
    /\ (S (S (randomCalls st)) <= calls)%nat
    /\ NoDup shuffled /\ length shuffled = 4%nat /\ (nextProblem st).2 ∈ shuffled.
Proof.
  rewrite generateNewProblem_unfold.
  destruct (generateOptions fuel _ _) as [[] st1| |] eqn:Hopt; [|done..].
  intros [= <-].
  apply generateOptions_Ok in Hopt as (shuffled & calls & -> & Hcalls & Hrest).
  exists shuffled, calls. split; [reflexivity|]. split; [exact Hcalls|exact Hrest].
Qed.

Lemma generateNewProblem_no_throw fuel st e st' :
  generateNewProblem fuel st <> Throw e st'.
Proof.
  rewrite generateNewProblem_unfold.
  pose proof (generateOptions_no_throw fuel (nextProblem st).2 (problemShown st)) as H.
  destruct (generateOptions fuel _ _) as [[] st1|e1 st1|]; [done| |done].
  by destruct (H e1 st1).
Qed.






(** *** Division *)

(** [Math.random()] returns a number from 0 inclusive to 1 exclusive. *)
Definition unit_draw (r : Qc) : Prop := (0 <= r)%Qc /\ (r < 1)%Qc.

Lemma floor_scaled (r : Qc) (n : Z) :
  (0 <= r)%Qc -> (r < 1)%Qc -> 0 < n -> 0 <= Math_floor (r * Qc_of_Z n)%Qc < n.
Proof.
  intros H0 H1 Hn. unfold Math_floor.
  assert (Heq : (this (r * Qc_of_Z n)%Qc == this r * inject_Z n)%Q).
  { simpl. apply Qred_correct. }
  rewrite Heq. unfold Qcle, Qclt in *. simpl in H0, H1.
  split.
  - change 0 with (Qfloor 0). apply Qfloor_resp_le.
    apply Qmult_le_0_compat; [done|]. change 0%Q with (inject_Z 0).
    rewrite <- Zle_Qle. lia.
  - rewrite Zlt_Qlt. eapply Qle_lt_trans; [apply Qfloor_le|].
    rewrite <- (Qmult_1_l (inject_Z n)) at 2.
    apply Qmult_lt_compat_r; [|done].
    change 0%Q with (inject_Z 0). rewrite <- Zlt_Qlt. lia.
Qed.

Lemma drawn_in_range st k :
  (0 <= random st (randomCalls st + k)%nat)%Qc ->
  (random st (randomCalls st + k)%nat < 1)%Qc ->
  let range := difficultyRanges (currentDifficulty (vars st)) in
  range_min range <= drawn st k <= range_max range.
Proof.
  intros H0 H1 range. unfold drawn. fold range.
  pose proof (floor_scaled _ (range_max range - range_min range + 1) H0 H1) as H.
  assert (0 < range_max range - range_min range + 1).
  { subst range. by destruct (currentDifficulty (vars st)). }
  lia.
Qed.




End Problems.

(** ** Running straight-line code

    [exec] evaluates the glue of the monad and the reads and writes of the
    state, and nothing else; it is meant for a state given by its
    constructor, which [open_state] provides. *)


Ltac exec :=
  cbv [after negb mbind M_bind mret M_ret gets modify throw timeout var assign render Math_random
    Date_now getItem setItem register setInterval setTimeout clearInterval
    currentOperation currentDifficulty score streak totalAttempts timerActive
    timeRemaining timerInterval isMultiplayer currentPlayer p1Score p2Score totalTime
    questionsStartTime isMultiplayerRound multiplayerTimer multiplayerInterval
    isMusicPlaying set_currentOperation set_currentDifficulty set_score set_streak
    set_totalAttempts set_timerActive set_timeRemaining set_timerInterval
    set_isMultiplayer set_currentPlayer set_p1Score set_p2Score set_totalTime
    set_questionsStartTime set_isMultiplayerRound set_multiplayerTimer
    set_multiplayerInterval set_isMusicPlaying problem options scoreText streakText
    accuracyText winnerAnnouncement announcementShown notifications leaderboardEntries
    location set_problem set_options set_scoreText set_streakText set_accuracyText
    set_winnerAnnouncement set_announcementShown set_notifications
    set_leaderboardEntries set_location vars document achievements localStorage pending
    nextTimerId random randomCalls clock clockCalls set_vars set_document
    set_localStorage set_pending set_nextTimerId set_randomCalls set_clockCalls].

Ltac exec_in H :=
  cbv [after negb mbind M_bind mret M_ret gets modify throw timeout var assign render Math_random
    Date_now getItem setItem register setInterval setTimeout clearInterval
    currentOperation currentDifficulty score streak totalAttempts timerActive
    timeRemaining timerInterval isMultiplayer currentPlayer p1Score p2Score totalTime
    questionsStartTime isMultiplayerRound multiplayerTimer multiplayerInterval
    isMusicPlaying set_currentOperation set_currentDifficulty set_score set_streak
    set_totalAttempts set_timerActive set_timeRemaining set_timerInterval
    set_isMultiplayer set_currentPlayer set_p1Score set_p2Score set_totalTime
    set_questionsStartTime set_isMultiplayerRound set_multiplayerTimer
    set_multiplayerInterval set_isMusicPlaying problem options scoreText streakText
    accuracyText winnerAnnouncement announcementShown notifications leaderboardEntries
    location set_problem set_options set_scoreText set_streakText set_accuracyText
    set_winnerAnnouncement set_announcementShown set_notifications
    set_leaderboardEntries set_location vars document achievements localStorage pending
    nextTimerId random randomCalls clock clockCalls set_vars set_document
    set_localStorage set_pending set_nextTimerId set_randomCalls set_clockCalls] in H.

(** Case analysis on the condition of the first conditional in the goal. *)
Ltac split_on b :=
  lazymatch b with
  | (if ?c then _ else _) => split_on c
  | negb ?c => split_on c
  | _ => destruct b
  end.

Ltac split_if :=
  match goal with
  | |- context [if ?b then _ else _] => split_on b
  | |- context [match ?o with Some _ => _ | None => _ end] => split_on o
  end.

Ltac open_state st :=
  let g := fresh "g" in
  let d := fresh "d" in
  destruct st as [g d ? ? ? ? ? ? ? ?]; destruct g; destruct d.

(** ** Resetting the game *)

Section Reset.
Context {engine : Engine}.

(** The timer table once [clearInterval(h)] has run. *)
Definition cleared (h : option positive) (timers : list Timer) : list Timer :=
  match h with
  | Some id => cancel id timers
  | None => timers
  end.

(** The variables as [resetGame()] assigns them. *)
Definition resetVars (g : Globals) : Globals :=
  set_isMultiplayerRound false
    (set_totalTime 0%Qc
       (set_currentPlayer 1
          (set_p2Score 0
             (set_p1Score 0
                (set_totalAttempts 0 (set_streak 0 (set_score 0 g))))))).

(** The state in which [resetGame()] calls [generateNewProblem()]: the
    statistics have been redrawn from the zeroed variables, without a guard
    on the division, and the report written, with the guard. *)
Definition resetState (st : State) : State :=
  set_localStorage
    (<["avgTime" := "0s"]>
       (<["questionsSolved" := "0"]> (<["accuracy" := "0%"]> (localStorage st))))
    (set_document
       (set_accuracyText "NaN%" (set_streakText "0" (set_scoreText "0" (document st))))
       (set_pending (cleared (multiplayerInterval (vars st)) (pending st))
          (set_vars (resetVars (vars st)) st))).

Lemma resetGame_unfold fuel st :
  resetGame fuel st = generateNewProblem fuel (resetState st).
Proof.
  unfold resetGame, updateStats, updateReportData, resetState, resetVars, cleared.
  open_state st. exec.
  match goal with |- context [match ?h with Some _ => _ | None => _ end] => destruct h end;
    reflexivity.
Qed.


Lemma resetGame_Ok fuel st st' :
  resetGame fuel st = Ok tt st' ->
  exists shuffled calls, st' = problemReady (resetState st) shuffled calls.
Proof.
  rewrite resetGame_unfold. intros Hok.
  apply generateNewProblem_Ok in Hok as (shuffled & calls & -> & _). eauto.
Qed.




End Reset.

(** ** Sequences of calls *)

Lemma forEach_snoc {A} (l : list A) (a : A) (f : A -> M unit) st :
  forEach (l ++ [a]) f st
  = match forEach l f st with
    | Ok _ st1 => f a st1
    | Throw e st1 => Throw e st1
    | Timeout => Timeout
    end.
Proof.
  revert st. induction l as [|b l IH]; intros st; simpl.
  - unfold mbind, M_bind. destruct (f a st) as [[] ?| |]; reflexivity.
  - unfold mbind, M_bind. destruct (f b st) as [[] st1| |]; [|done..]. apply IH.
Qed.

(** ** Answers *)

Section Answers.
Context {engine : Engine}.

(** The state with notifications appended to the body. *)
Definition notified (notes : list Notification) (st : State) : State :=
  set_document (set_notifications (notifications (document st) ++ notes) (document st)) st.

Definition streakNote (g : Globals) (a : StreakAchievement) : list Notification :=
  if decide (streak g = streak_requirement a)
  then [{| note_name := streak_name a; note_description := streak_description a |}]
  else [].

Definition accuracyNote (g : Globals) (a : AccuracyAchievement) : list Notification :=
  if not_awarded (accuracy_awarded a)
     && bool_decide (totalAttempts g = questions (accuracy_requirement a))
     && strict_eq (js_mul (js_div (of_Z (score g)) (of_Z (totalAttempts g))) (of_Z 100))
                  (of_Z (accuracy (accuracy_requirement a)))
  then [{| note_name := accuracy_name a; note_description := accuracy_description a |}]
  else [].

(** The notifications one call of [checkAchievements()] appends. *)
Definition earned (st : State) : list Notification :=
  (streaks (achievements st) ≫= streakNote (vars st))
  ++ (accuracies (achievements st) ≫= accuracyNote (vars st)).

Lemma notified_nil st : notified [] st = st.
Proof. unfold notified. open_state st. exec. by rewrite app_nil_r. Qed.

Lemma notified_app n1 n2 st : notified n2 (notified n1 st) = notified (n1 ++ n2) st.
Proof. unfold notified. open_state st. exec. by rewrite app_assoc. Qed.

Lemma forEach_notified {A} (l : list A) (f : A -> M unit) (note : Globals -> A -> list Notification) :
  (forall a st, f a st = Ok tt (notified (note (vars st) a) st)) ->
  forall st, forEach l f st = Ok tt (notified (l ≫= note (vars st)) st).
Proof.
  intros Hf. induction l as [|a l IH]; intros st; simpl.
  - by rewrite notified_nil.
  - unfold mbind at 1, M_bind. rewrite Hf, IH, notified_app. reflexivity.
Qed.

Lemma checkAchievements_unfold st :
  checkAchievements st = Ok tt (notified (earned st) st).
Proof.
  unfold checkAchievements, earned.
  unfold mbind at 1, M_bind at 1. unfold gets at 1.
  unfold mbind at 1, M_bind at 1.
  rewrite (forEach_notified _ _ streakNote).
  2:{ intros a s. unfold streakNote, awardAchievement, notified. open_state s. exec.
      destruct (decide _); exec; [reflexivity|]. by rewrite app_nil_r. }
  rewrite (forEach_notified _ _ accuracyNote).
  2:{ intros a s. unfold accuracyNote, awardAchievement, notified. open_state s. exec.
      destruct (_ && _); exec; [reflexivity|]. by rewrite app_nil_r. }
  rewrite notified_app. reflexivity.
Qed.

(** The states [updateStats()] and [updateReportData()] return in. *)
Definition statsShown (st : State) : State :=
  set_document
    (set_accuracyText (show_rounded (shownAccuracy (vars st)) +:+ "%")
       (set_streakText (show_Z (streak (vars st)))
          (set_scoreText (show_Z (score (vars st))) (document st)))) st.

Definition reported (st : State) : State :=
  set_localStorage
    (<["avgTime" := show_rounded (avgTime (vars st)) +:+ "s"]>
       (<["questionsSolved" := show_Z (totalAttempts (vars st))]>
          (<["accuracy" := show_rounded (accuracyPercentage (vars st)) +:+ "%"]>
             (localStorage st)))) st.

Lemma updateStats_unfold st : updateStats st = Ok tt (statsShown st).
Proof. reflexivity. Qed.

Lemma updateReportData_unfold st : updateReportData st = Ok tt (reported st).
Proof. reflexivity. Qed.

(** The variables after the first half of [checkAnswer]: the counters, the
    time, the score and the streak, and the score of the player whose turn
    it is. *)
Definition answeredVars (isCorrect : bool) (now : Z) (g : Globals) : Globals :=
  let elapsed := (Qc_of_Z (now - questionsStartTime g) / Qc_of_Z 1000)%Qc in
  let g := set_totalTime (totalTime g + elapsed)%Qc
             (set_totalAttempts (totalAttempts g + 1) g) in
  if isCorrect then
    let g := set_streak (streak g + 1) (set_score (score g + 1) g) in
    if isMultiplayerRound g then
      if decide (currentPlayer g = 1)
      then set_p1Score (p1Score g + 1) g
      else set_p2Score (p2Score g + 1) g
    else g
  else set_streak 0 g.

(** The state in which [checkAnswer] calls [generateNewProblem()]. *)
Definition answered (selected correct : number) (st : State) : State :=
  let st := set_clockCalls (S (clockCalls st))
              (set_vars (answeredVars (strict_eq selected correct)
                           (clock st (clockCalls st)) (vars st)) st) in
  let st := statsShown st in
  let st := notified (earned st) st in
  reported st.

Lemma checkAnswer_unfold fuel selected correct st :
  checkAnswer fuel selected correct st
  = generateNewProblem fuel (answered selected correct st).
Proof.
  unfold checkAnswer, answered, answeredVars.
  destruct (strict_eq selected correct); open_state st; exec.
  - split_if; exec; [split_if; exec|];
      rewrite updateStats_unfold; exec; rewrite checkAchievements_unfold; exec;
      rewrite updateReportData_unfold; reflexivity.
  - rewrite updateStats_unfold; exec; rewrite checkAchievements_unfold; exec;
      rewrite updateReportData_unfold; reflexivity.
Qed.


Lemma checkAnswer_no_throw fuel selected correct st e st' :
  checkAnswer fuel selected correct st <> Throw e st'.
Proof. rewrite checkAnswer_unfold. apply generateNewProblem_no_throw. Qed.

(** The four variables of the session. *)
Definition session (st : State) : Z * Z * Z * Qc :=
  (score (vars st), streak (vars st), totalAttempts (vars st), totalTime (vars st)).




Definition isCorrect (a : number * number) : bool := strict_eq a.1 a.2.






End Answers.

(** ** The leaderboard *)

Section Sorting.

(** [a] may stand before [b]. *)
Definition above (a b : Entry.t) : Prop := Entry.score b <= Entry.score a.

Definition scored (s : Z) (e : Entry.t) : Prop := Entry.score e = s.

Global Instance scored_dec s e : Decision (scored s e).
Proof. unfold scored. apply _. Defined.

Lemma insert_entry_Permutation e l : insert_entry e l ≡ₚ e :: l.
Proof.
  induction l as [|x l IH]; simpl; [done|].
  destruct (decide _); [|done]. rewrite IH. apply Permutation_swap.
Qed.

Lemma insert_entry_sorted e l :
  StronglySorted above l -> StronglySorted above (insert_entry e l).
Proof.
  induction 1 as [|x l Hl IH Hx]; simpl.
  - repeat constructor.
  - destruct (decide (Entry.score e <= Entry.score x)) as [Hle|Hgt].
    + constructor; [done|].
      rewrite insert_entry_Permutation. by constructor.
    + constructor; [by constructor|].
      constructor; [unfold above; lia|].
      eapply list.Forall_impl; [exact Hx|]. unfold above. intros y Hy. lia.
Qed.

Lemma sort_by_score_snoc l e :
  sort_by_score (l ++ [e]) = insert_entry e (sort_by_score l).
Proof. unfold sort_by_score. by rewrite foldl_app. Qed.

Lemma sort_by_score_Permutation l : sort_by_score l ≡ₚ l.
Proof.
  induction l as [|e l IH] using rev_ind; [done|].
  rewrite sort_by_score_snoc, insert_entry_Permutation, IH.
  by rewrite Permutation_cons_append.
Qed.

Lemma sort_by_score_sorted l : StronglySorted above (sort_by_score l).
Proof.
  induction l as [|e l IH] using rev_ind; [constructor|].
  rewrite sort_by_score_snoc. by apply insert_entry_sorted.
Qed.

(** An entry that no element may follow goes last. *)
Lemma insert_entry_last e l :
  Forall (fun x => above x e) l -> insert_entry e l = l ++ [e].
Proof.
  induction 1 as [|x l Hx Hl IH]; simpl; [done|].
  unfold above in Hx. rewrite decide_True by done. by rewrite IH.
Qed.

Lemma sort_by_score_sorted_id l : StronglySorted above l -> sort_by_score l = l.
Proof.
  induction l as [|e l IH] using rev_ind; intros Hs; [done|].
  rewrite sort_by_score_snoc.
  rewrite IH by (by apply StronglySorted_app_1_l in Hs).
  apply insert_entry_last. apply Forall_forall. intros x Hx.
  eapply StronglySorted_app_1_elem_of; [exact Hs|exact Hx|set_solver].
Qed.

Lemma filter_none {A} (P : A -> Prop) `{!forall x, Decision (P x)} (l : list A) :
  Forall (fun x => ~ P x) l -> filter P l = [].
Proof.
  induction 1 as [|x l Hx Hl IH]; [done|].
  by rewrite list.filter_cons_False.
Qed.

(** Stability: the entries of any one score keep their order, the new one
    coming last among its equals. *)
Lemma insert_entry_stable s e l :
  StronglySorted above l ->
  filter (scored s) (insert_entry e l)
  = filter (scored s) l ++ (if decide (scored s e) then [e] else []).
Proof.
  induction 1 as [|x l Hl IH Hx]; simpl.
  - by rewrite list.filter_cons, list.filter_nil.
  - destruct (decide (Entry.score e <= Entry.score x)) as [Hle|Hgt].
    + rewrite !(list.filter_cons _ x), IH. by destruct (decide (scored s x)).
    + rewrite (list.filter_cons _ e).
      destruct (decide (scored s e)) as [He|He]; [|by rewrite app_nil_r].
      rewrite (filter_none (scored s) (x :: l)); [done|].
      unfold scored in *. constructor; [lia|].
      eapply list.Forall_impl; [exact Hx|]. unfold above. intros y Hy. lia.
Qed.

Lemma sort_by_score_stable s l :
  filter (scored s) (sort_by_score l) = filter (scored s) l.
Proof.
  induction l as [|e l IH] using rev_ind; [done|].
  rewrite sort_by_score_snoc, insert_entry_stable by apply sort_by_score_sorted.
  by rewrite IH, list.filter_app, list.filter_cons, list.filter_nil.
Qed.

(** Cutting to the first [n] before or after an insertion is the same. *)
Lemma take_insert_entry n e l :
  take n (insert_entry e (take n l)) = take n (insert_entry e l).
Proof.
  revert n. induction l as [|x l IH]; intros [|n]; simpl; try done.
  destruct (decide _); simpl.
  - by rewrite IH.
  - f_equal. destruct n; simpl; [done|]. f_equal.
    rewrite take_take. f_equal. lia.
Qed.

(** What one more record makes of the five kept so far. *)
Lemma record_step l e :
  take 5 (sort_by_score (take 5 (sort_by_score l) ++ [e]))
  = take 5 (sort_by_score (l ++ [e])).
Proof.
  rewrite !sort_by_score_snoc.
  rewrite sort_by_score_sorted_id; [apply take_insert_entry|].
  pose proof (sort_by_score_sorted l) as Hs.
  rewrite <- (take_drop 5 (sort_by_score l)) in Hs.
  by apply StronglySorted_app_1_l in Hs.
Qed.

End Sorting.

Section Leaderboard.
Context {engine : Engine}.

(** The leaderboard as the script would read it from storage. *)
Definition storedLeaderboard (st : State) : option (list Entry.t) :=
  JSON_parse (or_else (localStorage st !! "leaderboard") "[]").

(** [playerName], or the stored player, or 'Anonymous'. *)
Definition resolveName (playerName : option string) (st : State) : string :=
  match playerName with
  | Some n => if decide (n = "") then or_else (localStorage st !! "currentPlayer") "Anonymous" else n
  | None => or_else (localStorage st !! "currentPlayer") "Anonymous"
  end.

Lemma loadLeaderboard_unfold st :
  loadLeaderboard st
  = match storedLeaderboard st with
    | Some board => Ok board st
    | None => Throw SyntaxError st
    end.
Proof.
  unfold loadLeaderboard, storedLeaderboard. exec.
  destruct (JSON_parse _); reflexivity.
Qed.

Lemma updateLeaderboard_unfold playerName score st :
  updateLeaderboard playerName score st
  = match storedLeaderboard st with
    | Some board =>
        Ok tt (set_localStorage
                 (<["leaderboard" :=
                      JSON_stringify
                        (take 5 (sort_by_score
                           (board ++ [{| Entry.name := resolveName playerName st;
                                         Entry.score := score |}])))]>
                    (localStorage st)) st)
    | None => Throw SyntaxError st
    end.
Proof.
  unfold updateLeaderboard, resolveName. exec.
  rewrite loadLeaderboard_unfold.
  destruct playerName as [n|]; [destruct (decide (n = ""))|];
    destruct (storedLeaderboard st); reflexivity.
Qed.

(** A sequence of calls [updateLeaderboard(playerName, score)]. *)
Definition recordAll (calls : list (option string * Z)) : M unit :=
  forEach calls (fun c => updateLeaderboard c.1 c.2).

(** The entry a call appends. *)
Definition entryOf (st : State) (c : option string * Z) : Entry.t :=
  {| Entry.name := resolveName c.1 st; Entry.score := c.2 |}.

Lemma storedLeaderboard_written board st :
  storedLeaderboard
    (set_localStorage (<["leaderboard" := JSON_stringify board]> (localStorage st)) st)
  = Some board.
Proof.
  unfold storedLeaderboard. open_state st. exec.
  rewrite lookup_insert_eq. unfold or_else.
  rewrite decide_False by apply JSON_stringify_nonempty.
  apply JSON_parse_stringify.
Qed.

Lemma recordAll_stored calls st :
  localStorage st !! "leaderboard" = None ->
  exists st',
    recordAll calls st = Ok tt st'
    /\ storedLeaderboard st' = Some (take 5 (sort_by_score (entryOf st <$> calls)))
    /\ localStorage st' !! "currentPlayer" = localStorage st !! "currentPlayer".
Proof.
  intros Hnone. induction calls as [|c calls IH] using rev_ind.
  - exists st. split_and!; [done| |done].
    unfold storedLeaderboard. rewrite Hnone. apply JSON_parse_empty.
  - destruct IH as (st1 & Hrun & Hstored & Hname).
    unfold recordAll in *. rewrite forEach_snoc, Hrun.
    rewrite updateLeaderboard_unfold, Hstored.
    eexists. split_and!; [reflexivity| |].
    + rewrite storedLeaderboard_written. f_equal.
      rewrite fmap_app. simpl.
      assert (Hentry : {| Entry.name := resolveName c.1 st1; Entry.score := c.2 |}
                       = entryOf st c).
      { unfold entryOf, resolveName. by rewrite Hname. }
      rewrite Hentry. apply record_step.
    + rewrite <- Hname. clear. open_state st1. exec.
      by rewrite lookup_insert_ne.
Qed.

(** C4: starting without a stored leaderboard, after any sequence of N calls
    of [updateLeaderboard] the stored leaderboard parses to the first five of
    the stable descending arrangement of all N entries: it has min(N, 5)
    entries, its scores never increase, entries of equal score stand in the
    order they were recorded in, and every entry left out scores no more
    than every entry kept. *)
Theorem leaderboard_keeps_top_five (calls : list (option string * Z)) (st : State) :
  localStorage st !! "leaderboard" = None ->
  let entries := entryOf st <$> calls in
  exists st' board,
    recordAll calls st = Ok tt st'
    /\ loadLeaderboard st' = Ok board st'
    /\ board = take 5 (sort_by_score entries)
    /\ length board = (length calls `min` 5)%nat
    /\ StronglySorted above board
    /\ (forall s, filter (scored s) board `prefix_of` filter (scored s) entries)
    /\ entries ≡ₚ board ++ drop 5 (sort_by_score entries)
    /\ (forall b r, b ∈ board -> r ∈ drop 5 (sort_by_score entries) ->
          Entry.score r <= Entry.score b).
Proof.
  intros Hnone entries.
  destruct (recordAll_stored calls st Hnone) as (st' & Hrun & Hstored & _).
  fold entries in Hstored.
  pose proof (sort_by_score_sorted entries) as Hsorted.
  rewrite <- (take_drop 5 (sort_by_score entries)) in Hsorted.
  exists st', (take 5 (sort_by_score entries)). split_and!.
  - exact Hrun.
  - by rewrite loadLeaderboard_unfold, Hstored.
  - reflexivity.
  - rewrite length_take, (Permutation_length (sort_by_score_Permutation entries)).
    unfold entries. rewrite length_fmap. lia.
  - by apply StronglySorted_app_1_l in Hsorted.
  - intros s. rewrite <- (sort_by_score_stable s entries).
    rewrite <- (take_drop 5 (sort_by_score entries)) at 2.
    rewrite list.filter_app. by apply prefix_app_r.
  - by rewrite take_drop, sort_by_score_Permutation.
  - intros b r Hb Hr.
    apply (StronglySorted_app_1_elem_of _ _ _ b r Hsorted Hb Hr).
Qed.

End Leaderboard.

(** ** Frame conditions *)

(** [m] leaves the observation [p] of the state as it is, whether it returns
    or throws. *)
Definition preserves {X A} (p : State -> X) (m : M A) : Prop :=
  forall st,
    match m st with
    | Ok _ st' | Throw _ st' => p st' = p st
    | Timeout => True
    end.

Section Preserves.
Context {X : Type} (p : State -> X).

Lemma preserves_ret {A} (a : A) : preserves p (mret a).
Proof. by intros st. Qed.

Lemma preserves_bind {A B} (m : M A) (f : A -> M B) :
  preserves p m -> (forall a, preserves p (f a)) -> preserves p (m ≫= f).
Proof.
  intros Hm Hf st. unfold mbind, M_bind. specialize (Hm st).
  destruct (m st) as [a st1|e st1|]; [|done..].
  specialize (Hf a st1). destruct (f a st1); congruence.
Qed.

Lemma preserves_gets {A} (f : State -> A) : preserves p (gets f).
Proof. by intros st. Qed.

Lemma preserves_var {A} (f : Globals -> A) : preserves p (var f).
Proof. by intros st. Qed.

Lemma preserves_getItem key : preserves p (getItem key).
Proof. by intros st. Qed.

Lemma preserves_throw {A} e : preserves p (throw (A := A) e).
Proof. by intros st. Qed.

Lemma preserves_timeout {A} : preserves p (timeout (A := A)).
Proof. by intros st. Qed.

Lemma preserves_if {A} (b : bool) (m1 m2 : M A) :
  preserves p m1 -> preserves p m2 -> preserves p (if b then m1 else m2).
Proof. by destruct b. Qed.

Lemma preserves_decide {A} (P : Prop) `{Decision P} (m1 m2 : M A) :
  preserves p m1 -> preserves p m2 -> preserves p (if decide P then m1 else m2).
Proof. by destruct (decide P). Qed.

Lemma preserves_forEach {A} (l : list A) (f : A -> M unit) :
  (forall a, preserves p (f a)) -> preserves p (forEach l f).
Proof.
  intros Hf. induction l as [|a l IH]; simpl; [apply preserves_ret|].
  apply preserves_bind; [apply Hf|done].
Qed.

End Preserves.

Create HintDb frame.
#[global] Hint Resolve preserves_ret preserves_gets preserves_var preserves_getItem preserves_throw
  preserves_timeout preserves_forEach : frame.

(** Decomposing a function into its steps; a step that is a single read or
    write of the state is settled by running it. *)
Ltac frame_step :=
  first
    [ solve [eauto with frame]
    | apply preserves_forEach; intros ?
    | apply preserves_bind; [|intros ?]
    | apply preserves_if
    | apply preserves_decide
    | match goal with |- preserves _ (match ?x with _ => _ end) => destruct x end
    | solve [let st := fresh "st" in intros st; by open_state st]
    | match goal with
      | |- preserves _ (clearInterval ?h) =>
          solve [let st := fresh "st" in destruct h; intros st; by open_state st]
      end ].

Ltac frame := repeat frame_step.

(** ** Events and the session *)

Section Events.
Context {engine : Engine}.

Definition zero : Z * Z * Z * Qc := (0, 0, 0, 0%Qc).


(** *** The four variables of the session *)

Abbreviation keeps := (preserves session).





Lemma keeps_loadLeaderboard : keeps loadLeaderboard.
Proof. unfold loadLeaderboard. frame. Qed.

Lemma keeps_updateLeaderboard playerName score : keeps (updateLeaderboard playerName score).
Proof. unfold updateLeaderboard. pose proof keeps_loadLeaderboard. frame. Qed.



Lemma keeps_showTimerEndMessage : keeps showTimerEndMessage.
Proof. unfold showTimerEndMessage. pose proof keeps_updateLeaderboard. frame. Qed.









(** *** The events that reset *)


(** The state in which the expired timer calls [showTimerEndMessage()]. *)
Definition expired (st : State) : State :=
  set_pending (cleared (timerInterval (vars st)) (pending st))
    (set_vars (set_timeRemaining (timeRemaining (vars st) - 1) (vars st)) st).

(** The state [showTimerEndMessage()] returns in when the stored leaderboard
    parses to [board]. *)
Definition announced (board : list Entry.t) (st : State) : State :=
  let playerName := localStorage st !! "currentPlayer" in
  let final := score (vars st) in
  let entry := {| Entry.name := resolveName playerName st; Entry.score := final |} in
  set_nextTimerId (Pos.succ (nextTimerId st))
    (set_pending
       (pending st ++ [{| timer_id := nextTimerId st; timer_repeats := false;
                          timer_callback := TimerEndHide |}])
       (set_document
          (set_announcementShown true
             (set_winnerAnnouncement (Some (GreatEffort playerName final)) (document st)))
          (set_localStorage
             (<["leaderboard" := JSON_stringify (take 5 (sort_by_score (board ++ [entry])))]>
                (localStorage st)) st))).

Lemma showTimerEndMessage_unfold st :
  showTimerEndMessage st
  = match storedLeaderboard st with
    | Some board => Ok tt (announced board st)
    | None => Throw SyntaxError st
    end.
Proof.
  unfold showTimerEndMessage, announced. exec.
  rewrite updateLeaderboard_unfold.
  destruct (storedLeaderboard st); [|done].
  open_state st. reflexivity.
Qed.

Lemma timerTick_unfold fuel st :
  timerTick fuel st
  = if decide (timeRemaining (vars st) - 1 <= 0) then
      match storedLeaderboard st with
      | Some board => resetGame fuel (announced board (expired st))
      | None => Throw SyntaxError (expired st)
      end
    else Ok tt (set_vars (set_timeRemaining (timeRemaining (vars st) - 1) (vars st)) st).
Proof.
  unfold timerTick, expired. open_state st. exec.
  destruct (decide _); [|reflexivity].
  exec. split_if; exec; rewrite showTimerEndMessage_unfold;
    unfold storedLeaderboard; exec; destruct (JSON_parse _); reflexivity.
Qed.


Definition never_throws {A} (m : M A) : Prop := forall st e st', m st <> Throw e st'.







(** *** The event loop *)


Lemma session_set_pending timers st : session (set_pending timers st) = session st.
Proof. by open_state st. Qed.

Lemma fire_unfold fuel id st :
  fire fuel id st
  = match find (fun t => bool_decide (timer_id t = id)) (pending st) with
    | Some t =>
        runCallback fuel (timer_callback t)
          (if timer_repeats t then st else set_pending (cancel id (pending st)) st)
    | None => Ok tt st
    end.
Proof.
  unfold fire, mbind, M_bind, gets.
  destruct (find _ (pending st)) as [[tid [|] cb]|]; reflexivity.
Qed.





(** C2 (as amended): when the stored leaderboard is not valid JSON, the
    parse failure reaches the caller of every function that loads it, with
    the state as it was, and no caller catches it: [showTimerEndMessage()]
    is aborted before it records or announces anything, and the callback of
    the expiring timer is aborted once it has stopped its interval, before
    [resetGame()], so that neither the leaderboard nor the session
    variables change. *)
Theorem malformed_leaderboard_propagates (st : State) (raw : string) :
  localStorage st !! "leaderboard" = Some raw -> raw <> "" -> JSON_parse raw = None ->
  loadLeaderboard st = Throw SyntaxError st
  /\ (forall playerName score, updateLeaderboard playerName score st = Throw SyntaxError st)
  /\ displayLeaderboard st = Throw SyntaxError st
  /\ (leaderboardEntries (document st) <> None ->
      leaderboardPageLoaded st = Throw SyntaxError st)
  /\ showTimerEndMessage st = Throw SyntaxError st
  /\ (forall fuel, timeRemaining (vars st) <= 1 ->
        timerTick fuel st = Throw SyntaxError (expired st)
        /\ session (expired st) = session st
        /\ localStorage (expired st) = localStorage st
        /\ document (expired st) = document st).
Proof.
  intros Hraw Hne Hparse.
  assert (Hstored : storedLeaderboard st = None).
  { unfold storedLeaderboard, or_else. rewrite Hraw. by rewrite decide_False. }
  assert (Hload : loadLeaderboard st = Throw SyntaxError st).
  { by rewrite loadLeaderboard_unfold, Hstored. }
  split_and!.
  - exact Hload.
  - intros playerName score. by rewrite updateLeaderboard_unfold, Hstored.
  - unfold displayLeaderboard, mbind, M_bind. by rewrite Hload.
  - intros Hc. unfold leaderboardPageLoaded, mbind, M_bind, gets.
    destruct (leaderboardEntries (document st)); [|done].
    by rewrite Hload.
  - by rewrite showTimerEndMessage_unfold, Hstored.
  - intros fuel Htime. rewrite timerTick_unfold, Hstored.
    rewrite decide_True by lia. split; [done|]. by open_state st.
Qed.

(** *** The achievements object *)

Lemma fixed_loop fuel c options : preserves achievements (generateOptions_loop fuel c options).
Proof.
  revert options. induction fuel as [|fuel IH]; intros options st.
  - simpl. by destruct (decide _).
  - destruct (decide (length options < 4)%nat) as [Hlt|Hge].
    + rewrite generateOptions_loop_turn by done.
      specialize (IH (push_new options (candidate (random st) (randomCalls st) c 0))
                     (set_randomCalls (S (S (randomCalls st))) st)).
      destruct (generateOptions_loop fuel c _ _); [| |done]; rewrite IH; by open_state st.
    + rewrite generateOptions_loop_done by lia. done.
Qed.

Lemma fixed_shuffleOptions options : preserves achievements (shuffleOptions options).
Proof.
  intros st. unfold shuffleOptions.
  destruct (sort_random options (random st) (randomCalls st)). by open_state st.
Qed.

(** No event writes to the [achievements] object: an [awarded] property is
    never set. *)
Lemma achievements_fixed fuel ev : preserves achievements (handle fuel ev).
Proof.
  pose proof fixed_loop. pose proof fixed_shuffleOptions. frame.
  destruct (timer_callback t); unfold runCallback; frame.
Qed.

End Events.
(** ** Runs on concrete inputs *)



(** The page as loaded, with empty storage. *)
Definition fresh : State := loaded ∅ cycle5 seconds.


(** Pending timers fire, oldest first, until none is left or [n] have
    fired. *)
Fixpoint settle (n : nat) (st : State) : option State :=
  match n with
  | O => Some st
  | S n' =>
      match pending st with
      | [] => Some st
      | t :: _ => st' ← run 10 [TimerFires (timer_id t)] st; settle n' st'
      end
  end.

(** *** The accuracy achievement *)

Definition sharpShooters (st : State) : nat :=
  length (filter (fun n => note_name n = "Sharp Shooter!") (notifications (document st))).

(** C1: the accuracy achievement is declared without an [awarded] property
    and no event writes to the [achievements] object, so the test
    [!achievement.awarded] holds at every call.  A player who answers the
    first fifteen problems correctly is shown "Sharp Shooter!"; after entering
    and leaving multiplayer, which zeroes the counters, fifteen more correct
    answers show it a second time, and the flag is still undefined. *)
Theorem sharpShooter_awarded_twice :
  (forall fuel ev, preserves achievements (handle fuel ev))
  /\ (st ← started ∅;
   st1 ← answerCorrectly 15 st;
   st2 ← run 10 [ClickMultiplayer; ClickMultiplayer] st1;
   st3 ← settle 100 st2;
   st4 ← answerCorrectly 15 st3;
   Some (sharpShooters st1, pending st3, sharpShooters st4,
         accuracy_awarded <$> accuracies (achievements st4)))
     = Some (1%nat, [], 2%nat, [None]).
Proof. split; [apply achievements_fixed|]. vm_compute. reflexivity. Qed.

(** *** The option loop *)



(** The options for the answer 7 on the page as loaded. *)
Lemma generateOptions_four_distinct_witness :
  exists st',
    generateOptions 10 (of_Z 7) fresh = Ok tt st'
    /\ length (options (document st')) = 4%nat
    /\ of_Z 7 ∈ button_option <$> options (document st').
Proof.
  destruct (generateOptions 10 (of_Z 7) fresh) as [[] st'|e st'|] eqn:E.
  - exists st'. split; [done|].
    destruct (generateOptions_four_distinct 10 (of_Z 7) fresh st' E) as (Hlen & _ & Hc & _).
    by rewrite length_fmap in Hlen.
  - vm_compute in E. discriminate.
  - vm_compute in E. discriminate.
Defined.

(** *** Division problems *)


Lemma unit_draw_cycle5 n : unit_draw (cycle5 n).
Proof.
  unfold cycle5, unit_draw, Qcle, Qclt. simpl.
  rewrite !Qred_correct. unfold Qle, Qlt. simpl.
  pose proof (Nat.mod_upper_bound n 5). lia.
Qed.


(** *** Resets *)




(** *** The leaderboard *)

(** Ann 50, Bo 90 and Cy 10 are stored as Bo, Ann, Cy. *)
Lemma leaderboard_keeps_top_five_witness :
  exists st',
    recordAll [(Some "Ann", 50); (Some "Bo", 90); (Some "Cy", 10)] fresh = Ok tt st'
    /\ loadLeaderboard st'
       = Ok [ {| Entry.name := "Bo"; Entry.score := 90 |};
              {| Entry.name := "Ann"; Entry.score := 50 |};
              {| Entry.name := "Cy"; Entry.score := 10 |} ] st'.
Proof.
  destruct (leaderboard_keeps_top_five
              [(Some "Ann", 50); (Some "Bo", 90); (Some "Cy", 10)] fresh)
    as (st' & board & Hrun & Hload & -> & _).
  - apply lookup_empty.
  - exists st'. split; [done|]. rewrite Hload. reflexivity.
Defined.

(** *** Events and the session counters *)


Definition counters (st : State) : Z * Z * Z :=
  (score (vars st), streak (vars st), totalAttempts (vars st)).


(** *** A stored leaderboard that does not parse *)

Definition corrupted : gmap string string := {["leaderboard" := "[{oops"]}.

Definition spoiled : State := loaded corrupted cycle5 seconds.

(** Loading and displaying the leaderboard with the stored text [[{oops]. *)
Lemma malformed_leaderboard_propagates_witness :
  loadLeaderboard spoiled = Throw SyntaxError spoiled
  /\ displayLeaderboard spoiled = Throw SyntaxError spoiled.
Proof.
  destruct (malformed_leaderboard_propagates spoiled "[{oops")
    as (Hload & _ & Hdisplay & _).
  - apply lookup_singleton_eq.
  - discriminate.
  - reflexivity.
  - by split.
Defined.

(** What the expiry of the single-player timer leaves behind. *)
Definition outcome (r : result unit) :=
  match r with
  | Ok _ st => Some (None, counters st, winnerAnnouncement (document st),
                     storedLeaderboard st, timer_callback <$> pending st)
  | Throw e st => Some (Some e, counters st, winnerAnnouncement (document st),
                        storedLeaderboard st, timer_callback <$> pending st)
  | Timeout => None
  end.

Definition expiry (storage : gmap string string) :=
  st ← started storage;
  st1 ← run 10 [ClickTimer] st;
  st2 ← answerCorrectly 2 st1;
  st3 ← run 10 (replicate 29 (TimerFires 1%positive)) st2;
  outcome (handle 10 (TimerFires 1%positive) st3).

(** The timer is enabled, two answers are given and the thirty seconds pass.
    With the stored text [[{oops] the last tick ends in an uncaught
    [SyntaxError]: the interval is stopped, but the score is not recorded,
    nothing is announced and the counters are not reset.  With an empty
    store the same events record the score, announce it and reset. *)
Lemma malformed_leaderboard_aborts_expiry :
  expiry corrupted = Some (Some SyntaxError, (2, 2, 2), None, None, [])
  /\ expiry ∅
     = Some (None, (0, 0, 0), Some (GreatEffort None 2),
             Some [{| Entry.name := "Anonymous"; Entry.score := 2 |}],
             [TimerEndHide]).
Proof. split; vm_compute; reflexivity. Qed.

(** *** The accuracy shown *)

(** C9: with no attempts the two constants of [updateReportData()] are 0, but
    [updateStats()] evaluates the same expression without the guard:
    [0 / 0] is [NaN], and after every reset the page shows the accuracy
    "NaN%" while the stored report says "0%". *)
Theorem updateStats_shows_NaN :
  shownAccuracy initialVars = RNaN
  /\ accuracyPercentage initialVars = RInt 0
  /\ avgTime initialVars = RInt 0
  /\ (st ← started ∅;
      st1 ← answerCorrectly 3 st;
      st2 ← after (resetGame 10 st1);
      Some (accuracyText (document st1), accuracyText (document st2),
            localStorage st2 !! "accuracy"))
     = Some ("100%", "NaN%", Some "0%").
Proof. split_and!; vm_compute; reflexivity. Qed.

(** * Further properties

    What the functions of game.js do beyond the statements above: the values
    of the options, the effect of the settings, the notifications, the
    invariants of the counters, the leaderboard and its page, the clocks of
    the two modes, the confetti, and the exceptions. *)

From Stdlib Require Import Lqa.

(** ** The values of the options *)

Section OptionValues.
Context {engine : Engine}.

(** Every value the loop returns was in the array it started from or is one
    of the candidates. *)
Lemma generateOptions_loop_candidates fuel c options st r st' :
  generateOptions_loop fuel c options st = Ok r st' ->
  forall x, x ∈ r -> x ∈ options \/ exists k, x = candidate (random st) (randomCalls st) c k.
Proof.
  revert options st. induction fuel as [|fuel IH]; intros options st Hok x Hx.
  - simpl in Hok. destruct (decide (length options < 4)%nat); [done|].
    injection Hok as <- <-. by left.
  - destruct (decide (length options < 4)%nat) as [Hlt|Hge].
    + rewrite generateOptions_loop_turn in Hok by done.
      destruct (IH _ _ Hok x Hx) as [Hin|[k ->]].
      * unfold push_new in Hin. destruct (includes _ _); [by left|].
        apply elem_of_app in Hin as [Hin|Hin]; [by left|].
        apply list_elem_of_singleton in Hin. right. by exists O.
      * right. exists (S k). simpl. apply candidate_shift.
    + rewrite generateOptions_loop_done in Hok by lia.
      injection Hok as <- <-. by left.
Qed.

(** The buttons carry the values the loop returned, in the order the
    engine's sort left them in. *)
Lemma generateOptions_shown fuel c st st' :
  generateOptions fuel c st = Ok tt st' ->
  exists r st1 shuffled,
    generateOptions_loop fuel c [c] st = Ok r st1
    /\ shuffled ≡ₚ r
    /\ options (document st') = map (optionButton c) shuffled.
Proof.
  unfold generateOptions, mbind, M_bind, shuffleOptions, render, modify.
  destruct (generateOptions_loop fuel c [c] st) as [r st1| |] eqn:Hloop; [|done..].
  pose proof (sort_random_Permutation r (random st1) (randomCalls st1)) as Hperm.
  destruct (sort_random r (random st1) (randomCalls st1)) as [shuffled calls].
  simpl in Hperm. intros [= <-]. exists r, st1, shuffled. split_and!; [done..|].
  by open_state st1.
Qed.

Lemma js_add_of_Z a b : js_add (of_Z a) (of_Z b) = of_Z (a + b).
Proof. unfold js_add, of_Z. by rewrite Z2Qc_inj_add. Qed.

Lemma js_sub_of_Z a b : js_sub (of_Z a) (of_Z b) = of_Z (a - b).
Proof. unfold js_sub, js_neg, js_add, of_Z. by rewrite Z2Qc_inj_sub. Qed.

(** With a draw in [0, 1) the offset is one of 1, ..., 5. *)
Lemma candidate_near rnd n z k :
  unit_draw (rnd (n + 2 * k)%nat) ->
  exists d, 1 <= Z.abs d <= 5 /\ candidate rnd n (of_Z z) k = of_Z (z + d).
Proof.
  intros [H0 H1]. unfold candidate.
  pose proof (floor_scaled _ 5 H0 H1 eq_refl) as Hoff.
  set (offset := Math_floor _ + 1). fold offset.
  destruct (decide _).
  - exists offset. rewrite js_add_of_Z. split; [lia|done].
  - exists (- offset). rewrite js_sub_of_Z. split; [lia|done].
Qed.

(** X1: with draws in [0, 1), every option [generateOptions(c)] shows for an
    integer answer [c] is an integer that differs from [c] by at most 5. *)
Theorem options_within_five (fuel : nat) (z : Z) (st st' : State) :
  (forall n, unit_draw (random st n)) ->
  generateOptions fuel (of_Z z) st = Ok tt st' ->
  Forall (fun b => exists d, -5 <= d <= 5 /\ button_option b = of_Z (z + d))
         (options (document st')).
Proof.
  intros Hdraws Hok.
  apply generateOptions_shown in Hok as (r & st1 & shuffled & Hloop & Hperm & ->).
  apply Forall_fmap, list.Forall_forall. intros x Hx. simpl.
  rewrite Hperm in Hx.
  destruct (generateOptions_loop_candidates _ _ _ _ _ _ Hloop x Hx) as [Hc|[k ->]].
  - apply list_elem_of_singleton in Hc as ->. exists 0. split; [lia|]. f_equal. lia.
  - destruct (candidate_near (random st) (randomCalls st) z k (Hdraws _)) as (d & Hd & ->).
    exists d. split; [lia|done].
Qed.

End OptionValues.

Lemma options_within_five_witness :
  exists st',
    generateOptions 10 (of_Z 7) fresh = Ok tt st'
    /\ Forall (fun b => exists d, -5 <= d <= 5 /\ button_option b = of_Z (7 + d))
         (options (document st')).
Proof.
  destruct (generateOptions 10 (of_Z 7) fresh) as [[] st'|e st'|] eqn:E.
  - exists st'. split; [done|].
    exact (options_within_five 10 7 fresh st' unit_draw_cycle5 E).
  - vm_compute in E. discriminate.
  - vm_compute in E. discriminate.
Defined.

(** ** Problems and settings *)

Section Settings.
Context {engine : Engine}.

Definition enabled (b : OptionButton) : Prop := button_disabled b = false.

Lemma generateNewProblem_enabled fuel st st' :
  generateNewProblem fuel st = Ok tt st' -> Forall enabled (options (document st')).
Proof.
  intros Hok. apply generateNewProblem_Ok in Hok as (shuffled & calls & -> & _).
  simpl. by apply Forall_fmap, list.Forall_forall.
Qed.

Lemma generateNewProblem_pending fuel st st' :
  generateNewProblem fuel st = Ok tt st' -> pending st' = pending st.
Proof.
  intros Hok. by apply generateNewProblem_Ok in Hok as (shuffled & calls & -> & _).
Qed.

(** The state [showCountdown] returns in: the buttons are locked and the
    first time-out of the countdown is pending. *)
Definition countdownStarted (st : State) : State :=
  set_nextTimerId (Pos.succ (nextTimerId st))
    (set_pending
       (pending st ++ [{| timer_id := nextTimerId st; timer_repeats := false;
                          timer_callback := CountdownHide 1 |}])
       (set_document
          (set_options
             (map (fun b => {| button_option := button_option b;
                               button_correct := button_correct b;
                               button_disabled := true |}) (options (document st)))
             (document st)) st)).

Lemma showCountdown_unfold st : showCountdown st = Ok tt (countdownStarted st).
Proof. by open_state st. Qed.

(** X2: [showCountdown] locks the option buttons and leaves one time-out
    pending, but a change of operation or of difficulty during the countdown
    makes a new problem whose buttons are enabled, while the countdown goes
    on. *)
Theorem new_problem_lifts_countdown_lock (st : State) :
  exists st1,
    showCountdown st = Ok tt st1
    /\ Forall (fun b => button_disabled b = true) (options (document st1))
    /\ pending st1
       = pending st ++ [{| timer_id := nextTimerId st; timer_repeats := false;
                           timer_callback := CountdownHide 1 |}]
    /\ (forall fuel operation st',
          setOperation fuel operation st1 = Ok tt st' ->
          Forall enabled (options (document st')) /\ pending st' = pending st1)
    /\ (forall fuel difficulty st',
          setDifficulty fuel difficulty st1 = Ok tt st' ->
          Forall enabled (options (document st')) /\ pending st' = pending st1).
Proof.
  exists (countdownStarted st). split_and!.
  - apply showCountdown_unfold.
  - open_state st. exec. by apply Forall_fmap, list.Forall_forall.
  - by open_state st.
  - intros fuel operation st' Hok. unfold setOperation, mbind, M_bind, assign, modify in Hok.
    split; [by apply generateNewProblem_enabled in Hok|].
    apply generateNewProblem_pending in Hok. rewrite Hok. by open_state st.
  - intros fuel difficulty st' Hok. unfold setDifficulty, mbind, M_bind, assign, modify in Hok.
    split; [by apply generateNewProblem_enabled in Hok|].
    apply generateNewProblem_pending in Hok. rewrite Hok. by open_state st.
Qed.

(** The integer [calculateAnswer] returns for the three operations that
    need no division. *)
Definition wholeAnswer (op : Operation) (num1 num2 : Z) : Z :=
  match op with
  | addition => num1 + num2
  | subtraction => num1 - num2
  | _ => num1 * num2
  end.

(** X3: for addition, subtraction and multiplication, with draws in
    [0, 1), the problem shown has both operands in the range of the current
    difficulty and the symbol of the current operation, and the answer that
    every button carries, and that one button shows, is the integer
    [num1 + num2], [num1 - num2] or [num1 * num2]. *)
Theorem whole_number_problem (fuel : nat) (st st' : State) :
  currentOperation (vars st) <> division ->
  unit_draw (random st (randomCalls st)) ->
  unit_draw (random st (S (randomCalls st))) ->
  generateNewProblem fuel st = Ok tt st' ->
  exists num1 num2 : Z,
    let range := difficultyRanges (currentDifficulty (vars st)) in
    let op := currentOperation (vars st) in
    range_min range <= num1 <= range_max range
    /\ range_min range <= num2 <= range_max range
    /\ problem (document st')
       = Some {| shown_num1 := num1; shown_symbol := getOperationSymbol op; shown_num2 := num2 |}
    /\ Forall (fun b => button_correct b = of_Z (wholeAnswer op num1 num2))
         (options (document st'))
    /\ of_Z (wholeAnswer op num1 num2) ∈ button_option <$> options (document st').
Proof.
  intros Hop [H0 H0'] [H1 H1'] Hok.
  apply generateNewProblem_Ok in Hok as (shuffled & calls & -> & _ & _ & _ & Hin).
  exists (drawn st 0), (drawn st 1). cbv zeta.
  assert (Hanswer : (nextProblem st).2
                    = of_Z (wholeAnswer (currentOperation (vars st)) (drawn st 0) (drawn st 1))).
  { unfold nextProblem. rewrite decide_False by done. simpl.
    by destruct (currentOperation (vars st)). }
  pose proof (drawn_in_range st 0) as Hr0. rewrite Nat.add_0_r in Hr0.
  pose proof (drawn_in_range st 1) as Hr1. rewrite Nat.add_1_r in Hr1.
  split; [exact (Hr0 H0 H0')|]. split; [exact (Hr1 H1 H1')|]. split_and!.
  - simpl. unfold nextProblem. by rewrite decide_False.
  - simpl. rewrite <- Hanswer. by apply Forall_fmap, list.Forall_forall.
  - simpl. rewrite <- Hanswer, <- list_fmap_compose.
    apply list_elem_of_fmap. by exists (nextProblem st).2.
Qed.

(** X4: [setOperation] and [setDifficulty] assign the new setting, leave the
    other setting, the four session counters and the timers as they were, and
    the problem they show is made with the new setting: it carries the symbol
    of the new operation, and its second operand lies in the range of the new
    difficulty. *)
Theorem settings_take_effect :
  (forall fuel operation st st',
     setOperation fuel operation st = Ok tt st' ->
     currentOperation (vars st') = operation
     /\ currentDifficulty (vars st') = currentDifficulty (vars st)
     /\ session st' = session st
     /\ pending st' = pending st
     /\ exists p, problem (document st') = Some p
                  /\ shown_symbol p = getOperationSymbol operation)
  /\ (forall fuel difficulty st st',
        setDifficulty fuel difficulty st = Ok tt st' ->
        currentDifficulty (vars st') = difficulty
        /\ currentOperation (vars st') = currentOperation (vars st)
        /\ session st' = session st
        /\ pending st' = pending st
        /\ exists p, problem (document st') = Some p
             /\ (unit_draw (random st (S (randomCalls st))) ->
                 range_min (difficultyRanges difficulty) <= shown_num2 p
                 <= range_max (difficultyRanges difficulty))).
Proof.
  split.
  - intros fuel operation st st' Hok.
    unfold setOperation, mbind, M_bind, assign, modify in Hok.
    apply generateNewProblem_Ok in Hok as (shuffled & calls & -> & _).
    split_and!; [by open_state st..|].
    eexists. split; [reflexivity|].
    unfold nextProblem. destruct (decide _) as [Hd|Hd]; simpl.
    + revert Hd. open_state st. exec. by intros ->.
    + by open_state st.
  - intros fuel difficulty st st' Hok.
    unfold setDifficulty, mbind, M_bind, assign, modify in Hok.
    apply generateNewProblem_Ok in Hok as (shuffled & calls & -> & _).
    split_and!; [by open_state st..|].
    eexists. split; [reflexivity|]. intros [H0 H1].
    set (st0 := set_vars (set_currentDifficulty difficulty (vars st)) st).
    assert (Hd : currentDifficulty (vars st0) = difficulty) by (by open_state st).
    assert (Hr : random st0 (randomCalls st0 + 1)%nat = random st (S (randomCalls st))).
    { subst st0. open_state st. exec. by rewrite Nat.add_1_r. }
    pose proof (drawn_in_range st0 1) as Hrange. rewrite Hr, Hd in Hrange.
    specialize (Hrange H0 H1). cbv zeta in Hrange.
    unfold nextProblem. by destruct (decide _).
Qed.

End Settings.

Lemma whole_number_problem_witness :
  exists st' num1 num2,
    generateNewProblem 10 fresh = Ok tt st'
    /\ problem (document st')
       = Some {| shown_num1 := num1; shown_symbol := "+"; shown_num2 := num2 |}
    /\ of_Z (num1 + num2) ∈ button_option <$> options (document st').
Proof.
  destruct (generateNewProblem 10 fresh) as [[] st'|e st'|] eqn:E.
  - destruct (whole_number_problem 10 fresh st' ltac:(discriminate)
                (unit_draw_cycle5 0) (unit_draw_cycle5 1) E)
      as (num1 & num2 & _ & _ & Hshown & _ & Hin).
    by exists st', num1, num2.
  - vm_compute in E. discriminate.
  - vm_compute in E. discriminate.
Defined.

(** ** Percentages *)

Lemma Qc_of_Z_nonzero z : z <> 0 -> Qc_of_Z z <> 0%Qc.
Proof. intros Hz. rewrite <- Z2Qc_inj_0. by intros ?%Z2Qc_inj. Qed.

Lemma ratio_hundred (s a : Z) :
  a <> 0 -> (Qc_of_Z s / Qc_of_Z a * Qc_of_Z 100 = Qc_of_Z 100)%Qc <-> s = a.
Proof.
  intros Ha. pose proof (Qc_of_Z_nonzero a Ha) as Ha'. split.
  - intros H. apply Z2Qc_inj.
    assert (H100 : Qc_of_Z 100 <> 0%Qc) by (by apply Qc_of_Z_nonzero).
    transitivity ((Qc_of_Z s / Qc_of_Z a * Qc_of_Z 100) * (Qc_of_Z a / Qc_of_Z 100))%Qc.
    + field. by split.
    + rewrite H. field. done.
  - intros ->. field. done.
Qed.

Lemma percentage_value (s a : Z) :
  (this (Qc_of_Z s / Qc_of_Z a * Qc_of_Z 100 + Q2Qc (1 # 2))%Qc
   == inject_Z s / inject_Z a * inject_Z 100 + (1 # 2))%Q.
Proof.
  unfold Qcplus, Qcmult, Qcdiv, Qcinv, Qc_of_Z, Q2Qc. simpl this.
  by rewrite !Qred_correct.
Qed.

Lemma round_percentage (s a : Z) :
  0 <= s <= a -> 0 < a ->
  0 <= Math_round_Qc (Qc_of_Z s / Qc_of_Z a * Qc_of_Z 100)%Qc <= 100.
Proof.
  intros Hs Ha. unfold Math_round_Qc. rewrite percentage_value.
  assert (Hr : (0 <= inject_Z s / inject_Z a <= 1)%Q).
  { assert (0 < inject_Z a)%Q by (change 0%Q with (inject_Z 0); rewrite <- Zlt_Qlt; lia).
    split.
    - apply Qle_shift_div_l; [done|]. rewrite Qmult_0_l.
      change 0%Q with (inject_Z 0). rewrite <- Zle_Qle. lia.
    - apply Qle_shift_div_r; [done|]. rewrite Qmult_1_l. rewrite <- Zle_Qle. lia. }
  set (r := (inject_Z s / inject_Z a)%Q) in *. destruct Hr as [Hr0 Hr1].
  split.
  - apply (Qfloor_resp_le 0). change (inject_Z 100) with (100 # 1)%Q. lra.
  - apply (Qfloor_resp_le _ (201 # 2)). change (inject_Z 100) with (100 # 1)%Q. lra.
Qed.

(** ** Answers: notifications and counters *)

Section Answering.
Context {engine : Engine}.

Definition note (name description : string) : Notification :=
  {| note_name := name; note_description := description |}.

(** The streak notification for a streak of [s]. *)
Definition streakReached (s : Z) : list Notification :=
  if decide (s = 5) then [note "High Five!" "Get a streak of 5 correct answers"]
  else if decide (s = 10) then [note "Perfect Ten!" "Get a streak of 10 correct answers"]
  else if decide (s = 15) then [note "Unstoppable!" "Get a streak of 15 correct answers"]
  else if decide (s = 20) then [note "Math Master!" "Get a streak of 20 correct answers"]
  else [].

Definition sharpShot (g : Globals) : list Notification :=
  if decide (totalAttempts g = 15 /\ score g = 15)
  then [note "Sharp Shooter!" "100% accuracy over 15 questions"]
  else [].

Lemma strict_eq_percentage (s a : Z) :
  a <> 0 ->
  strict_eq (js_mul (js_div (of_Z s) (of_Z a)) (of_Z 100)) (of_Z 100) = bool_decide (s = a).
Proof.
  intros Ha. unfold js_div, of_Z, Qc_zero.
  rewrite (bool_decide_eq_false_2 _ (Qc_of_Z_nonzero a Ha)). cbn [js_mul strict_eq].
  apply bool_decide_ext. split.
  - intros H. apply (ratio_hundred s a Ha). congruence.
  - intros Hs. f_equal. by apply ratio_hundred.
Qed.

Lemma earned_initial st :
  achievements st = initialAchievements ->
  earned st = streakReached (streak (vars st)) ++ sharpShot (vars st).
Proof.
  intros Hinit. unfold earned. rewrite Hinit. f_equal.
  - unfold streakReached, streakNote, note. simpl.
    repeat (destruct (decide _); try lia); reflexivity.
  - change (accuracies initialAchievements ≫= accuracyNote (vars st))
      with (accuracyNote (vars st) sharpShooter ++ []).
    rewrite app_nil_r. unfold sharpShot, accuracyNote, note.
    cbn [sharpShooter accuracy_awarded accuracy_requirement accuracy questions
         accuracy_name accuracy_description not_awarded andb].
    destruct (decide (totalAttempts (vars st) = 15)) as [Ha|Ha].
    + rewrite Ha, strict_eq_percentage by done.
      rewrite bool_decide_eq_true_2 by done. cbn [andb].
      destruct (decide (score (vars st) = 15)) as [Hs|Hs].
      * rewrite bool_decide_eq_true_2 by done. by rewrite decide_True.
      * rewrite bool_decide_eq_false_2 by done. rewrite decide_False; [done|tauto].
    + rewrite (bool_decide_eq_false_2 _ Ha). cbn [andb]. rewrite decide_False; [done|tauto].
Qed.

Lemma checkAnswer_Ok fuel selected correct st st' :
  checkAnswer fuel selected correct st = Ok tt st' ->
  exists shuffled calls,
    st' = problemReady (answered selected correct st) shuffled calls.
Proof.
  rewrite checkAnswer_unfold. intros Hok.
  apply generateNewProblem_Ok in Hok as (shuffled & calls & -> & _). eauto.
Qed.

(** X5: an answer appends to the page, in this order, the notification of
    the streak achievement whose threshold the new streak equals (5, 10, 15
    or 20), if any, and "Sharp Shooter!" when the new counters are 15 attempts
    and 15 correct; it appends nothing else and removes nothing. *)
Theorem achievements_after_answer (fuel : nat) (selected correct : number) (st st' : State) :
  achievements st = initialAchievements ->
  checkAnswer fuel selected correct st = Ok tt st' ->
  notifications (document st')
  = notifications (document st)
    ++ streakReached (streak (vars st')) ++ sharpShot (vars st').
Proof.
  intros Hinit Hok. apply checkAnswer_Ok in Hok as (shuffled & calls & ->).
  unfold answered.
  set (st1 := statsShown _).
  assert (H1 : achievements st1 = initialAchievements) by (rewrite <- Hinit; by open_state st).
  assert (Hn : notifications (document st1) = notifications (document st)) by (by open_state st).
  assert (Hnotes : forall notes,
            notifications (document (problemReady (reported (notified notes st1)) shuffled calls))
            = notifications (document st1) ++ notes).
  { intros notes. clearbody st1. by open_state st1. }
  rewrite Hnotes, (earned_initial st1 H1), Hn. f_equal.
Qed.

(** The five counters and what the script keeps true of them. *)
Definition counters_ok (st : State) : Prop :=
  let g := vars st in
  0 <= score g <= totalAttempts g
  /\ 0 <= streak g <= totalAttempts g
  /\ 0 <= p1Score g /\ 0 <= p2Score g
  /\ p1Score g + p2Score g <= totalAttempts g.

Definition tally (st : State) : Z * Z * Z * Z * Z :=
  let g := vars st in (score g, streak g, totalAttempts g, p1Score g, p2Score g).

(** [m] keeps [I] true, whether it returns or throws. *)
Definition maintains {A} (I : State -> Prop) (m : M A) : Prop :=
  forall st, I st ->
    match m st with
    | Ok _ st' | Throw _ st' => I st'
    | Timeout => True
    end.

Lemma maintains_bind {A B} (I : State -> Prop) (m : M A) (f : A -> M B) :
  maintains I m -> (forall a, maintains I (f a)) -> maintains I (m ≫= f).
Proof.
  intros Hm Hf st HI. unfold mbind, M_bind. specialize (Hm st HI).
  destruct (m st) as [a st1|e st1|]; [|done..]. by apply Hf.
Qed.

Lemma maintains_preserves {A X} (I : State -> Prop) (p : State -> X) (m : M A) :
  (forall st st', p st' = p st -> I st -> I st') ->
  preserves p m -> maintains I m.
Proof.
  intros HI Hm st Hst. specialize (Hm st).
  destruct (m st); [| |done]; by eapply HI.
Qed.

Lemma counters_ok_tally st st' : tally st' = tally st -> counters_ok st -> counters_ok st'.
Proof. unfold tally, counters_ok. cbv zeta. by intros [= -> -> -> -> ->]. Qed.

Lemma tally_generateNewProblem fuel : preserves tally (generateNewProblem fuel).
Proof.
  intros st. destruct (generateNewProblem fuel st) as [[] st1|e st1|] eqn:Hgen; [| |done].
  - apply generateNewProblem_Ok in Hgen as (shuffled & calls & -> & _). by open_state st.
  - by destruct (generateNewProblem_no_throw fuel st e st1).
Qed.

(** [m] leaves the observation [p] at [v], whether it returns or throws. *)
Definition settles {X A} (p : State -> X) (v : X) (m : M A) : Prop :=
  forall st,
    match m st with
    | Ok _ st' | Throw _ st' => p st' = v
    | Timeout => True
    end.

Lemma settles_then_preserves {X A B} (p : State -> X) v (m : M A) (f : A -> M B) :
  settles p v m -> (forall a, preserves p (f a)) -> settles p v (m ≫= f).
Proof.
  intros Hm Hf st. unfold mbind, M_bind. specialize (Hm st).
  destruct (m st) as [a st1|e st1|]; [|done..].
  specialize (Hf a st1). destruct (f a st1); congruence.
Qed.

Lemma then_settles {X A B} (p : State -> X) v (m : M A) (f : A -> M B) :
  never_throws m -> (forall a, settles p v (f a)) -> settles p v (m ≫= f).
Proof.
  intros Hm Hf st. unfold mbind, M_bind. specialize (Hm st).
  destruct (m st) as [a st1|e st1|]; [|by destruct (Hm e st1)|done].
  apply Hf.
Qed.

Lemma maintains_settles {A} (I : State -> Prop) {X} (p : State -> X) v (m : M A) :
  (forall st, p st = v -> I st) -> settles p v m -> maintains I m.
Proof.
  intros HI Hm st _. specialize (Hm st). destruct (m st); [| |done]; by apply HI.
Qed.

Definition noTally : Z * Z * Z * Z * Z := (0, 0, 0, 0, 0).

Lemma counters_ok_noTally st : tally st = noTally -> counters_ok st.
Proof. unfold tally, counters_ok, noTally. cbv zeta. intros [= -> -> -> -> ->]. lia. Qed.

Lemma tally_resetGame fuel : settles tally noTally (resetGame fuel).
Proof.
  intros st. rewrite resetGame_unfold.
  pose proof (tally_generateNewProblem fuel (resetState st)) as H.
  destruct (generateNewProblem fuel (resetState st)); [| |done];
    rewrite H; by open_state st.
Qed.

Lemma tally_disableOptions disable : preserves tally (disableOptions disable).
Proof. unfold disableOptions. frame. Qed.

Lemma tally_showCountdown : preserves tally showCountdown.
Proof. intros st. by rewrite showCountdown_unfold; open_state st. Qed.

Lemma tally_startMultiplayerRound fuel : settles tally noTally (startMultiplayerRound fuel).
Proof.
  unfold startMultiplayerRound. intros st. unfold mbind at 1, M_bind at 1.
  pose proof (tally_resetGame fuel st) as H.
  destruct (resetGame fuel st) as [[] st1|e st1|]; [|done..].
  unfold assign, modify, mbind, M_bind. rewrite showCountdown_unfold.
  revert H. unfold tally, noTally. open_state st1. exec. by intros [= -> -> -> -> ->].
Qed.

Lemma tally_toggleMultiplayer fuel : settles tally noTally (toggleMultiplayer fuel).
Proof.
  unfold toggleMultiplayer.
  apply then_settles; [done|intros _].
  apply then_settles; [done|intros [|]].
  - apply tally_startMultiplayerRound.
  - apply then_settles; [done|intros h].
    apply then_settles; [by destruct h|intros _].
    apply tally_resetGame.
Qed.

Lemma tally_winnerCleanup fuel : settles tally noTally (winnerCleanup fuel).
Proof.
  unfold winnerCleanup. do 2 (apply then_settles; [done|intros _]).
  apply tally_resetGame.
Qed.

Lemma counters_ok_toggleTimer : maintains counters_ok toggleTimer.
Proof.
  intros st. unfold toggleTimer, counters_ok. open_state st. exec.
  repeat (split_if; exec); cbv zeta; simpl; lia.
Qed.

Lemma counters_ok_checkAnswer fuel selected correct :
  maintains counters_ok (checkAnswer fuel selected correct).
Proof.
  intros st HI.
  destruct (checkAnswer fuel selected correct st) as [[] st1|e st1|] eqn:Hc; [| |done].
  - apply checkAnswer_Ok in Hc as (shuffled & calls & ->).
    revert HI. unfold counters_ok, answered, answeredVars. cbv zeta.
    destruct (strict_eq selected correct); open_state st; exec; [|simpl; lia].
    split_if; exec; [split_if; exec|]; simpl; lia.
  - by destruct (checkAnswer_no_throw fuel selected correct st e st1).
Qed.

Lemma counters_ok_timerTick fuel : maintains counters_ok (timerTick fuel).
Proof.
  intros st HI. rewrite timerTick_unfold.
  destruct (decide _).
  - destruct (storedLeaderboard st) as [board|].
    + pose proof (tally_resetGame fuel (announced board (expired st))) as H.
      destruct (resetGame fuel _); [| |done]; by apply counters_ok_noTally.
    + revert HI. unfold counters_ok. by open_state st.
  - revert HI. unfold counters_ok. by open_state st.
Qed.

Lemma tally_runCallback fuel cb :
  cb <> TimerTick -> cb <> WinnerCleanup -> preserves tally (runCallback fuel cb).
Proof.
  intros Htick Hclean.
  pose proof tally_showCountdown. pose proof tally_disableOptions.
  destruct cb; try done; unfold runCallback; frame.
Qed.

Lemma counters_ok_fire fuel id : maintains counters_ok (fire fuel id).
Proof.
  intros st HI. rewrite fire_unfold.
  destruct (find _ (pending st)) as [[tid repeats cb]|]; [|done]. simpl.
  set (st0 := if repeats then st else set_pending (cancel id (pending st)) st).
  assert (HI0 : counters_ok st0).
  { subst st0. destruct repeats; [done|]. revert HI. unfold counters_ok. by open_state st. }
  clearbody st0. clear HI.
  destruct (decide (cb = TimerTick)) as [->|Htick].
  { by apply counters_ok_timerTick. }
  destruct (decide (cb = WinnerCleanup)) as [->|Hclean].
  { pose proof (tally_winnerCleanup fuel st0) as H. simpl.
    destruct (winnerCleanup fuel st0); [| |done]; by apply counters_ok_noTally. }
  pose proof (tally_runCallback fuel cb Htick Hclean st0) as H.
  destruct (runCallback fuel cb st0); [| |done]; by eapply counters_ok_tally.
Qed.

(** X6: every event keeps [0 <= score <= totalAttempts],
    [0 <= streak <= totalAttempts], [0 <= p1Score], [0 <= p2Score] and
    [p1Score + p2Score <= totalAttempts]. *)
Theorem counters_stay_consistent (fuel : nat) (ev : Event) (st st' : State) :
  counters_ok st ->
  after (handle fuel ev st) = Some st' ->
  counters_ok st'.
Proof.
  intros HI.
  assert (Hm : maintains counters_ok (handle fuel ev)).
  { unfold handle. apply maintains_bind; [by intros s Hs|intros [gone|]; [by intros s Hs|]].
    destruct ev as [index|operation|difficulty| | | |id| |].
    - unfold clickOption. apply maintains_bind; [by intros s Hs|intros buttons].
      destruct (buttons !! index) as [b|]; [|by intros s Hs].
      destruct (button_disabled b); [by intros s Hs|]. apply counters_ok_checkAnswer.
    - apply (maintains_preserves _ tally); [apply counters_ok_tally|].
      unfold setOperation. pose proof tally_generateNewProblem. frame.
    - apply (maintains_preserves _ tally); [apply counters_ok_tally|].
      unfold setDifficulty. pose proof tally_generateNewProblem. frame.
    - apply counters_ok_toggleTimer.
    - apply (maintains_settles _ tally noTally); [apply counters_ok_noTally|].
      apply tally_toggleMultiplayer.
    - apply (maintains_preserves _ tally); [apply counters_ok_tally|].
      unfold toggleMusic. frame.
    - apply counters_ok_fire.
    - apply (maintains_preserves _ tally); [apply counters_ok_tally|].
      unfold leaderboardPageLoaded, loadLeaderboard. frame.
    - apply (maintains_preserves _ tally); [apply counters_ok_tally|].
      unfold displayLeaderboard, loadLeaderboard. frame. }
  specialize (Hm st HI). destruct (handle fuel ev st); [| |done]; by intros [= <-].
Qed.

End Answering.

(** ** The statistics after an answer *)

Section Statistics.
Context {engine : Engine}.

(** With at least one attempt the guarded and the unguarded percentage are
    the same rounded quotient. *)
Lemma percentage_attempted g :
  0 < totalAttempts g ->
  let z := Math_round_Qc (Qc_of_Z (score g) / Qc_of_Z (totalAttempts g) * Qc_of_Z 100)%Qc in
  shownAccuracy g = RInt z /\ accuracyPercentage g = RInt z.
Proof.
  intros Ha z. unfold accuracyPercentage, shownAccuracy.
  rewrite decide_True by lia.
  unfold js_div, of_Z, Qc_zero.
  assert (Hne : totalAttempts g <> 0) by lia.
  by rewrite (bool_decide_eq_false_2 _ (Qc_of_Z_nonzero _ Hne)).
Qed.

(** X7: after an answer the accuracy on the page and the accuracy in the
    stored report are the same whole percentage between 0 and 100, and the
    stored number of questions is the new [totalAttempts]. *)
Theorem accuracy_after_answer (fuel : nat) (selected correct : number) (st st' : State) :
  counters_ok st ->
  checkAnswer fuel selected correct st = Ok tt st' ->
  exists z,
    0 <= z <= 100
    /\ accuracyText (document st') = show_Z z +:+ "%"
    /\ localStorage st' !! "accuracy" = Some (show_Z z +:+ "%")
    /\ localStorage st' !! "questionsSolved" = Some (show_Z (totalAttempts (vars st)  + 1)).
Proof.
  intros HI Hok. apply checkAnswer_Ok in Hok as (shuffled & calls & ->).
  set (g1 := answeredVars (strict_eq selected correct) (clock st (clockCalls st)) (vars st)).
  assert (Hg1 : 0 <= score g1 <= totalAttempts g1 /\ 0 < totalAttempts g1
                /\ totalAttempts g1 = totalAttempts (vars st) + 1).
  { revert HI. subst g1. unfold counters_ok, answeredVars. cbv zeta.
    destruct (strict_eq selected correct); open_state st; exec; [|simpl; lia].
    split_if; exec; [split_if; exec|]; simpl; lia. }
  destruct Hg1 as (Hs & Ha & Heq).
  destruct (percentage_attempted g1 Ha) as [Hshown Hreport].
  eexists. split; [exact (round_percentage _ _ Hs Ha)|].
  assert (Htext : accuracyText (document (problemReady (answered selected correct st) shuffled calls))
                  = show_rounded (shownAccuracy g1) +:+ "%") by (by open_state st).
  assert (Hstore : localStorage (problemReady (answered selected correct st) shuffled calls)
                   = <["avgTime" := show_rounded (avgTime g1) +:+ "s"]>
                       (<["questionsSolved" := show_Z (totalAttempts g1)]>
                          (<["accuracy" := show_rounded (accuracyPercentage g1) +:+ "%"]>
                             (localStorage st)))) by (by open_state st).
  rewrite Htext, Hstore, Hshown, Hreport, Heq. split_and!.
  - done.
  - rewrite lookup_insert_ne by done. rewrite lookup_insert_ne by done.
    by rewrite lookup_insert_eq.
  - rewrite lookup_insert_ne by done. by rewrite lookup_insert_eq.
Qed.


End Statistics.

(** ** Notifications stay *)

Section Notifications.
Context {engine : Engine}.

(** The option loop and the shuffle change nothing but the count of
    draws. *)
Lemma preserves_loop {X} (p : State -> X) :
  (forall n st, p (set_randomCalls n st) = p st) ->
  forall fuel c options, preserves p (generateOptions_loop fuel c options).
Proof.
  intros Hp fuel c. induction fuel as [|fuel IH]; intros options st.
  - simpl. by destruct (decide _).
  - destruct (decide (length options < 4)%nat) as [Hlt|Hge].
    + rewrite generateOptions_loop_turn by done.
      specialize (IH (push_new options (candidate (random st) (randomCalls st) c 0))
                     (set_randomCalls (S (S (randomCalls st))) st)).
      destruct (generateOptions_loop fuel c _ _); [| |done]; by rewrite IH, Hp.
    + rewrite generateOptions_loop_done by lia. done.
Qed.

Lemma preserves_shuffleOptions {X} (p : State -> X) :
  (forall n st, p (set_randomCalls n st) = p st) ->
  forall options, preserves p (shuffleOptions options).
Proof.
  intros Hp options st. unfold shuffleOptions.
  destruct (sort_random options (random st) (randomCalls st)). apply Hp.
Qed.

(** The achievement notifications on the page. *)
Definition noted (st : State) : list Notification := notifications (document st).

Lemma noted_randomCalls n st : noted (set_randomCalls n st) = noted st.
Proof. by open_state st. Qed.

(** X9: achievement notifications are never removed: a click on an option
    button keeps the ones on the page, in their order, and may append new
    ones; every other event leaves them as they are. *)
Theorem notifications_only_grow (fuel : nat) (ev : Event) (st st' : State) :
  after (handle fuel ev st) = Some st' ->
  match ev with
  | ClickOption _ => noted st `prefix_of` noted st'
  | _ => noted st' = noted st
  end.
Proof.
  pose proof (preserves_loop noted noted_randomCalls) as Hloop.
  pose proof (preserves_shuffleOptions noted noted_randomCalls) as Hshuffle.
  destruct ev as [index|operation|difficulty| | | |id| |].
  - unfold handle, clickOption, mbind, M_bind, gets.
    destruct (location (document st)); [by intros [= <-]|].
    destruct (options (document st) !! index) as [b|]; [|by intros [= <-]].
    destruct (button_disabled b); [by intros [= <-]|].
    destruct (checkAnswer fuel (button_option b) (button_correct b) st)
      as [[] st1|e st1|] eqn:Hc; [| |done].
    + intros [= <-]. apply checkAnswer_Ok in Hc as (shuffled & calls & ->).
      unfold answered. set (st1 := statsShown _). set (notes := earned st1).
      exists notes. clearbody notes. unfold noted. by open_state st.
    + by destruct (checkAnswer_no_throw fuel (button_option b) (button_correct b) st e st1).
  - assert (H : preserves noted (handle fuel (ClickOperation operation))) by frame.
    specialize (H st). destruct (handle _ _ st); [| |done]; by intros [= <-].
  - assert (H : preserves noted (handle fuel (ClickDifficulty difficulty))) by frame.
    specialize (H st). destruct (handle _ _ st); [| |done]; by intros [= <-].
  - assert (H : preserves noted (handle fuel ClickTimer)) by frame.
    specialize (H st). destruct (handle _ _ st); [| |done]; by intros [= <-].
  - assert (H : preserves noted (handle fuel ClickMultiplayer)) by frame.
    specialize (H st). destruct (handle _ _ st); [| |done]; by intros [= <-].
  - assert (H : preserves noted (handle fuel ClickMusic)) by frame.
    specialize (H st). destruct (handle _ _ st); [| |done]; by intros [= <-].
  - assert (H : preserves noted (handle fuel (TimerFires id))).
    { frame. destruct (timer_callback t); unfold runCallback; frame. }
    specialize (H st). destruct (handle _ _ st); [| |done]; by intros [= <-].
  - assert (H : preserves noted (handle fuel ContentLoaded)) by frame.
    specialize (H st). destruct (handle _ _ st); [| |done]; by intros [= <-].
  - assert (H : preserves noted (handle fuel ContentLoaded')) by frame.
    specialize (H st). destruct (handle _ _ st); [| |done]; by intros [= <-].
Qed.

End Notifications.

(** ** The leaderboard and its page *)

Section Board.
Context {engine : Engine}.

(** X10: whatever list the stored leaderboard parses to, sorted or not and
    of any length, [updateLeaderboard] stores the first five of its stable
    descending arrangement with the new entry: the result is sorted, has
    [min (n + 1) 5] entries taken from the old ones and the new one, and
    nothing but the key 'leaderboard' is written. *)
Theorem updateLeaderboard_normalises (playerName : option string) (score : Z)
    (st : State) (board : list Entry.t) :
  storedLeaderboard st = Some board ->
  let entry := {| Entry.name := resolveName playerName st; Entry.score := score |} in
  exists st' board',
    updateLeaderboard playerName score st = Ok tt st'
    /\ storedLeaderboard st' = Some board'
    /\ board' = take 5 (sort_by_score (board ++ [entry]))
    /\ StronglySorted above board'
    /\ length board' = (S (length board) `min` 5)%nat
    /\ board' ⊆ entry :: board
    /\ (forall key, key <> "leaderboard" -> localStorage st' !! key = localStorage st !! key)
    /\ vars st' = vars st /\ document st' = document st /\ pending st' = pending st.
Proof.
  intros Hstored entry. rewrite updateLeaderboard_unfold, Hstored. fold entry.
  pose proof (sort_by_score_sorted (board ++ [entry])) as Hsorted.
  rewrite <- (take_drop 5 (sort_by_score (board ++ [entry]))) in Hsorted.
  eexists _, _. split_and!; [reflexivity|apply storedLeaderboard_written|reflexivity|..].
  - by apply StronglySorted_app_1_l in Hsorted.
  - rewrite length_take, (Permutation_length (sort_by_score_Permutation _)), length_app.
    cbn [length]. lia.
  - intros x Hx. apply subseteq_take in Hx.
    rewrite sort_by_score_Permutation in Hx. set_solver.
  - intros key Hkey. clear -Hkey. open_state st. exec. by rewrite lookup_insert_ne.
  - by open_state st.
  - by open_state st.
  - by open_state st.
Qed.

(** Where the stable sort puts a new entry: behind the entries that score
    at least as much, before the first that scores less. *)
Lemma insert_entry_split e l :
  exists l1 l2,
    l = l1 ++ l2 /\ insert_entry e l = l1 ++ e :: l2
    /\ Forall (fun x => Entry.score e <= Entry.score x) l1
    /\ match l2 with
       | [] => True
       | x :: _ => Entry.score x < Entry.score e
       end.
Proof.
  induction l as [|x l (l1 & l2 & -> & Hins & Hl1 & Hl2)]; simpl.
  - by exists [], [].
  - destruct (decide (Entry.score e <= Entry.score x)) as [Hle|Hgt].
    + exists (x :: l1), l2. rewrite Hins. split_and!; [done|done| |done]. by constructor.
    + exists [], (x :: l1 ++ l2). split_and!; [done|done|constructor|lia].
Qed.

(** X11: on a sorted leaderboard of five, a new score that beats none of
    the five, a tie with the last included, leaves the leaderboard as it
    was; a score that beats one of them enters, and the leaderboard still has
    five entries. *)
Theorem full_board_admits_only_higher_scores (playerName : option string) (score : Z)
    (st : State) (board : list Entry.t) :
  storedLeaderboard st = Some board ->
  StronglySorted above board ->
  length board = 5%nat ->
  let entry := {| Entry.name := resolveName playerName st; Entry.score := score |} in
  exists st' board',
    updateLeaderboard playerName score st = Ok tt st'
    /\ storedLeaderboard st' = Some board'
    /\ ((forall e, e ∈ board -> score <= Entry.score e) -> board' = board)
    /\ (forall e, e ∈ board -> Entry.score e < score ->
          entry ∈ board' /\ length board' = 5%nat).
Proof.
  intros Hstored Hsorted Hlen entry. rewrite updateLeaderboard_unfold, Hstored. fold entry.
  eexists _, _. split_and!; [reflexivity|apply storedLeaderboard_written|..].
  - intros Hall. rewrite sort_by_score_snoc, sort_by_score_sorted_id by done.
    rewrite insert_entry_last by (by apply list.Forall_forall).
    rewrite take_app_length'; done.
  - intros e He Hlow. rewrite sort_by_score_snoc, sort_by_score_sorted_id by done.
    destruct (insert_entry_split entry board) as (l1 & l2 & Hb & -> & Hl1 & Hl2).
    assert (Hl2' : l2 <> []).
    { intros ->. rewrite app_nil_r in Hb. subst l1.
      rewrite list.Forall_forall in Hl1. specialize (Hl1 e He). simpl in Hl1. lia. }
    rewrite Hb, length_app in Hlen.
    assert (length l1 < 5)%nat by (destruct l2; [done|simpl in Hlen; lia]).
    split.
    + apply list_elem_of_lookup. exists (length l1).
      rewrite lookup_take_lt by done. by rewrite list_lookup_middle.
    + rewrite length_take, length_app. cbn [length]. lia.
Qed.

(** The rows the two loops of the leaderboard page make. *)
Lemma fillEmptySlots_lookup missing rows i :
  fillEmptySlots missing rows !! i
  = if decide (i < length rows)%nat then rows !! i
    else if decide (i < length rows + missing)%nat then Some (EmptyRow (Z.of_nat i + 1))
    else None.
Proof.
  revert rows. induction missing as [|missing IH]; intros rows; simpl.
  - destruct (decide (i < length rows)%nat); [done|].
    rewrite decide_False by lia. apply lookup_ge_None. lia.
  - rewrite IH, length_app. simpl.
    destruct (decide (i < length rows)%nat) as [Hlt|Hge].
    + rewrite decide_True by lia. by rewrite lookup_app_l.
    + destruct (decide (i = length rows)) as [->|Hne].
      * rewrite decide_True by lia. rewrite decide_True by lia.
        by rewrite list_lookup_middle.
      * rewrite decide_False by lia.
        destruct (decide (i < length rows + S missing)%nat).
        -- by rewrite decide_True by lia.
        -- by rewrite decide_False by lia.
Qed.

Lemma fillEmptySlots_length missing rows :
  length (fillEmptySlots missing rows) = (length rows + missing)%nat.
Proof.
  revert rows. induction missing as [|missing IH]; intros rows; simpl; [lia|].
  rewrite IH, length_app. simpl. lia.
Qed.

(** The page once the rows of [board] have replaced what the container
    held. *)
Definition listed (board : list Entry.t) (st : State) : State :=
  set_document (set_leaderboardEntries (Some (leaderboardRows board)) (document st)) st.

Lemma displayLeaderboard_unfold st :
  displayLeaderboard st
  = match storedLeaderboard st with
    | Some board =>
        match leaderboardEntries (document st) with
        | Some _ => Ok tt (listed board st)
        | None => Ok tt st
        end
    | None => Throw SyntaxError st
    end.
Proof.
  unfold displayLeaderboard, mbind, M_bind, gets. rewrite loadLeaderboard_unfold.
  destruct (storedLeaderboard st); [|done].
  by destruct (leaderboardEntries (document st)).
Qed.

Lemma leaderboardPageLoaded_unfold st :
  leaderboardPageLoaded st
  = match leaderboardEntries (document st) with
    | Some _ =>
        match storedLeaderboard st with
        | Some board => Ok tt (listed board st)
        | None => Throw SyntaxError st
        end
    | None => Ok tt st
    end.
Proof.
  unfold leaderboardPageLoaded, mbind, M_bind, gets.
  destruct (leaderboardEntries (document st)); [|done].
  rewrite loadLeaderboard_unfold. by destruct (storedLeaderboard st).
Qed.

(** X12: on the leaderboard page [displayLeaderboard()] replaces the rows
    of the container: row [i] shows rank [i + 1], name and score of the
    [i]-th stored entry, the rows up to the fifth that have no entry show
    rank [i + 1] and dashes, and there are [max n 5] rows; variables, storage
    and timers are untouched. *)
Theorem displayLeaderboard_rows (st : State) (board : list Entry.t) (old : list Row) :
  storedLeaderboard st = Some board ->
  leaderboardEntries (document st) = Some old ->
  exists st' rows,
    displayLeaderboard st = Ok tt st'
    /\ leaderboardEntries (document st') = Some rows
    /\ length rows = (length board `max` 5)%nat
    /\ (forall i,
          rows !! i
          = match board !! i with
            | Some e => Some (EntryRow (Z.of_nat i + 1) (Entry.name e) (Entry.score e))
            | None => if decide (i < 5)%nat then Some (EmptyRow (Z.of_nat i + 1)) else None
            end)
    /\ vars st' = vars st /\ localStorage st' = localStorage st /\ pending st' = pending st.
Proof.
  intros Hstored Hold. rewrite displayLeaderboard_unfold, Hstored, Hold.
  exists (listed board st), (leaderboardRows board).
  split_and!; [reflexivity|by open_state st| | |by open_state st..].
  - unfold leaderboardRows. rewrite fillEmptySlots_length, length_imap. lia.
  - intros i. unfold leaderboardRows. rewrite fillEmptySlots_lookup, length_imap.
    rewrite list_lookup_imap.
    destruct (board !! i) as [e|] eqn:Hi.
    + apply lookup_lt_Some in Hi as Hlt. by rewrite decide_True.
    + apply lookup_ge_None in Hi. rewrite decide_False by lia. simpl.
      destruct (decide (i < 5)%nat).
      * by rewrite decide_True by lia.
      * by rewrite decide_False by lia.
Qed.

(** X13: on the leaderboard page the two [DOMContentLoaded] listeners do
    the same, and [displayLeaderboard()] run again changes nothing; on a page
    without the container the first listener does nothing and
    [displayLeaderboard()] leaves the state as it was, whether it returns or
    throws. *)
Theorem leaderboard_listeners_agree (st : State) :
  (leaderboardEntries (document st) <> None ->
   leaderboardPageLoaded st = displayLeaderboard st)
  /\ (forall st', displayLeaderboard st = Ok tt st' -> displayLeaderboard st' = Ok tt st')
  /\ (leaderboardEntries (document st) = None ->
      leaderboardPageLoaded st = Ok tt st
      /\ forall st', after (displayLeaderboard st) = Some st' -> st' = st).
Proof.
  rewrite leaderboardPageLoaded_unfold, displayLeaderboard_unfold. split_and!.
  - intros Hc. destruct (leaderboardEntries (document st)); [|done].
    by destruct (storedLeaderboard st).
  - intros st'. destruct (storedLeaderboard st) as [board|] eqn:Hstored; [|done].
    destruct (leaderboardEntries (document st)) as [old|] eqn:Hold.
    + intros [= <-]. rewrite displayLeaderboard_unfold.
      assert (Hs : storedLeaderboard (listed board st) = Some board).
      { rewrite <- Hstored. by open_state st. }
      rewrite Hs. by open_state st.
    + intros [= <-]. by rewrite displayLeaderboard_unfold, Hstored, Hold.
  - intros ->. split; [done|]. intros st'.
    destruct (storedLeaderboard st); by intros [= <-].
Qed.

End Board.

(** ** The clocks of the two modes *)

Section Clocks.
Context {engine : Engine}.

(** The timer that carries the handle [id], if one is pending. *)
Definition timerOf (id : positive) (st : State) : option Timer :=
  find (fun t => bool_decide (timer_id t = id)) (pending st).

Lemma resolveName_stored st :
  resolveName (localStorage st !! "currentPlayer") st
  = or_else (localStorage st !! "currentPlayer") "Anonymous".
Proof.
  unfold resolveName, or_else. destruct (localStorage st !! "currentPlayer") as [n|]; [|done].
  by destruct (decide (n = "")).
Qed.

Lemma announced_storage board st :
  localStorage (announced board st)
  = <["leaderboard" :=
        JSON_stringify
          (take 5 (sort_by_score
             (board ++ [{| Entry.name := or_else (localStorage st !! "currentPlayer") "Anonymous";
                           Entry.score := score (vars st) |}])))]> (localStorage st).
Proof. unfold announced. cbv zeta. rewrite resolveName_stored. by open_state st. Qed.

Lemma storedLeaderboard_storage st1 st2 :
  localStorage st1 !! "leaderboard" = localStorage st2 !! "leaderboard" ->
  storedLeaderboard st1 = storedLeaderboard st2.
Proof. unfold storedLeaderboard. by intros ->. Qed.

Lemma resetState_leaderboard st shuffled calls :
  localStorage (problemReady (resetState st) shuffled calls) !! "leaderboard"
  = localStorage st !! "leaderboard".
Proof.
  unfold problemReady, resetState. open_state st. exec. by rewrite !lookup_insert_ne.
Qed.

(** X14: when the single-player clock expires and the stored leaderboard
    parses, the tick records the score the player had, under the stored
    player name or 'Anonymous', announces it (with the stored name as it is,
    [null] included), zeroes the session counters, leaves [timerActive] as
    it was, and the timers left are the former ones without the two intervals
    cleared, plus the time-out that hides the banner. *)
Theorem timer_expiry_records_score (fuel : nat) (st st' : State) (board : list Entry.t) :
  storedLeaderboard st = Some board ->
  timeRemaining (vars st) <= 1 ->
  timerTick fuel st = Ok tt st' ->
  let playerName := localStorage st !! "currentPlayer" in
  let entry := {| Entry.name := or_else playerName "Anonymous";
                  Entry.score := score (vars st) |} in
  storedLeaderboard st' = Some (take 5 (sort_by_score (board ++ [entry])))
  /\ winnerAnnouncement (document st') = Some (GreatEffort playerName (score (vars st)))
  /\ announcementShown (document st') = true
  /\ session st' = zero
  /\ timerActive (vars st') = timerActive (vars st)
  /\ pending st'
     = cleared (multiplayerInterval (vars st))
         (cleared (timerInterval (vars st)) (pending st)
          ++ [{| timer_id := nextTimerId st; timer_repeats := false;
                 timer_callback := TimerEndHide |}]).
Proof.
  intros Hstored Hlow. rewrite timerTick_unfold, decide_True, Hstored by lia.
  intros Hok. apply resetGame_Ok in Hok as (shuffled & calls & ->).
  cbv zeta. split_and!.
  - set (entry := {| Entry.name := _; Entry.score := _ |}).
    rewrite <- (storedLeaderboard_written (take 5 (sort_by_score (board ++ [entry]))) st).
    apply storedLeaderboard_storage.
    rewrite resetState_leaderboard, announced_storage.
    subst entry. by open_state st.
  - by open_state st.
  - by open_state st.
  - by open_state st.
  - by open_state st.
  - by open_state st.
Qed.

(** *** Counting down *)

Definition interval (id : positive) (cb : Callback) : Timer :=
  {| timer_id := id; timer_repeats := true; timer_callback := cb |}.

(** A handle no pending timer carries. *)
Definition unused (id : positive) (timers : list Timer) : Prop :=
  Forall (fun t => timer_id t <> id) timers.

Lemma find_registered id timer timers :
  unused id timers -> timer_id timer = id ->
  find (fun t => bool_decide (timer_id t = id)) (timers ++ [timer]) = Some timer.
Proof.
  intros Hfresh Hid. induction Hfresh as [|t timers Ht _ IH]; simpl.
  - by rewrite bool_decide_eq_true_2.
  - by rewrite bool_decide_eq_false_2.
Qed.

Lemma cancel_registered id timer timers :
  unused id timers -> timer_id timer = id -> cancel id (timers ++ [timer]) = timers.
Proof.
  intros Hfresh Hid. unfold cancel. rewrite list.filter_app, list.filter_cons_False by naive_solver.
  rewrite list.filter_nil, app_nil_r.
  induction Hfresh as [|t timers Ht _ IH]; [done|].
  by rewrite list.filter_cons_True, IH.
Qed.

(** The state with [k] seconds taken off the single-player clock. *)
Definition ticked (k : Z) (st : State) : State :=
  set_vars (set_timeRemaining (timeRemaining (vars st) - k) (vars st)) st.

Lemma ticked_0 st : ticked 0 st = st.
Proof. unfold ticked. rewrite Z.sub_0_r. by open_state st. Qed.

Lemma ticked_ticked j k st : ticked k (ticked j st) = ticked (j + k) st.
Proof. unfold ticked. open_state st. exec. do 2 f_equal. lia. Qed.

Lemma handle_tick fuel id st :
  location (document st) = None ->
  timerOf id st = Some (interval id TimerTick) ->
  1 < timeRemaining (vars st) ->
  handle fuel (TimerFires id) st = Ok tt (ticked 1 st).
Proof.
  intros Hloc Htimer Hleft. unfold handle, mbind at 1, M_bind at 1, gets at 1.
  rewrite Hloc, fire_unfold. fold (timerOf id st). rewrite Htimer. simpl.
  rewrite timerTick_unfold, decide_False by lia. reflexivity.
Qed.

Lemma run_ticks fuel id k st :
  location (document st) = None ->
  timerOf id st = Some (interval id TimerTick) ->
  Z.of_nat k < timeRemaining (vars st) ->
  run fuel (replicate k (TimerFires id)) st = Some (ticked (Z.of_nat k) st).
Proof.
  revert st. induction k as [|k IH]; intros st Hloc Htimer Hleft.
  - simpl. by rewrite ticked_0.
  - simpl replicate. simpl run. rewrite handle_tick by (done || lia). simpl.
    rewrite IH.
    + rewrite ticked_ticked. do 2 f_equal. lia.
    + by open_state st.
    + rewrite <- Htimer. by open_state st.
    + assert (timeRemaining (vars (ticked 1 st)) = timeRemaining (vars st) - 1)
        by (by open_state st).
      lia.
Qed.

(** The state [toggleTimer()] returns in when it switches the timer on. *)
Definition timerOn (st : State) : State :=
  set_vars
    (set_timerInterval (Some (nextTimerId st))
       (set_timeRemaining 30 (set_score 0 (set_timerActive true (vars st)))))
    (set_nextTimerId (Pos.succ (nextTimerId st))
       (set_pending (pending st ++ [interval (nextTimerId st) TimerTick]) st)).

Lemma toggleTimer_on st :
  timerActive (vars st) = false -> toggleTimer st = Ok tt (timerOn st).
Proof. unfold toggleTimer, timerOn, interval. open_state st. exec. by intros ->. Qed.

(** X15: enabling the timer registers one interval; after [k < 30] of its
    ticks the clock shows [30 - k], [score] is 0, streak, attempts and time
    are as before, and nothing else on the page or in storage has changed:
    the thirtieth tick is the first to find the clock at its last second. *)
Theorem timer_runs_thirty_ticks (fuel : nat) (k : nat) (st : State) :
  location (document st) = None ->
  timerActive (vars st) = false ->
  unused (nextTimerId st) (pending st) ->
  (k < 30)%nat ->
  exists st',
    run fuel (ClickTimer :: replicate k (TimerFires (nextTimerId st))) st = Some st'
    /\ timeRemaining (vars st') = 30 - Z.of_nat k
    /\ session st' = (0, streak (vars st), totalAttempts (vars st), totalTime (vars st))
    /\ timerActive (vars st') = true
    /\ timerInterval (vars st') = Some (nextTimerId st)
    /\ pending st' = pending st ++ [interval (nextTimerId st) TimerTick]
    /\ document st' = document st
    /\ localStorage st' = localStorage st.
Proof.
  intros Hloc Hoff Hfresh Hk.
  exists (ticked (Z.of_nat k) (timerOn st)). split.
  - simpl run. unfold handle, mbind at 1, M_bind at 1, gets at 1.
    rewrite Hloc, toggleTimer_on by done. simpl.
    apply run_ticks.
    + by open_state st.
    + unfold timerOf.
      assert (Hp : pending (timerOn st) = pending st ++ [interval (nextTimerId st) TimerTick])
        by (by open_state st).
      rewrite Hp. by apply find_registered.
    + assert (Ht : timeRemaining (vars (timerOn st)) = 30) by (by open_state st).
      lia.
  - by open_state st.
Qed.

(** *** A turn of the multiplayer round *)

(** The state [startPlayerTurn()] returns in. *)
Definition turnStarted (st : State) : State :=
  set_vars
    (set_multiplayerInterval (Some (nextTimerId st))
       (set_isMultiplayerRound true (set_multiplayerTimer 15 (vars st))))
    (set_nextTimerId (Pos.succ (nextTimerId st))
       (set_pending (pending st ++ [interval (nextTimerId st) PlayerTurnTick]) st)).

Lemma startPlayerTurn_unfold st : startPlayerTurn st = Ok tt (turnStarted st).
Proof. by open_state st. Qed.

(** The state with [k] seconds taken off the clock of the turn. *)
Definition turnTicked (k : Z) (st : State) : State :=
  set_vars (set_multiplayerTimer (multiplayerTimer (vars st) - k) (vars st)) st.

Lemma turnTicked_0 st : turnTicked 0 st = st.
Proof. unfold turnTicked. rewrite Z.sub_0_r. by open_state st. Qed.

Lemma turnTicked_turnTicked j k st : turnTicked k (turnTicked j st) = turnTicked (j + k) st.
Proof. unfold turnTicked. open_state st. exec. do 2 f_equal. lia. Qed.

Lemma handle_turn_tick fuel id st :
  location (document st) = None ->
  timerOf id st = Some (interval id PlayerTurnTick) ->
  1 < multiplayerTimer (vars st) ->
  handle fuel (TimerFires id) st = Ok tt (turnTicked 1 st).
Proof.
  intros Hloc Htimer Hleft. unfold handle, mbind at 1, M_bind at 1, gets at 1.
  rewrite Hloc, fire_unfold. fold (timerOf id st). rewrite Htimer. simpl.
  unfold playerTurnTick, turnTicked. revert Hleft. open_state st. exec. intros Hleft.
  by rewrite decide_False by lia.
Qed.

Lemma run_turn_ticks fuel id k st :
  location (document st) = None ->
  timerOf id st = Some (interval id PlayerTurnTick) ->
  Z.of_nat k < multiplayerTimer (vars st) ->
  run fuel (replicate k (TimerFires id)) st = Some (turnTicked (Z.of_nat k) st).
Proof.
  revert st. induction k as [|k IH]; intros st Hloc Htimer Hleft.
  - simpl. by rewrite turnTicked_0.
  - simpl replicate. simpl run. rewrite handle_turn_tick by (done || lia). simpl.
    rewrite IH.
    + rewrite turnTicked_turnTicked. do 2 f_equal. lia.
    + by open_state st.
    + rewrite <- Htimer. by open_state st.
    + assert (multiplayerTimer (vars (turnTicked 1 st)) = multiplayerTimer (vars st) - 1)
        by (by open_state st).
      lia.
Qed.

(** X16: [startPlayerTurn()] registers one interval; after [k < 15] of its
    ticks [multiplayerTimer] is [15 - k], the round flag is on, and the
    player, the scores and the page are as before. *)
Theorem turn_runs_fifteen_ticks (fuel : nat) (k : nat) (st : State) :
  location (document st) = None ->
  unused (nextTimerId st) (pending st) ->
  (k < 15)%nat ->
  exists st1 st',
    startPlayerTurn st = Ok tt st1
    /\ run fuel (replicate k (TimerFires (nextTimerId st))) st1 = Some st'
    /\ multiplayerTimer (vars st') = 15 - Z.of_nat k
    /\ isMultiplayerRound (vars st') = true
    /\ multiplayerInterval (vars st') = Some (nextTimerId st)
    /\ currentPlayer (vars st') = currentPlayer (vars st)
    /\ tally st' = tally st
    /\ pending st' = pending st ++ [interval (nextTimerId st) PlayerTurnTick]
    /\ document st' = document st.
Proof.
  intros Hloc Hfresh Hk.
  exists (turnStarted st), (turnTicked (Z.of_nat k) (turnStarted st)).
  split; [apply startPlayerTurn_unfold|]. split.
  - apply run_turn_ticks.
    + by open_state st.
    + unfold timerOf.
      assert (Hp : pending (turnStarted st)
                   = pending st ++ [interval (nextTimerId st) PlayerTurnTick])
        by (by open_state st).
      rewrite Hp. by apply find_registered.
    + assert (Ht : multiplayerTimer (vars (turnStarted st)) = 15) by (by open_state st).
      lia.
  - by open_state st.
Qed.

Definition oneShot (id : positive) (cb : Callback) : Timer :=
  {| timer_id := id; timer_repeats := false; timer_callback := cb |}.

(** The message of [announceWinner()]. *)
Definition verdict (g : Globals) : Announcement :=
  if decide (p1Score g > p2Score g) then PlayerWins 1 (p1Score g) (p2Score g)
  else if decide (p2Score g > p1Score g) then PlayerWins 2 (p2Score g) (p1Score g)
  else Tie (p1Score g) (p2Score g).

(** X17: the tick that finds the last second of a turn clears the turn's
    interval and keeps all scores.  After player 1 it makes player 2 the
    current player, shows "Player 1 Done!", locks the options and leaves one
    time-out; after player 2 it announces the higher score or the tie,
    leaves the clean-up time-out, and draws the 1200 numbers of the confetti
    exactly when the scores differ. *)
Theorem turn_end_switches_or_announces (fuel : nat) (id : positive) (st : State) :
  location (document st) = None ->
  timerOf id st = Some (interval id PlayerTurnTick) ->
  multiplayerInterval (vars st) = Some id ->
  multiplayerTimer (vars st) <= 1 ->
  exists st',
    handle fuel (TimerFires id) st = Ok tt st'
    /\ tally st' = tally st
    /\ isMultiplayerRound (vars st') = isMultiplayerRound (vars st)
    /\ announcementShown (document st') = true
    /\ if decide (currentPlayer (vars st) = 1) then
         currentPlayer (vars st') = 2
         /\ winnerAnnouncement (document st') = Some PlayerOneDone
         /\ Forall (fun b => button_disabled b = true) (options (document st'))
         /\ pending st' = cancel id (pending st) ++ [oneShot (nextTimerId st) TurnEndHide]
         /\ randomCalls st' = randomCalls st
       else
         currentPlayer (vars st') = currentPlayer (vars st)
         /\ winnerAnnouncement (document st') = Some (verdict (vars st))
         /\ options (document st') = options (document st)
         /\ pending st' = cancel id (pending st) ++ [oneShot (nextTimerId st) WinnerCleanup]
         /\ randomCalls st'
            = (if decide (p1Score (vars st) = p2Score (vars st))
               then randomCalls st else randomCalls st + 1200)%nat.
Proof.
  intros Hloc Htimer Hhandle Hleft. unfold handle, mbind at 1, M_bind at 1, gets at 1.
  rewrite Hloc, fire_unfold. fold (timerOf id st). rewrite Htimer. simpl.
  unfold playerTurnTick, handleTurnEnd, announceWinner, disableOptions, confetti_start, verdict,
    oneShot, tally.
  revert Hhandle Hleft. open_state st. exec. intros -> Hleft.
  rewrite decide_True by lia. exec. cbv [Datatypes.id]. exec.
  match goal with
  | |- context [decide (?player = 1)] => destruct (decide (player = 1)) as [->|Hplayer]
  end; exec.
  - eexists. split; [reflexivity|]. exec.
    split_and!; try reflexivity. by apply Forall_fmap, list.Forall_forall.
  - match goal with
    | |- context [decide (?p1 <> ?p2)] =>
        destruct (decide (p1 = p2)) as [->|Hscores];
        [rewrite (decide_False (P := p2 <> p2)) by tauto
        |rewrite (decide_True (P := p1 <> p2)) by done]
    end; exec; (eexists; split; [reflexivity|]); exec; split_and!; reflexivity.
Qed.

(** *** The countdown *)

(** The [n]-th handle given out after [id]. *)
Definition later (n : nat) (id : positive) : positive := Nat.iter n Pos.succ id.

(** All pending timers carry handles given out before. *)
Definition wellTimed (st : State) : Prop :=
  Forall (fun t => (timer_id t < nextTimerId st)%positive) (pending st).

Lemma later_le n id : (id <= later n id)%positive.
Proof. induction n as [|n IH]; simpl; lia. Qed.

Lemma wellTimed_unused n st : wellTimed st -> unused (later n (nextTimerId st)) (pending st).
Proof.
  unfold wellTimed, unused. intros Hwell.
  eapply list.Forall_impl; [exact Hwell|]. intros t Ht.
  pose proof (later_le n (nextTimerId st)). simpl in Ht. lia.
Qed.

Definition lock (disable : bool) (b : OptionButton) : OptionButton :=
  {| button_option := button_option b; button_correct := button_correct b;
     button_disabled := disable |}.

(** The countdown of [st] when [n] of its time-outs have fired and the one
    with the callback [cb] is pending. *)
Definition counting (n : nat) (cb : Callback) (st : State) : State :=
  set_nextTimerId (later (S n) (nextTimerId st))
    (set_pending (pending st ++ [oneShot (later n (nextTimerId st)) cb])
       (set_document (set_options (map (lock true) (options (document st))) (document st)) st)).

(** The state in which the countdown has ended and the turn begun. *)
Definition counted (st : State) : State :=
  set_vars
    (set_multiplayerInterval (Some (later 8 (nextTimerId st)))
       (set_isMultiplayerRound true (set_multiplayerTimer 15 (vars st))))
    (set_nextTimerId (later 9 (nextTimerId st))
       (set_pending (pending st ++ [interval (later 8 (nextTimerId st)) PlayerTurnTick])
          (set_document
             (set_options (map (lock false) (options (document st))) (document st)) st))).

Lemma showCountdown_counting st : showCountdown st = Ok tt (counting 0 (CountdownHide 1) st).
Proof. by open_state st. Qed.

Lemma handle_counting fuel n cb st :
  location (document st) = None ->
  wellTimed st ->
  handle fuel (TimerFires (later n (nextTimerId st))) (counting n cb st)
  = runCallback fuel cb
      (set_nextTimerId (later (S n) (nextTimerId st))
         (set_document
            (set_options (map (lock true) (options (document st))) (document st)) st)).
Proof.
  intros Hloc Hwell. unfold handle, mbind at 1, M_bind at 1, gets at 1.
  assert (Hl : location (document (counting n cb st)) = None) by (by open_state st).
  rewrite Hl, fire_unfold.
  assert (Hp : pending (counting n cb st)
               = pending st ++ [oneShot (later n (nextTimerId st)) cb]) by (by open_state st).
  rewrite Hp, (find_registered _ (oneShot (later n (nextTimerId st)) cb) _
                 (wellTimed_unused n st Hwell) eq_refl).
  cbn [oneShot timer_repeats timer_callback].
  rewrite (cancel_registered _ (oneShot (later n (nextTimerId st)) cb) _
                 (wellTimed_unused n st Hwell) eq_refl).
  by open_state st.
Qed.

Lemma handle_hide fuel n i st :
  location (document st) = None ->
  wellTimed st ->
  handle fuel (TimerFires (later n (nextTimerId st))) (counting n (CountdownHide i) st)
  = Ok tt (counting (S n) (CountdownShow i) st).
Proof. intros Hloc Hwell. rewrite handle_counting by done. by open_state st. Qed.

Lemma handle_show fuel n i st :
  location (document st) = None ->
  wellTimed st ->
  (i < 4)%nat ->
  handle fuel (TimerFires (later n (nextTimerId st))) (counting n (CountdownShow i) st)
  = Ok tt (counting (S n) (CountdownHide (S i)) st).
Proof.
  intros Hloc Hwell Hi. rewrite handle_counting by done.
  unfold runCallback, showNumber. rewrite decide_True by done. by open_state st.
Qed.

Lemma handle_go fuel st :
  location (document st) = None ->
  wellTimed st ->
  handle fuel (TimerFires (later 7 (nextTimerId st))) (counting 7 (CountdownShow 4) st)
  = Ok tt (counted st).
Proof.
  intros Hloc Hwell. rewrite handle_counting by done.
  unfold runCallback, showNumber. rewrite decide_False by lia.
  unfold disableOptions, counted, lock. open_state st. exec.
  rewrite map_map. reflexivity.
Qed.

(** X18: the countdown consists of eight time-outs, each registered by the
    one before; when they have fired in turn the options are enabled again,
    the turn's clock is at 15, the round flag is on and the turn's interval
    is the one timer added; the scores are untouched throughout. *)
Theorem countdown_starts_the_turn (fuel : nat) (st : State) :
  location (document st) = None ->
  wellTimed st ->
  exists st1 st',
    showCountdown st = Ok tt st1
    /\ run fuel (TimerFires <$> ((fun n => later n (nextTimerId st)) <$> seq 0 8)) st1
       = Some st'
    /\ options (document st') = map (lock false) (options (document st))
    /\ multiplayerTimer (vars st') = 15
    /\ isMultiplayerRound (vars st') = true
    /\ multiplayerInterval (vars st') = Some (later 8 (nextTimerId st))
    /\ pending st' = pending st ++ [interval (later 8 (nextTimerId st)) PlayerTurnTick]
    /\ tally st' = tally st
    /\ wellTimed st'.
Proof.
  intros Hloc Hwell. exists (counting 0 (CountdownHide 1) st), (counted st).
  split; [apply showCountdown_counting|]. split.
  - cbn [seq fmap list_fmap run].
    rewrite handle_hide by done. cbn [after].
    rewrite handle_show by (done || lia). cbn [after].
    rewrite handle_hide by done. cbn [after].
    rewrite handle_show by (done || lia). cbn [after].
    rewrite handle_hide by done. cbn [after].
    rewrite handle_show by (done || lia). cbn [after].
    rewrite handle_hide by done. cbn [after].
    rewrite handle_go by done. reflexivity.
  - split_and!; try (by open_state st).
    unfold wellTimed in *.
    assert (Hp : pending (counted st)
                 = pending st ++ [interval (later 8 (nextTimerId st)) PlayerTurnTick])
      by (by open_state st).
    assert (Hn : nextTimerId (counted st) = later 9 (nextTimerId st)) by (by open_state st).
    rewrite Hp, Hn. apply Forall_app. split.
    + eapply list.Forall_impl; [exact Hwell|]. intros t Ht.
      pose proof (later_le 9 (nextTimerId st)). simpl in *. lia.
    + constructor; [simpl; lia|constructor].
Qed.

End Clocks.

(** * The confetti

    The [Confetti] class draws on a canvas of its own and shares nothing
    with the game but [Math.random()].  Coordinates are exact rationals;
    [drawParticle] and [clearRect], which only paint, are left out.
    [isAnimating] is not assigned by the constructor and is read for its
    truthiness only: [false] stands for [undefined] too.  [requested] counts
    the callbacks handed to [requestAnimationFrame] that have not run. *)

Module Confetti.

Record Particle := {
  x : Q; y : Q; rotation : Q; hue : Q; size : Q; speedY : Q; speedX : Q; speedRotation : Q
}.

Record t := {
  width : Z;            (* canvas.width *)
  height : Z;           (* canvas.height *)
  particles : list Particle;
  particleCount : nat;
  isAnimating : bool;
  requested : nat
}.

Definition set_particles (ps : list Particle) (c : t) : t :=
  {| width := width c; height := height c; particles := ps;
     particleCount := particleCount c; isAnimating := isAnimating c;
     requested := requested c |}.

Definition set_isAnimating (b : bool) (c : t) : t :=
  {| width := width c; height := height c; particles := particles c;
     particleCount := particleCount c; isAnimating := b; requested := requested c |}.

Definition set_requested (n : nat) (c : t) : t :=
  {| width := width c; height := height c; particles := particles c;
     particleCount := particleCount c; isAnimating := isAnimating c; requested := n |}.

(** [resizeCanvas()], given [window.innerWidth] and [window.innerHeight]. *)
Definition resizeCanvas (innerWidth innerHeight : Z) (c : t) : t :=
  {| width := innerWidth; height := innerHeight; particles := particles c;
     particleCount := particleCount c; isAnimating := isAnimating c;
     requested := requested c |}.

(** [new Confetti()] *)
Definition create (innerWidth innerHeight : Z) : t :=
  resizeCanvas innerWidth innerHeight
    {| width := 0; height := 0; particles := []; particleCount := 150;
       isAnimating := false; requested := 0 |}.

(** The particle [createParticles()] pushes when [n] draws have been made:
    the properties of the object literal are evaluated in the order they
    are written in. *)
Definition particle (rnd : nat -> Qc) (n : nat) (c : t) : Particle :=
  {| x := rnd n * inject_Z (width c);
     y := rnd (n + 1)%nat * inject_Z (height c) - inject_Z (height c);
     rotation := rnd (n + 2)%nat * 360;
     hue := rnd (n + 3)%nat * 360;
     size := rnd (n + 4)%nat * 10 + 5;
     speedY := rnd (n + 5)%nat * 30 + 2;
     speedX := rnd (n + 6)%nat * 2 - 1;
     speedRotation := (rnd (n + 7)%nat - (1 # 2)) * 2 |}.

(** [createParticles()]: the particles and the number of draws made. *)
Fixpoint createParticles_loop (count : nat) (rnd : nat -> Qc) (n : nat) (c : t)
    (made : list Particle) : list Particle * nat :=
  match count with
  | O => (made, n)
  | S count' => createParticles_loop count' rnd (n + 8) c (made ++ [particle rnd n c])
  end.

Definition createParticles (rnd : nat -> Qc) (n : nat) (c : t) : t * nat :=
  let '(made, n') := createParticles_loop (particleCount c) rnd n c (particles c) in
  (set_particles made c, n').

(** [stop()] *)
Definition stop (c : t) : t := set_particles [] (set_isAnimating false c).

Definition moved (p : Particle) : Particle :=
  {| x := x p + speedX p; y := y p + speedY p; rotation := rotation p + speedRotation p;
     hue := hue p; size := size p; speedY := speedY p; speedX := speedX p;
     speedRotation := speedRotation p |}.

(** The loop of [updateParticles()] runs from the last particle to the
    first and splices out the ones below the canvas. *)
Fixpoint updateParticles_loop (h : Z) (ps : list Particle) : list Particle :=
  match ps with
  | [] => []
  | p :: rest =>
      let rest' := updateParticles_loop h rest in
      let p' := moved p in
      if Qlt_le_dec (inject_Z h + size p') (y p') then rest' else p' :: rest'
  end.

(** [updateParticles()] *)
Definition updateParticles (c : t) : t :=
  let c := set_particles (updateParticles_loop (height c) (particles c)) c in
  match particles c with
  | [] => stop c
  | _ => c
  end.

(** [animate()] *)
Definition animate (c : t) : t :=
  let c := updateParticles c in
  if isAnimating c then set_requested (S (requested c)) c else c.

(** [start()] *)
Definition start (rnd : nat -> Qc) (n : nat) (c : t) : t * nat :=
  let c := set_particles [] (set_isAnimating true c) in
  let '(c, n') := createParticles rnd n c in
  (animate c, n').

(** The browser runs one of the requested animation frames. *)
Definition nextFrame (c : t) : t :=
  match requested c with
  | O => c
  | S pending => animate (set_requested pending c)
  end.

End Confetti.

Module ConfettiFacts.
Import Confetti.

Lemma createParticles_loop_made count rnd n c made :
  createParticles_loop count rnd n c made
  = (made ++ ((fun i => particle rnd (n + 8 * i) c) <$> seq 0 count), (n + 8 * count)%nat).
Proof.
  revert n made. induction count as [|count IH]; intros n made.
  - simpl. by rewrite app_nil_r, Nat.add_0_r.
  - cbn [createParticles_loop]. rewrite IH, <- app_assoc.
    change (seq 0 (S count)) with (0%nat :: seq 1 count).
    rewrite fmap_cons, <- fmap_S_seq, <- list_fmap_compose.
    f_equal; [|lia]. f_equal. cbn [app]. f_equal; [f_equal; lia|].
    apply list_fmap_ext. intros i j _. simpl. f_equal. lia.
Qed.

(** What a draw in [0, 1) makes of a particle. *)
Definition wellMade (h : Z) (p : Particle) : Prop :=
  (- inject_Z h <= y p)%Q /\ (5 <= size p)%Q /\ (size p < 15)%Q /\ (2 <= speedY p)%Q.

Lemma particle_wellMade rnd n c :
  (forall k, unit_draw (rnd k)) -> 0 <= height c -> wellMade (height c) (particle rnd n c).
Proof.
  intros Hdraws Hh. unfold wellMade, particle. simpl.
  assert (Hr : forall k, (0 <= rnd k)%Q /\ (rnd k < 1)%Q).
  { intros k. destruct (Hdraws k) as [H0 H1]. split; [exact H0|exact H1]. }
  assert (0 <= inject_Z (height c))%Q by (change 0%Q with (inject_Z 0); by rewrite <- Zle_Qle).
  destruct (Hr (n + 1)%nat), (Hr (n + 4)%nat), (Hr (n + 5)%nat).
  split_and!; try lra.
  assert (0 <= rnd (n + 1)%nat * inject_Z (height c))%Q by (by apply Qmult_le_0_compat).
  lra.
Qed.

(** The particles [start()] makes before it calls [animate()]. *)
Lemma createParticles_started rnd n c :
  createParticles rnd n (set_particles [] (set_isAnimating true c))
  = (set_particles
       ((fun i => particle rnd (n + 8 * i) (set_particles [] (set_isAnimating true c)))
          <$> seq 0 (particleCount c))
       (set_particles [] (set_isAnimating true c)),
     (n + 8 * particleCount c)%nat).
Proof.
  unfold createParticles. cbn [particleCount particles set_particles set_isAnimating].
  by rewrite createParticles_loop_made.
Qed.

Lemma started_wellMade rnd n c :
  (forall k, unit_draw (rnd k)) -> 0 <= height c ->
  Forall (wellMade (height c))
    (particles (createParticles rnd n (set_particles [] (set_isAnimating true c))).1).
Proof.
  intros Hdraws Hh. rewrite createParticles_started. cbn [fst particles set_particles].
  apply Forall_fmap, list.Forall_forall. intros i _.
  apply (particle_wellMade rnd _ (set_particles [] (set_isAnimating true c))); done.
Qed.

(** X19: [start()] draws eight numbers for each of the [particleCount]
    particles, in the order the properties are written in; with draws in
    [0, 1) each particle starts at [y >= -h] for a canvas of height [h], has
    a size in [5, 15) and falls at least 2 a frame.  These are the 150 * 8
    draws that [announceWinner()] uses up in the game. *)
Theorem start_draws_eight_per_particle (rnd : nat -> Qc) (n : nat) (c : t) :
  let made := createParticles rnd n (set_particles [] (set_isAnimating true c)) in
  (start rnd n c).2 = (n + 8 * particleCount c)%nat
  /\ made.2 = (n + 8 * particleCount c)%nat
  /\ length (particles made.1) = particleCount c
  /\ (forall i, (i < particleCount c)%nat ->
                particles made.1 !! i = Some (particle rnd (n + 8 * i) c))
  /\ ((forall k, unit_draw (rnd k)) -> 0 <= height c ->
      Forall (wellMade (height c)) (particles made.1))
  /\ (forall st innerWidth innerHeight,
        confetti_start st
        = Ok tt (set_randomCalls
                   (start (random st) (randomCalls st) (create innerWidth innerHeight)).2 st)).
Proof.
  cbv zeta. split_and!.
  - unfold start. by rewrite createParticles_started.
  - by rewrite createParticles_started.
  - rewrite createParticles_started. cbn [fst particles set_particles].
    by rewrite length_fmap, length_seq.
  - intros i Hi. rewrite createParticles_started. cbn [fst particles set_particles].
    rewrite list_lookup_fmap, lookup_seq_lt by done. done.
  - apply started_wellMade.
  - intros st innerWidth innerHeight. unfold start. rewrite createParticles_started.
    cbn [fst snd]. unfold confetti_start, modify, create, resizeCanvas.
    cbn [particleCount set_particles set_isAnimating]. do 2 f_equal.
Qed.

(** *** The animation ends *)

(** A particle after [m] calls of [updateParticles()]. *)
Definition fallen (h : Z) (m : nat) (p : Particle) : Prop :=
  (- inject_Z h + 2 * inject_Z (Z.of_nat m) <= y p)%Q /\ (size p < 15)%Q /\ (2 <= speedY p)%Q.

Lemma wellMade_fallen h p : wellMade h p -> fallen h 0 p.
Proof.
  unfold wellMade, fallen. change (inject_Z (Z.of_nat 0)) with 0%Q.
  intros (? & ? & ? & ?). split_and!; lra.
Qed.

Lemma updateParticles_loop_fallen h m ps :
  Forall (fallen h m) ps ->
  Forall (fun p => fallen h (S m) p /\ (y p <= inject_Z h + size p)%Q)
         (updateParticles_loop h ps).
Proof.
  induction 1 as [|p ps Hp _ IH]; cbn [updateParticles_loop]; [constructor|].
  destruct (Qlt_le_dec _ _) as [Hgone|Hkept]; [done|].
  constructor; [|done]. split; [|done].
  destruct Hp as (Hy & Hsize & Hspeed). unfold fallen. cbn [moved y size speedY].
  rewrite Nat2Z.inj_succ, <- Z.add_1_r, inject_Z_plus. change (inject_Z 1) with 1%Q.
  split_and!; lra.
Qed.

Lemma fallen_bound h m p :
  fallen h m p -> (y p <= inject_Z h + size p)%Q -> 2 * Z.of_nat m < 2 * h + 15.
Proof.
  intros (Hy & Hsize & _) Hkept.
  rewrite Zlt_Qlt, inject_Z_plus, !inject_Z_mult.
  change (inject_Z 2) with 2%Q. change (inject_Z 15) with 15%Q. lra.
Qed.

(** The animation runs: one nextFrame is requested and every particle has been
    moved [m] times. *)
Definition running (h : Z) (m : nat) (c : t) : Prop :=
  height c = h /\ isAnimating c = true /\ requested c = 1%nat
  /\ Forall (fallen h m) (particles c) /\ Z.of_nat m <= h + 7.

(** The animation is over. *)
Definition finished (c : t) : Prop :=
  isAnimating c = false /\ requested c = O /\ particles c = [].

Lemma animate_step h m c :
  height c = h -> isAnimating c = true -> requested c = O ->
  Forall (fallen h m) (particles c) ->
  finished (animate c) \/ running h (S m) (animate c).
Proof.
  intros Hh Hon Hreq Hps. unfold animate, updateParticles. simpl.
  pose proof (updateParticles_loop_fallen (height c) m (particles c)) as Hloop.
  rewrite Hh in *. specialize (Hloop Hps).
  destruct (updateParticles_loop h (particles c)) as [|p ps] eqn:Hleft; simpl.
  - left. by unfold finished.
  - right. rewrite Hon. simpl. unfold running. simpl. split_and!; [done|done|by rewrite Hreq| |].
    + eapply list.Forall_impl; [exact Hloop|]. by intros q [Hq _].
    + apply Forall_inv in Hloop as [Hp Hkept].
      pose proof (fallen_bound _ _ _ Hp Hkept). lia.
Qed.

Lemma nextFrame_finished c : finished c -> nextFrame c = c.
Proof. intros (_ & Hreq & _). unfold nextFrame. by rewrite Hreq. Qed.

Lemma nextFrame_running h m c :
  running h m c -> finished (nextFrame c) \/ running h (S m) (nextFrame c).
Proof.
  intros (Hh & Hon & Hreq & Hps & _). unfold nextFrame. rewrite Hreq.
  by apply animate_step.
Qed.

Lemma running_ends h m c fuel :
  running h m c -> h + 8 <= Z.of_nat m + Z.of_nat fuel ->
  exists k, (k <= fuel)%nat /\ finished (Nat.iter k nextFrame c).
Proof.
  revert m c. induction fuel as [|fuel IH]; intros m c Hrun Hfuel.
  - destruct Hrun as (_ & _ & _ & _ & Hm). lia.
  - destruct (nextFrame_running h m c Hrun) as [Hdone|Hnext].
    + exists 1%nat. split; [lia|done].
    + destruct (IH (S m) (nextFrame c) Hnext) as (k & Hk & Hdone); [lia|].
      exists (S k). split; [lia|]. by rewrite Nat.iter_succ_r.
Qed.

(** X20: the animation ends.  With draws in [0, 1), a canvas of height
    [h >= 0] and no frame requested before, at most [h + 7] animation frames
    after [start()] every particle has left the canvas, [isAnimating] is
    off and no further frame is requested. *)
Theorem animation_ends (rnd : nat -> Qc) (n : nat) (c : t) :
  (forall k, unit_draw (rnd k)) ->
  0 <= height c ->
  requested c = O ->
  exists k,
    (k <= Z.to_nat (height c) + 7)%nat
    /\ let c' := Nat.iter k nextFrame (start rnd n c).1 in
       isAnimating c' = false /\ requested c' = O /\ particles c' = []
       /\ forall j, Nat.iter j nextFrame c' = c'.
Proof.
  intros Hdraws Hh Hreq.
  pose proof (started_wellMade rnd n c Hdraws Hh) as Hmade.
  unfold start. destruct (createParticles rnd n _) as [c0 n'] eqn:Hcreate. simpl in Hmade.
  assert (Hc0 : height c0 = height c /\ isAnimating c0 = true /\ requested c0 = O).
  { unfold createParticles in Hcreate. destruct (createParticles_loop _ _ _ _ _).
    injection Hcreate as <- _. by rewrite <- Hreq. }
  destruct Hc0 as (Hh0 & Hon0 & Hreq0). simpl.
  assert (Hend : exists k, (k <= Z.to_nat (height c) + 7)%nat
                           /\ finished (Nat.iter k nextFrame (animate c0))).
  { destruct (animate_step (height c) 0 c0 Hh0 Hon0 Hreq0) as [Hdone|Hrun].
    - eapply list.Forall_impl; [exact Hmade|]. apply wellMade_fallen.
    - exists O. split; [lia|done].
    - apply (running_ends _ _ _ _ Hrun). lia. }
  destruct Hend as (k & Hk & Hdone). exists k. split; [done|].
  pose proof Hdone as (Hoff & Hnone & Hempty). split_and!; [done..|].
  intros j. induction j as [|j IH]; [done|]. simpl. rewrite IH.
  by apply nextFrame_finished.
Qed.

End ConfettiFacts.

(** ** Exceptions, and the multiplayer button *)

Section Exceptions.
Context {engine : Engine}.

(** *** Exceptions *)
















(** *** Entering and leaving multiplayer *)



Lemma resetGame_Ok_four fuel st st' :
  resetGame fuel st = Ok tt st' ->
  exists shuffled calls,
    st' = problemReady (resetState st) shuffled calls /\ length shuffled = 4%nat.
Proof.
  rewrite resetGame_unfold. intros Hok.
  apply generateNewProblem_Ok in Hok as (shuffled & calls & -> & _ & _ & Hlen & _). eauto.
Qed.

Lemma countdownStarted_options st :
  options (document (countdownStarted st))
  = map (fun b => {| button_option := button_option b; button_correct := button_correct b;
                     button_disabled := true |}) (options (document st)).
Proof. by open_state st. Qed.

(** A click on a locked button, or where no button is, does nothing. *)
Lemma handle_locked fuel index st :
  Forall (fun b => button_disabled b = true) (options (document st)) ->
  handle fuel (ClickOption index) st = Ok tt st.
Proof.
  intros Hlocked. unfold handle, clickOption, mbind, M_bind, gets.
  destruct (location (document st)); [done|].
  destruct (options (document st) !! index) as [b|] eqn:Hb; [|done].
  rewrite list.Forall_forall in Hlocked.
  by rewrite (Hlocked b (list_elem_of_lookup_2 _ _ _ Hb)).
Qed.

(** X22: entering multiplayer resets the counters, makes player 1 the
    current player, shows a new problem with its four buttons locked and
    leaves the first time-out of the countdown pending; until the page
    changes again, a click on an option button does nothing. *)
Theorem entering_multiplayer_locks_answers (fuel : nat) (st st1 : State) :
  location (document st) = None ->
  isMultiplayer (vars st) = false ->
  handle fuel ClickMultiplayer st = Ok tt st1 ->
  isMultiplayer (vars st1) = true
  /\ isMultiplayerRound (vars st1) = false
  /\ currentPlayer (vars st1) = 1
  /\ tally st1 = noTally
  /\ length (options (document st1)) = 4%nat
  /\ Forall (fun b => button_disabled b = true) (options (document st1))
  /\ pending st1
     = cleared (multiplayerInterval (vars st)) (pending st)
       ++ [oneShot (nextTimerId st) (CountdownHide 1)]
  /\ forall fuel' index, handle fuel' (ClickOption index) st1 = Ok tt st1.
Proof.
  intros Hloc Hsingle. unfold handle at 1, mbind at 1, M_bind at 1, gets at 1. rewrite Hloc.
  unfold toggleMultiplayer, startMultiplayerRound.
  unfold mbind at 1, M_bind at 1, assign at 1, modify at 1.
  unfold mbind at 1, M_bind at 1, var at 1, gets at 1.
  set (st0 := set_vars _ st).
  assert (Hmulti : isMultiplayer (vars st0) = true).
  { subst st0. revert Hsingle. open_state st. exec. by intros ->. }
  rewrite Hmulti. unfold mbind at 1, M_bind at 1.
  destruct (resetGame fuel st0) as [[] st2|e st2|] eqn:Hreset; [|done..].
  apply resetGame_Ok_four in Hreset as (shuffled & calls & -> & Hfour).
  unfold assign, modify, mbind, M_bind. rewrite showCountdown_unfold.
  intros [= <-].
  match goal with |- context [countdownStarted ?s] => set (st3 := s) end.
  assert (Hoptions : options (document st3)
                     = map (optionButton (nextProblem (resetState st0)).2) shuffled)
    by (subst st3 st0; by open_state st).
  assert (Hlocked : Forall (fun b => button_disabled b = true)
                           (options (document (countdownStarted st3)))).
  { rewrite countdownStarted_options. by apply Forall_fmap, list.Forall_forall. }
  split_and!;
    first [ exact Hlocked
          | intros fuel' index; by apply handle_locked
          | by rewrite countdownStarted_options, length_map, Hoptions, length_map
          | subst st3 st0; revert Hsingle; open_state st; exec; by intros -> ].
Qed.


End Exceptions.

(** ** Instances *)

(** Four correct answers have been given. *)
Definition onStreak : State :=
  set_vars (set_streak 4 (set_score 4 (set_totalAttempts 4 initialVars))) fresh.

Lemma achievements_after_answer_witness :
  exists st',
    checkAnswer 10 (of_Z 7) (of_Z 7) onStreak = Ok tt st'
    /\ notifications (document st')
       = streakReached (streak (vars st')) ++ sharpShot (vars st').
Proof.
  destruct (checkAnswer 10 (of_Z 7) (of_Z 7) onStreak) as [[] st'|e st'|] eqn:E.
  - exists st'. split; [done|].
    exact (achievements_after_answer 10 (of_Z 7) (of_Z 7) onStreak st' eq_refl E).
  - vm_compute in E. discriminate.
  - vm_compute in E. discriminate.
Defined.

Lemma counters_ok_fresh : counters_ok fresh.
Proof. unfold counters_ok. simpl. lia. Qed.

Lemma counters_stay_consistent_witness :
  exists st', after (handle 10 ClickTimer fresh) = Some st' /\ counters_ok st'.
Proof.
  destruct (after (handle 10 ClickTimer fresh)) as [st'|] eqn:E.
  - exists st'. split; [done|].
    exact (counters_stay_consistent 10 ClickTimer fresh st' counters_ok_fresh E).
  - vm_compute in E. discriminate.
Defined.

Lemma accuracy_after_answer_witness :
  exists st' z,
    checkAnswer 10 (of_Z 7) (of_Z 8) fresh = Ok tt st'
    /\ 0 <= z <= 100
    /\ accuracyText (document st') = show_Z z +:+ "%"
    /\ localStorage st' !! "questionsSolved" = Some "1".
Proof.
  destruct (checkAnswer 10 (of_Z 7) (of_Z 8) fresh) as [[] st'|e st'|] eqn:E.
  - destruct (accuracy_after_answer 10 (of_Z 7) (of_Z 8) fresh st' counters_ok_fresh E)
      as (z & Hz & Htext & _ & Hsolved).
    exists st', z. split; [reflexivity|]. split; [exact Hz|]. split; [exact Htext|].
    exact Hsolved.
  - vm_compute in E. discriminate.
  - vm_compute in E. discriminate.
Defined.


Lemma notifications_only_grow_witness :
  exists st', after (handle 10 ClickMusic fresh) = Some st' /\ noted st' = [].
Proof.
  destruct (after (handle 10 ClickMusic fresh)) as [st'|] eqn:E.
  - exists st'. split; [done|].
    exact (notifications_only_grow 10 ClickMusic fresh st' E).
  - vm_compute in E. discriminate.
Defined.

Lemma fresh_stored : storedLeaderboard fresh = Some [].
Proof. vm_compute. reflexivity. Qed.

Lemma updateLeaderboard_normalises_witness :
  exists st',
    updateLeaderboard (Some "Ann") 50 fresh = Ok tt st'
    /\ storedLeaderboard st' = Some [{| Entry.name := "Ann"; Entry.score := 50 |}].
Proof.
  destruct (updateLeaderboard_normalises (Some "Ann") 50 fresh [] fresh_stored)
    as (st' & board' & Hok & Hstored & -> & _).
  exists st'. split; [done|]. exact Hstored.
Defined.

(** A full leaderboard in storage. *)
Definition fiveEntries : list Entry.t :=
  [ {| Entry.name := "Ann"; Entry.score := 90 |};
    {| Entry.name := "Bo"; Entry.score := 70 |};
    {| Entry.name := "Cy"; Entry.score := 70 |};
    {| Entry.name := "Di"; Entry.score := 40 |};
    {| Entry.name := "Ed"; Entry.score := 20 |} ].

Definition fullBoard : State :=
  loaded {["leaderboard" := Reference.stringify fiveEntries]} cycle5 seconds.

Lemma fiveEntries_sorted : StronglySorted above fiveEntries.
Proof. repeat constructor; unfold above; simpl; lia. Qed.

Lemma fullBoard_stored : storedLeaderboard fullBoard = Some fiveEntries.
Proof. vm_compute. reflexivity. Qed.

Lemma full_board_admits_only_higher_scores_witness :
  exists st',
    updateLeaderboard (Some "Flo") 20 fullBoard = Ok tt st'
    /\ storedLeaderboard st' = Some fiveEntries.
Proof.
  destruct (full_board_admits_only_higher_scores (Some "Flo") 20 fullBoard fiveEntries
              fullBoard_stored fiveEntries_sorted eq_refl)
    as (st' & board' & Hok & Hstored & Hsame & _).
  exists st'. split; [done|]. rewrite Hstored, Hsame; [done|].
  intros e He. unfold fiveEntries in He. rewrite !elem_of_cons in He.
  destruct He as [->|[->|[->|[->|[->|He]]]]]; simpl; try lia.
  by apply elem_of_nil in He.
Defined.

(** The leaderboard page with an empty container. *)
Definition leaderboardPage : State :=
  set_document (set_leaderboardEntries (Some []) (document fullBoard)) fullBoard.

Lemma displayLeaderboard_rows_witness :
  exists st' rows,
    displayLeaderboard leaderboardPage = Ok tt st'
    /\ leaderboardEntries (document st') = Some rows
    /\ length rows = 5%nat
    /\ rows !! 1%nat = Some (EntryRow 2 "Bo" 70).
Proof.
  destruct (displayLeaderboard_rows leaderboardPage fiveEntries [] fullBoard_stored eq_refl)
    as (st' & rows & Hok & Hrows & Hlen & Hrow & _).
  exists st', rows. split_and!; [done..|].
  by rewrite Hrow.
Defined.

(** The single-player clock shows its last second. *)
Definition lastSecond : State := set_vars (set_timeRemaining 1 initialVars) fresh.

Lemma timer_expiry_records_score_witness :
  exists st',
    timerTick 10 lastSecond = Ok tt st'
    /\ storedLeaderboard st' = Some [{| Entry.name := "Anonymous"; Entry.score := 0 |}]
    /\ winnerAnnouncement (document st') = Some (GreatEffort None 0).
Proof.
  destruct (timerTick 10 lastSecond) as [[] st'|e st'|] eqn:E.
  - destruct (timer_expiry_records_score 10 lastSecond st' [] fresh_stored ltac:(simpl; lia) E)
      as (Hstored & Hshown & _).
    exists st'. split_and!; [done| |done]. exact Hstored.
  - vm_compute in E. discriminate.
  - vm_compute in E. discriminate.
Defined.

Lemma timer_runs_thirty_ticks_witness :
  exists st',
    run 10 (ClickTimer :: replicate 29 (TimerFires 1%positive)) fresh = Some st'
    /\ timeRemaining (vars st') = 1.
Proof.
  destruct (timer_runs_thirty_ticks 10 29 fresh eq_refl eq_refl (Forall_nil_2 _) ltac:(lia))
    as (st' & Hrun & Hleft & _).
  by exists st'.
Defined.

Lemma turn_runs_fifteen_ticks_witness :
  exists st1 st',
    startPlayerTurn fresh = Ok tt st1
    /\ run 10 (replicate 14 (TimerFires 1%positive)) st1 = Some st'
    /\ multiplayerTimer (vars st') = 1.
Proof.
  destruct (turn_runs_fifteen_ticks 10 14 fresh eq_refl (Forall_nil_2 _) ltac:(lia))
    as (st1 & st' & Hstart & Hrun & Hleft & _).
  by exists st1, st'.
Defined.

(** The first player's turn shows its last second. *)
Definition turnLastSecond : State := turnTicked 14 (turnStarted fresh).

Lemma turn_end_switches_or_announces_witness :
  exists st',
    handle 10 (TimerFires 1%positive) turnLastSecond = Ok tt st'
    /\ currentPlayer (vars st') = 2
    /\ winnerAnnouncement (document st') = Some PlayerOneDone.
Proof.
  destruct (turn_end_switches_or_announces 10 1%positive turnLastSecond
              eq_refl eq_refl eq_refl ltac:(simpl; lia))
    as (st' & Hok & _ & _ & _ & Hplayer).
  exists st'. split; [done|].
  change (currentPlayer (vars turnLastSecond)) with 1 in Hplayer.
  rewrite decide_True in Hplayer by done. by destruct Hplayer as (? & ? & _).
Defined.

Lemma countdown_starts_the_turn_witness :
  exists st1 st',
    showCountdown fresh = Ok tt st1
    /\ run 10 (TimerFires <$> [1; 2; 3; 4; 5; 6; 7; 8]%positive) st1 = Some st'
    /\ multiplayerInterval (vars st') = Some 9%positive.
Proof.
  destruct (countdown_starts_the_turn 10 fresh eq_refl (Forall_nil_2 _))
    as (st1 & st' & Hstart & Hrun & _ & _ & _ & Hinterval & _).
  by exists st1, st'.
Defined.

Lemma animation_ends_witness :
  exists k,
    (k <= 607)%nat
    /\ Confetti.particles
         (Nat.iter k Confetti.nextFrame (Confetti.start cycle5 0 (Confetti.create 800 600)).1) = [].
Proof.
  destruct (ConfettiFacts.animation_ends cycle5 0 (Confetti.create 800 600)
              unit_draw_cycle5 ltac:(simpl; lia) eq_refl)
    as (k & Hk & _ & _ & Hempty & _).
  exists k. split; [exact Hk|exact Hempty].
Defined.


Lemma entering_multiplayer_locks_answers_witness :
  exists st1,
    handle 10 ClickMultiplayer fresh = Ok tt st1
    /\ length (options (document st1)) = 4%nat
    /\ handle 10 (ClickOption 0) st1 = Ok tt st1.
Proof.
  destruct (handle 10 ClickMultiplayer fresh) as [[] st1|e st1|] eqn:E.
  - destruct (entering_multiplayer_locks_answers 10 fresh st1 eq_refl eq_refl E)
      as (_ & _ & _ & _ & Hfour & _ & _ & Hlocked).
    exists st1. split_and!; [done..|]. apply Hlocked.
  - vm_compute in E. discriminate.
  - vm_compute in E. discriminate.
Defined.


